(** * URL shortener: registry, click ledger and redirect handler

    A shallow embedding of [config.py], [database.py], [url_shortener.py],
    the request path and the server manager of [server.py], the reports of
    [analytics.py] and [truncate_text] of [utils.py], with the methods of
    [http.server] that put the handler's response on the wire, followed by
    the properties of the redirect service.

    Conventions of the embedding.
    - Python [str] values are Rocq strings; a character is a code point
      below 256, which is also how [http.server] decodes a request line.
    - Time stamps are integers counting microseconds; the ISO text stored in
      the [expires_at] column is read back by [datetime.fromisoformat], and
      the model keeps the instant itself. Dates stay within the range of
      [datetime]: an [expires_days] that leaves it makes Python raise
      [OverflowError], which is not modelled.
    - SQL [REAL] values and Python floats that only pass through the code
      are rationals.
    - The logger writes to a file that no operation reads back; it is left
      out. *)

From stdpp Require Import base option list gmap strings sorting pretty.
From Stdlib Require Import ZArith QArith Ascii Lia.

Local Open Scope Z_scope.

(** ** Python string methods used by the code *)

Module Str.

(** [ch in "0-9A-Za-z"] and the Latin-1 letters and numerics: [str.isalnum]
    on one code point below 256. *)
Definition isalnum_char (ch : ascii) : bool :=
  let n := nat_of_ascii ch in
  ((48 <=? n) && (n <=? 57) || (65 <=? n) && (n <=? 90)
   || (97 <=? n) && (n <=? 122)
   || (n =? 170) || (n =? 178) || (n =? 179) || (n =? 181)
   || (n =? 185) || (n =? 186) || (188 <=? n) && (n <=? 190)
   || (192 <=? n) && (n <=? 214) || (216 <=? n) && (n <=? 246)
   || (248 <=? n) && (n <=? 255))%nat.

Fixpoint all_chars (p : ascii → bool) (s : string) : bool :=
  match s with
  | EmptyString => true
  | String ch s' => p ch && all_chars p s'
  end.

(** [s.isalnum()]: false on the empty string. *)
Definition isalnum (s : string) : bool :=
  match s with
  | EmptyString => false
  | _ => all_chars isalnum_char s
  end.

(** [str.isspace] on one code point below 256. *)
Definition isspace_char (ch : ascii) : bool :=
  let n := nat_of_ascii ch in
  ((9 <=? n) && (n <=? 13) || (28 <=? n) && (n <=? 32)
   || (n =? 133) || (n =? 160))%nat.

Fixpoint lstrip (s : string) : string :=
  match s with
  | String ch s' => if isspace_char ch then lstrip s' else s
  | EmptyString => EmptyString
  end.

Fixpoint rstrip (s : string) : string :=
  match s with
  | EmptyString => EmptyString
  | String ch s' =>
      match rstrip s' with
      | EmptyString => if isspace_char ch then EmptyString else String ch EmptyString
      | t => String ch t
      end
  end.

(** [s.strip()] *)
Definition strip (s : string) : string := rstrip (lstrip s).

(** [s.lstrip('/')] *)
Fixpoint lstrip_slash (s : string) : string :=
  match s with
  | String ch s' => if Ascii.eqb ch "/"%char then lstrip_slash s' else s
  | EmptyString => EmptyString
  end.

(** ['?' in s] *)
Fixpoint contains_char (c : ascii) (s : string) : bool :=
  match s with
  | EmptyString => false
  | String ch s' => Ascii.eqb ch c || contains_char c s'
  end.

(** [s.split('?')[0]] *)
Fixpoint before_char (c : ascii) (s : string) : string :=
  match s with
  | EmptyString => EmptyString
  | String ch s' => if Ascii.eqb ch c then EmptyString else String ch (before_char c s')
  end.

(** [s.startswith(p)] *)
Fixpoint startswith (p s : string) : bool :=
  match p, s with
  | EmptyString, _ => true
  | String a p', String b s' => Ascii.eqb a b && startswith p' s'
  | String _ _, EmptyString => false
  end.

(** [s[n:]] *)
Fixpoint drop (n : nat) (s : string) : string :=
  match n, s with
  | O, _ => s
  | S n', String _ s' => drop n' s'
  | S _, EmptyString => EmptyString
  end.

Definition truthy (s : string) : bool :=
  match s with EmptyString => false | _ => true end.

(** The first [n] characters. *)
Fixpoint take (n : nat) (s : string) : string :=
  match n, s with
  | S n', String ch s' => String ch (take n' s')
  | _, _ => EmptyString
  end.

(** [s[:k]] for an integer [k]: a negative [k] counts from the end. *)
Definition slice_to (k : Z) (s : string) : string :=
  if 0 <=? k then take (Z.to_nat k) s
  else take (String.length s - Z.to_nat (- k)) s.

End Str.

(** ** config.py *)

Module config.

Definition SERVER_HOST : string := "localhost".
Definition SERVER_PORT : N := 8080.
Definition CUSTOM_DOMAIN : string :=
  "http://" +:+ SERVER_HOST +:+ ":" +:+ pretty SERVER_PORT.

Definition SHORT_CODE_LENGTH : nat := 6.
Definition SHORT_CODE_CHARS : string :=
  "abcdefghijklmnopqrstuvwxyzABCDEFGHIJKLMNOPQRSTUVWXYZ0123456789".
Definition MAX_CUSTOM_LENGTH : nat := 50.

Definition CHECK_URL_ACTIVE : bool := true.

Definition TRACK_IP : bool := true.
Definition TRACK_LOCATION : bool := true.
Definition TRACK_BROWSER : bool := true.

(** The entries of [ERROR_MESSAGES] that the modelled code reads. *)
Module ERROR_MESSAGES.
Definition invalid_url : string :=
  "Invalid URL format. Please enter a valid URL starting with http:// or https://".
Definition url_inactive : string := "URL appears to be inactive or unreachable".
Definition blacklisted : string := "This URL is blacklisted and cannot be shortened".
Definition custom_taken : string := "This custom short code is already taken".
Definition database_error : string := "Database error occurred. Please try again".
Definition not_found : string := "Shortened URL not found".
Definition dns_error : string := "DNS resolution failed for this URL".
End ERROR_MESSAGES.

End config.

(** ** The relational store of database.py *)

Definition Timestamp := Z.

(** One day in the unit of [Timestamp]. *)
Definition DAY : Z := 86400000000.

(** A row of table [urls]. [short_code] is [UNIQUE NOT NULL]. *)
Module Urls.
Record row := {
  id : nat;
  short_code : string;
  original_url : string;
  custom : bool;
  created_at : Timestamp;
  expires_at : option Timestamp;
  is_active : bool;
  notes : string;
  tags : string;
  password : option string
}.
End Urls.

(** A row of table [clicks]. *)
Module Clicks.
Record row := {
  id : nat;
  short_code : string;
  clicked_at : Timestamp;
  ip_address : string;
  country : string;
  city : string;
  browser : string;
  device : string;
  response_time_ms : Q
}.
End Clicks.

(** The state behind a [Database] object.
    - [conn_ok]: the connection executes statements. After [close()] every
      [execute] raises [sqlite3.ProgrammingError], a [sqlite3.Error]; each
      method catches [sqlite3.Error] and returns its failure value.
    - [urls]: table [urls], indexed by its unique column [short_code].
    - [clicks]: table [clicks] in insertion order. The connection never
      enables [PRAGMA foreign_keys], so the [FOREIGN KEY] clause of the
      table is not enforced by SQLite.
    - [urls_seq], [clicks_seq]: the [AUTOINCREMENT] counters. *)
Record Database := {
  conn_ok : bool;
  urls : gmap string Urls.row;
  clicks : list Clicks.row;
  urls_seq : nat;
  clicks_seq : nat
}.

Definition set_urls (m : gmap string Urls.row) (db : Database) : Database :=
  {| conn_ok := conn_ok db; urls := m; clicks := clicks db;
     urls_seq := urls_seq db; clicks_seq := clicks_seq db |}.

Definition set_clicks (l : list Clicks.row) (db : Database) : Database :=
  {| conn_ok := conn_ok db; urls := urls db; clicks := l;
     urls_seq := urls_seq db; clicks_seq := clicks_seq db |}.

(** A method of [Database]: it reads and possibly updates the store. *)
Definition DB (A : Type) : Type := Database → A * Database.

Definition ret {A} (a : A) : DB A := λ db, (a, db).
Definition bind {A B} (m : DB A) (k : A → DB B) : DB B :=
  λ db, let '(a, db') := m db in k a db'.
Definition gets {A} (f : Database → A) : DB A := λ db, (f db, db).
Definition modify (f : Database → Database) : DB unit := λ db, (tt, f db).

Notation "'let*' x := m 'in' k" := (bind m (λ x, k))
  (at level 10, x name, m at level 100, k at level 200).

(** [try: body except sqlite3.Error: return failure] *)
Definition try_sql {A} (failure : A) (body : DB A) : DB A :=
  λ db, if conn_ok db then body db else (failure, db).

Module Database.

(** [__init__] on a fresh file: [connect()] then [create_tables()]. *)
Definition init : Database :=
  {| conn_ok := true; urls := ∅; clicks := []; urls_seq := 0; clicks_seq := 0 |}.

(** [insert_url]. [ts] is SQLite's [CURRENT_TIMESTAMP] at the insert. A
    duplicate [short_code] raises [sqlite3.IntegrityError]. *)
Definition insert_url (ts : Timestamp) (short_code original_url : string)
    (custom : bool) (expires_at : option Timestamp) (notes tags : string) : DB bool :=
  try_sql false (λ db,
    match urls db !! short_code with
    | Some _ => (false, db)
    | None =>
        let r := {| Urls.id := S (urls_seq db); Urls.short_code := short_code;
                    Urls.original_url := original_url; Urls.custom := custom;
                    Urls.created_at := ts; Urls.expires_at := expires_at;
                    Urls.is_active := true; Urls.notes := notes;
                    Urls.tags := tags; Urls.password := None |} in
        (true, {| conn_ok := conn_ok db; urls := <[short_code := r]> (urls db);
                  clicks := clicks db; urls_seq := S (urls_seq db);
                  clicks_seq := clicks_seq db |})
    end).

(** [datetime.now() > expires_at] for a row whose [expires_at] is set. *)
Definition expired (now : Timestamp) (r : Urls.row) : bool :=
  match Urls.expires_at r with
  | Some t => t <? now
  | None => false
  end.

(** [get_url]. [now] is [datetime.now()] at the call. *)
Definition get_url (now : Timestamp) (short_code : string) : DB (option Urls.row) :=
  try_sql None (λ db,
    match urls db !! short_code with
    | Some row =>
        if Urls.is_active row then
          if expired now row then (None, db) else (Some row, db)
        else (None, db)
    | None => (None, db)
    end).

(** [ORDER BY created_at DESC] *)
Definition newer_first (r1 r2 : Urls.row) : Prop :=
  Urls.created_at r2 ≤ Urls.created_at r1.

#[global] Instance newer_first_dec r1 r2 : Decision (newer_first r1 r2).
Proof. unfold newer_first. apply _. Defined.

(** [get_all_urls] *)
Definition get_all_urls (include_inactive : bool) : DB (list Urls.row) :=
  try_sql [] (λ db,
    let rows := (map_to_list (urls db)).*2 in
    let rows := if include_inactive then rows else filter (λ r, Urls.is_active r = true) rows in
    (merge_sort newer_first rows, db)).

(** [arg is not None] *)
Definition supplied {A} (arg : option A) : bool :=
  match arg with Some _ => true | None => false end.

(** The [SET] clauses that [update_url] builds from the supplied fields. *)
Definition apply_updates (original_url notes tags : option string)
    (expires_at : option Timestamp) (r : Urls.row) : Urls.row :=
  {| Urls.id := Urls.id r; Urls.short_code := Urls.short_code r;
     Urls.original_url := default (Urls.original_url r) original_url;
     Urls.custom := Urls.custom r; Urls.created_at := Urls.created_at r;
     Urls.expires_at := match expires_at with Some t => Some t | None => Urls.expires_at r end;
     Urls.is_active := Urls.is_active r;
     Urls.notes := default (Urls.notes r) notes;
     Urls.tags := default (Urls.tags r) tags;
     Urls.password := Urls.password r |}.

(** [update_url]: [UPDATE urls SET ... WHERE short_code = ?]. *)
Definition update_url (short_code : string) (original_url notes tags : option string)
    (expires_at : option Timestamp) : DB bool :=
  try_sql false (λ db,
    if negb (supplied original_url || supplied notes || supplied tags
             || supplied expires_at)
    then (false, db)
    else (true, set_urls (alter (apply_updates original_url notes tags expires_at)
                                short_code (urls db)) db)).

Definition deactivate (r : Urls.row) : Urls.row :=
  {| Urls.id := Urls.id r; Urls.short_code := Urls.short_code r;
     Urls.original_url := Urls.original_url r;
     Urls.custom := Urls.custom r; Urls.created_at := Urls.created_at r;
     Urls.expires_at := Urls.expires_at r;
     Urls.is_active := false;
     Urls.notes := Urls.notes r; Urls.tags := Urls.tags r;
     Urls.password := Urls.password r |}.

(** [delete_url]: [UPDATE urls SET is_active = 0 WHERE short_code = ?]. *)
Definition delete_url (short_code : string) : DB bool :=
  try_sql false (λ db,
    (true, set_urls (alter deactivate short_code (urls db)) db)).

(** [hard_delete_url]: both [DELETE] statements, then the commit. *)
Definition hard_delete_url (short_code : string) : DB bool :=
  try_sql false (λ db,
    let db1 := set_clicks (filter (λ e, Clicks.short_code e ≠ short_code) (clicks db)) db in
    (true, set_urls (delete short_code (urls db1)) db1)).

(** [record_click]. [ts] is [CURRENT_TIMESTAMP] at the insert. *)
Definition record_click (ts : Timestamp) (short_code ip_address country city
    browser device : string) (response_time_ms : Q) : DB bool :=
  try_sql false (λ db,
    let e := {| Clicks.id := S (clicks_seq db); Clicks.short_code := short_code;
                Clicks.clicked_at := ts; Clicks.ip_address := ip_address;
                Clicks.country := country; Clicks.city := city;
                Clicks.browser := browser; Clicks.device := device;
                Clicks.response_time_ms := response_time_ms |} in
    (true, {| conn_ok := conn_ok db; urls := urls db;
              clicks := clicks db ++ [e]; urls_seq := urls_seq db;
              clicks_seq := S (clicks_seq db) |})).

(** [get_click_count]: [SELECT COUNT( * ) FROM clicks WHERE short_code = ?]. *)
Definition get_click_count (short_code : string) : DB nat :=
  try_sql 0%nat (λ db,
    (length (filter (λ e, Clicks.short_code e = short_code) (clicks db)), db)).

(** [ORDER BY clicked_at DESC] *)
Definition latest_first (e1 e2 : Clicks.row) : Prop :=
  Clicks.clicked_at e2 ≤ Clicks.clicked_at e1.

#[global] Instance latest_first_dec e1 e2 : Decision (latest_first e1 e2).
Proof. unfold latest_first. apply _. Defined.

(** The [WHERE] clause that [get_clicks] builds: a filter is added only
    when its argument is truthy, so an empty [short_code] selects all.
    Column [clicked_at] holds the text of [CURRENT_TIMESTAMP], and SQLite
    compares it with the bounds as texts; [start_date] and [end_date] are
    bounds given in the format of the column, [YYYY-MM-DD HH:MM:SS], for
    which the order of the texts is the order of the instants. A bound in
    another format, such as ISO with [T], is outside the model. *)
Definition click_selected (short_code : option string)
    (start_date end_date : option Timestamp) (e : Clicks.row) : bool :=
  match short_code with
  | Some c => if Str.truthy c then bool_decide (Clicks.short_code e = c) else true
  | None => true
  end
  && match start_date with Some t => t <=? Clicks.clicked_at e | None => true end
  && match end_date with Some t => Clicks.clicked_at e <=? t | None => true end.

(** [get_clicks] *)
Definition get_clicks (short_code : option string) (limit : option nat)
    (start_date end_date : option Timestamp) : DB (list Clicks.row) :=
  try_sql [] (λ db,
    let rows := filter (λ e, click_selected short_code start_date end_date e = true)
                       (clicks db) in
    let rows := merge_sort latest_first rows in
    (match limit with
     | Some (S n) => take (S n) rows
     | _ => rows
     end, db)).

(** The keys of the dictionary of [get_statistics] that the aggregate
    contract names. The other keys ([most_clicked], [avg_response_time_ms],
    [top_countries]) are further [SELECT]s on [clicks] written into their
    own entries of the dictionary. *)
Record statistics := {
  total_urls : nat;
  total_clicks : nat;
  avg_clicks_per_url : Q
}.

(** [get_statistics]; [None] is the empty dictionary of the [except]
    branch. *)
Definition get_statistics : DB (option statistics) :=
  try_sql None (λ db,
    let total_urls :=
      length (filter (λ r, Urls.is_active r = true) (map_to_list (urls db)).*2) in
    let total_clicks := length (clicks db) in
    let avg :=
      if (0 <? total_urls)%nat
      then (inject_Z (Z.of_nat total_clicks) / inject_Z (Z.of_nat total_urls))%Q
      else 0%Q in
    (Some {| total_urls := total_urls; total_clicks := total_clicks;
             avg_clicks_per_url := avg |}, db)).

(** SQLite folds the case of the 26 ASCII letters when it compares with
    [LIKE]. *)
Definition like_fold (ch : ascii) : ascii :=
  let n := nat_of_ascii ch in
  if ((65 <=? n) && (n <=? 90))%nat then ascii_of_nat (n + 32) else ch.

(** The comparison of [LIKE] on two texts: [%] stands for any run of
    characters, [_] for any one character, and any other character for
    itself up to ASCII case. *)
Fixpoint like_match (pattern text : string) : bool :=
  match pattern with
  | EmptyString => match text with EmptyString => true | _ => false end
  | String p pattern' =>
      if Ascii.eqb p "%" then
        (fix from (t : string) : bool :=
           like_match pattern' t
           || match t with
              | EmptyString => false
              | String _ t' => from t'
              end) text
      else
        match text with
        | EmptyString => false
        | String c text' =>
            (Ascii.eqb p "_" || Ascii.eqb (like_fold p) (like_fold c))
            && like_match pattern' text'
        end
  end.

(** A text as SQLite's [LIKE] reads it: SQLite keeps every character of a
    bound or stored text, but [LIKE] takes both operands as NUL-terminated
    strings and sees nothing from the first NUL character on. *)
Definition c_string (text : string) : string := Str.before_char "000" text.

(** [text LIKE pattern] *)
Definition like (pattern text : string) : bool :=
  like_match (c_string pattern) (c_string text).

(** The [WHERE] clause of [search_urls]. *)
Definition search_matches (search_pattern : string) (r : Urls.row) : bool :=
  (like search_pattern (Urls.short_code r)
   || like search_pattern (Urls.original_url r)
   || like search_pattern (Urls.notes r)
   || like search_pattern (Urls.tags r))
  && Urls.is_active r.

(** The number of bytes of the UTF-8 text that SQLite holds for a string of
    code points below 256. *)
Fixpoint utf8_length (s : string) : Z :=
  match s with
  | EmptyString => 0
  | String ch s' => (if (nat_of_ascii ch <? 128)%nat then 1 else 2) + utf8_length s'
  end.

(** SQLite's default limit on the bytes of a [LIKE] pattern; a longer
    pattern makes the statement fail with [sqlite3.OperationalError]. *)
Definition SQLITE_MAX_LIKE_PATTERN_LENGTH : Z := 50000.

(** [search_urls] *)
Definition search_urls (search_term : string) : DB (list Urls.row) :=
  try_sql [] (λ db,
    let search_pattern := "%" +:+ search_term +:+ "%" in
    if SQLITE_MAX_LIKE_PATTERN_LENGTH <? utf8_length search_pattern then ([], db)
    else
      (merge_sort newer_first
         (filter (λ r, search_matches search_pattern r = true) (map_to_list (urls db)).*2),
       db)).

(** [close] *)
Definition close : DB unit :=
  modify (λ db, {| conn_ok := false; urls := urls db; clicks := clicks db;
                   urls_seq := urls_seq db; clicks_seq := clicks_seq db |}).

End Database.

(** ** url_shortener.py *)

(** The random source: [rng i] is the [i]-th integer [floor(random() * n)]
    that [random.choices] computes, reduced into the index range. *)
Definition Rng := nat → nat.

Module random.

(** [population[floor(random() * n)]] *)
Definition choice (population : string) (r : nat) : ascii :=
  default "000"%char
    (String.get (r mod String.length population) population).

(** [''.join(random.choices(population, k=k))], reading the random source
    from position [pos]. *)
Fixpoint choices (population : string) (k : nat) (rng : Rng) (pos : nat) : string :=
  match k with
  | O => EmptyString
  | S k' => String (choice population (rng pos)) (choices population k' rng (S pos))
  end.

End random.

(** The result dictionary of [shorten_url]. *)
Record ShortenResult := {
  success : bool;
  short_code : option string;
  shortened_url : option string;
  error : option string
}.

(** The dictionary that [utils.validate_url] returns. *)
Record Validation := {
  valid : bool;
  validation_text : string
}.

Module URLShortener.

(** [generate_short_code]: the [while True] loop, run for at most [fuel]
    rounds. [None] means that the loop has not returned within [fuel]
    rounds; the loop has no other exit than [return code]. *)
Fixpoint generate_short_code (fuel : nat) (rng : Rng) (pos : nat)
    (now : Timestamp) : DB (option string) :=
  match fuel with
  | O => ret None
  | S fuel' =>
      let code := random.choices config.SHORT_CODE_CHARS config.SHORT_CODE_LENGTH rng pos in
      let* url_data := Database.get_url now code in
      match url_data with
      | None => ret (Some code)
      | Some _ => generate_short_code fuel' rng (pos + config.SHORT_CODE_LENGTH) now
      end
  end.

Definition failed (msg : string) : ShortenResult :=
  {| success := false; short_code := None; shortened_url := None; error := Some msg |}.

Section shorten.

(** The checks of utils.py, which [shorten_url] consults. They inspect
    the URL text, the DNS and the network. *)
Variable validate_url : string → Validation.
Variable is_blacklisted : string → bool.
Variable check_dns_resolution : string → bool.
Variable check_url_active : string → bool.

(** Truth value of the dictionary of [validate_url]: it always has
    entries, so [not validate_url(original_url)] is false. *)
Definition dict_truthy (v : Validation) : bool := true.

(** The part of [shorten_url] after the URL checks. [now] is
    [datetime.now()], [ts] is [CURRENT_TIMESTAMP]; [None] means that
    [generate_short_code] has not returned within [fuel] rounds. *)
Definition shorten_checked (fuel : nat) (rng : Rng) (now ts : Timestamp)
    (original_url : string) (custom_code : option string)
    (expires_days : option Z) (notes tags : string) : DB (option ShortenResult) :=
  let insert (short_code : string) (is_custom : bool) : DB (option ShortenResult) :=
    let expires_at :=
      match expires_days with
      | Some d => if d =? 0 then None else Some (now + d * DAY)
      | None => None
      end in
    let* ok := Database.insert_url ts short_code original_url is_custom expires_at notes tags in
    if ok then
      ret (Some {| success := true; short_code := Some short_code;
                   shortened_url := Some (config.CUSTOM_DOMAIN +:+ "/" +:+ short_code);
                   error := None |})
    else ret (Some (failed config.ERROR_MESSAGES.database_error)) in
  match custom_code with
  | Some (String ch rest as custom_code) =>
      if (config.MAX_CUSTOM_LENGTH <? String.length custom_code)%nat then
        ret (Some (failed ("Custom code too long (max "
                           +:+ pretty config.MAX_CUSTOM_LENGTH +:+ " characters)")))
      else if negb (Str.isalnum custom_code) then
        ret (Some (failed "Custom code must be alphanumeric"))
      else
        let* taken := Database.get_url now custom_code in
        match taken with
        | Some _ => ret (Some (failed config.ERROR_MESSAGES.custom_taken))
        | None => insert custom_code true
        end
  | _ =>
      let* code := generate_short_code fuel rng 0 now in
      match code with
      | Some short_code => insert short_code false
      | None => ret None
      end
  end.

(** [shorten_url] *)
Definition shorten_url (fuel : nat) (rng : Rng) (now ts : Timestamp)
    (original_url : string) (custom_code : option string)
    (expires_days : option Z) (notes tags : string) (validate : bool)
    : DB (option ShortenResult) :=
  if negb (dict_truthy (validate_url original_url)) then
    ret (Some (failed config.ERROR_MESSAGES.invalid_url))
  else if is_blacklisted original_url then
    ret (Some (failed config.ERROR_MESSAGES.blacklisted))
  else if validate && config.CHECK_URL_ACTIVE && negb (check_dns_resolution original_url) then
    ret (Some (failed config.ERROR_MESSAGES.dns_error))
  else if validate && config.CHECK_URL_ACTIVE && negb (check_url_active original_url) then
    ret (Some (failed config.ERROR_MESSAGES.url_inactive))
  else
    shorten_checked fuel rng now ts original_url custom_code expires_days notes tags.

End shorten.

(** [update_url]: the keyword arguments are handed to [Database.update_url]. *)
Definition update_url (short_code : string) (original_url notes tags : option string)
    (expires_at : option Timestamp) : DB bool :=
  Database.update_url short_code original_url notes tags expires_at.

(** [delete_url] *)
Definition delete_url (short_code : string) (permanent : bool) : DB bool :=
  if permanent then Database.hard_delete_url short_code
  else Database.delete_url short_code.

(** [get_original_url] *)
Definition get_original_url (now : Timestamp) (short_code : string) : DB (option string) :=
  let* url_data := Database.get_url now short_code in
  ret (Urls.original_url <$> url_data).

(** A row dictionary with the two entries that [get_url_details] and
    [get_all_urls] add to it. *)
Record Details := {
  url_data : Urls.row;
  click_count : nat;
  details_shortened_url : string
}.

(** [get_url_details] *)
Definition get_url_details (now : Timestamp) (short_code : string) : DB (option Details) :=
  let* url_data := Database.get_url now short_code in
  match url_data with
  | None => ret None
  | Some url_data =>
      let* click_count := Database.get_click_count short_code in
      ret (Some {| url_data := url_data; click_count := click_count;
                   details_shortened_url := config.CUSTOM_DOMAIN +:+ "/" +:+ short_code |})
  end.

(** The loop of [get_all_urls] over the listing. *)
Fixpoint add_click_counts (urls : list Urls.row) : DB (list Details) :=
  match urls with
  | [] => ret []
  | url :: rest =>
      let* click_count := Database.get_click_count (Urls.short_code url) in
      let* rest := add_click_counts rest in
      ret ({| url_data := url; click_count := click_count;
              details_shortened_url :=
                config.CUSTOM_DOMAIN +:+ "/" +:+ Urls.short_code url |} :: rest)
  end.

(** [get_all_urls] *)
Definition get_all_urls : DB (list Details) :=
  let* urls := Database.get_all_urls false in
  add_click_counts urls.

(** The loop of [cleanup_expired_urls]; [now i] is what [datetime.now()]
    reads at the row of index [i] of the listing. *)
Fixpoint cleanup_loop (now : nat → Timestamp) (i : nat) (urls : list Urls.row)
    (count : nat) : DB nat :=
  match urls with
  | [] => ret count
  | url :: rest =>
      if Database.expired (now i) url then
        let* _ := Database.delete_url (Urls.short_code url) in
        cleanup_loop now (S i) rest (S count)
      else cleanup_loop now (S i) rest count
  end.

(** [cleanup_expired_urls] *)
Definition cleanup_expired_urls (now : nat → Timestamp) : DB nat :=
  let* urls := Database.get_all_urls false in
  cleanup_loop now 0 urls 0.

(** [search_urls] *)
Definition search_urls (search_term : string) : DB (list Urls.row) :=
  Database.search_urls search_term.

End URLShortener.

(** ** server.py: the request path *)

(** What the handler reads from one request. *)
Record Request := {
  path : string;
  client_address : string;
  user_agent : option string
}.

(** The clock as one request sees it: [datetime_now] inside [get_url],
    [current_timestamp] at the insert of the click, and [elapsed_ms], the
    value of [(time.time() - start_time) * 1000]. *)
Record Clock := {
  datetime_now : Timestamp;
  current_timestamp : Timestamp;
  elapsed_ms : Q
}.

Inductive Body :=
| NoBody
| ErrorPage (message : string)
| HomePage
| Json (stats : option Database.statistics).

(** The calls by which the handler answers: [status] is the code it passes
    to [send_response] or [send_error], [headers] are its calls of
    [send_header] in their order, and [body] is what it writes after
    [end_headers()]. What reaches the client is what [http.server] makes of
    these calls: [BaseHTTPRequestHandler.response_head] below. *)
Record Response := {
  status : nat;
  headers : list (string * string);
  body : Body
}.

(** [send_error(code, message)] *)
Definition send_error (code : nat) (message : string) : Response :=
  {| status := code; headers := []; body := ErrorPage message |}.

(** The dictionary of [utils.get_ip_info], its two entries that are read,
    after [str()]. *)
Record GeoInfo := {
  geo_country : string;
  geo_city : string
}.

(** The dictionary of [utils.parse_user_agent], its entries that are read. *)
Record UaInfo := {
  browser_family : string;
  browser_version : string;
  device_family : string
}.

Module URLRedirectHandler.

Section handler.

(** The external lookups of utils.py; [None] is their failure value. *)
Variable get_ip_info : string → option GeoInfo.
Variable parse_user_agent : string → option UaInfo.

(** [serve_home_page] *)
Definition serve_home_page : Response :=
  {| status := 200; headers := [("Content-type", "text/html")]; body := HomePage |}.

(** [send_json_response] *)
Definition send_json_response (data : option Database.statistics) : Response :=
  {| status := 200; headers := [("Content-type", "application/json")]; body := Json data |}.

(** [handle_api] *)
Definition handle_api (path : string) : DB Response :=
  let endpoint := Str.drop 4 path in
  if String.eqb endpoint "stats" then
    let* stats := Database.get_statistics in
    ret (send_json_response stats)
  else ret (send_error 404 "API endpoint not found").

(** [handle_redirect]. The result of [record_click] is not looked at: the
    answer is the same when the insert fails. The URL goes to [send_header]
    as it is stored. *)
Definition handle_redirect (req : Request) (clk : Clock) (short_code : string)
    : DB Response :=
  let* url_data := Database.get_url (datetime_now clk) short_code in
  match url_data with
  | None => ret (send_error 404 config.ERROR_MESSAGES.not_found)
  | Some row =>
      let response_time_ms := elapsed_ms clk in
      let ip_address := client_address req in
      let user_agent := default "" (user_agent req) in
      let '(country, city) :=
        if config.TRACK_LOCATION then
          match get_ip_info ip_address with
          | Some geo_info => (Str.strip (geo_country geo_info), Str.strip (geo_city geo_info))
          | None => ("", "")
          end
        else ("", "") in
      let '(browser, device) :=
        if config.TRACK_BROWSER then
          match parse_user_agent user_agent with
          | Some ua_info =>
              (Str.strip (browser_family ua_info +:+ " " +:+ browser_version ua_info),
               Str.strip (device_family ua_info))
          | None => ("", "")
          end
        else ("", "") in
      let* _ := Database.record_click (current_timestamp clk) short_code
                  (if config.TRACK_IP then ip_address else "")
                  country city browser device response_time_ms in
      ret {| status := 301; headers := [("Location", Urls.original_url row)];
             body := NoBody |}
  end.

(** [do_GET], its first two steps: strip the leading slashes, then cut
    the query string. *)
Definition parse_path (p : string) : string :=
  let path := Str.lstrip_slash p in
  if Str.contains_char "?" path then Str.before_char "?" path else path.

(** [do_GET] *)
Definition do_GET (req : Request) (clk : Clock) : DB Response :=
  let path := parse_path (path req) in
  if String.eqb path "" || String.eqb path "index.html" then ret serve_home_page
  else if Str.startswith "api/" path then handle_api path
  else handle_redirect req clk path.

End handler.

End URLRedirectHandler.

(** ** http.server: what the handler's calls put on the wire

    [send_response], [send_header] and [end_headers] are methods that the
    handler inherits. They collect the status line and the header lines in
    a buffer, each line encoded as Latin-1, and [end_headers()] writes the
    buffer to the client. The strings of the model are Latin-1 texts, so
    the bytes of a line are the line itself; a text with a code point above
    255 is outside the model, and on it the encoder raises
    [UnicodeEncodeError] before anything is written. A request line
    without a version makes [request_version] [HTTP/0.9], and then no
    status line and no header is sent at all. *)

Module BaseHTTPRequestHandler.

Definition CR : ascii := "013".
Definition LF : ascii := "010".
Definition CRLF : string := String CR (String LF EmptyString).

Definition protocol_version : string := "HTTP/1.0".

(** [self.responses[code][0]] for the two codes that the handler passes to
    [send_response]. *)
Definition reason_phrase (code : nat) : string :=
  if (code =? 200)%nat then "OK"
  else if (code =? 301)%nat then "Moved Permanently"
  else "".

(** [send_response_only(code)]: the status line. *)
Definition send_response_only (request_version : string) (code : nat) : string :=
  if String.eqb request_version "HTTP/0.9" then ""
  else protocol_version +:+ " " +:+ pretty code +:+ " " +:+ reason_phrase code +:+ CRLF.

(** [send_header(keyword, value)]: the line [keyword: value], with nothing
    in [value] escaped or refused. *)
Definition send_header (request_version keyword value : string) : string :=
  if String.eqb request_version "HTTP/0.9" then ""
  else keyword +:+ ": " +:+ value +:+ CRLF.

(** [send_response(code)]: the status line and the headers [Server] and
    [Date]; [version_string] and [date_time_string] are the values of the
    methods of these names. *)
Definition send_response (request_version version_string date_time_string : string)
    (code : nat) : string :=
  send_response_only request_version code
  +:+ send_header request_version "Server" version_string
  +:+ send_header request_version "Date" date_time_string.

(** [end_headers()]: the empty line that ends the head. *)
Definition end_headers (request_version : string) : string :=
  if String.eqb request_version "HTTP/0.9" then "" else CRLF.

(** The head that reaches the client when the handler calls
    [send_response(status)], [send_header] for each of its headers and
    [end_headers()]. *)
Definition response_head (request_version version_string date_time_string : string)
    (r : Response) : string :=
  send_response request_version version_string date_time_string (status r)
  +:+ foldr (λ kv rest, send_header request_version kv.1 kv.2 +:+ rest)
        (end_headers request_version) (headers r).

End BaseHTTPRequestHandler.

(** ** server.py: the server manager *)

(** The state of a [URLServer]: the flag [running], and the object in
    [self.server] with the state of its listening socket ([None] before the
    first start). *)
Record URLServer := {
  running : bool;
  server : option bool
}.

Module URLServer.

(** [__init__] *)
Definition init : URLServer := {| running := false; server := None |}.

(** [start]. [bind_ok] tells whether [socketserver.TCPServer] can bind the
    address, [thread_ok] whether the serving thread can be started. When
    the constructor raises, [self.server] keeps its old value; when the
    thread raises, [self.server] holds the new server, its socket open. In
    both cases [start] returns [False]. *)
Definition start (bind_ok thread_ok : bool) (s : URLServer) : bool * URLServer :=
  if running s then (false, s)
  else if negb bind_ok then (false, s)
  else if negb thread_ok then (false, {| running := false; server := Some true |})
  else (true, {| running := true; server := Some true |}).

(** [stop]: [shutdown()], [server_close()], then the flag. *)
Definition stop (s : URLServer) : URLServer :=
  if negb (running s) then s
  else match server s with
       | Some _ => {| running := false; server := Some false |}
       | None => s
       end.

(** [is_running] *)
Definition is_running (s : URLServer) : bool := running s.

End URLServer.

(** ** utils.py *)

Module utils.

(** [truncate_text] *)
Definition truncate_text (text : string) (max_length : Z) (suffix : string) : string :=
  if negb (Str.truthy text) || (Z.of_nat (String.length text) <=? max_length) then text
  else Str.slice_to (max_length - Z.of_nat (String.length suffix)) text +:+ suffix.

End utils.

(** ** analytics.py *)

Module Py.

(** [sorted(l, key=key, reverse=True)] for a key that is a count: the
    largest key first, and elements of equal key in their order in [l]. *)
Fixpoint insert_desc {A} (key : A → nat) (x : A) (l : list A) : list A :=
  match l with
  | [] => [x]
  | y :: l' => if (key x <? key y)%nat then y :: insert_desc key x l' else x :: l
  end.

Definition sorted_desc {A} (key : A → nat) (l : list A) : list A :=
  foldr (insert_desc key) [] l.

(** [l[:k]] for an integer [k]: a negative [k] counts from the end. *)
Definition slice_to {A} (k : Z) (l : list A) : list A :=
  if 0 <=? k then take (Z.to_nat k) l
  else take (length l - Z.to_nat (- k)) l.

(** [counter[key] += 1] on a [collections.Counter], whose entries keep the
    order in which their keys first came. *)
Fixpoint increment (key : string) (counter : list (string * nat)) : list (string * nat) :=
  match counter with
  | [] => [(key, 1%nat)]
  | (k, n) :: rest =>
      if String.eqb k key then (k, S n) :: rest else (k, n) :: increment key rest
  end.

End Py.

Module Analytics.

(** The loop of [get_top_urls] that sets [url['click_count']]. *)
Fixpoint count_clicks (urls : list Urls.row) : DB (list (Urls.row * nat)) :=
  match urls with
  | [] => ret []
  | url :: rest =>
      let* click_count := Database.get_click_count (Urls.short_code url) in
      let* rest := count_clicks rest in
      ret ((url, click_count) :: rest)
  end.

(** [get_top_urls] *)
Definition get_top_urls (limit : Z) : DB (list (Urls.row * nat)) :=
  let* urls := Database.get_all_urls false in
  let* urls := count_clicks urls in
  ret (Py.slice_to limit (Py.sorted_desc snd urls)).

(** The name under which [get_device_distribution] counts a click: the
    stripped [device], or [Unknown] when that is empty or the text
    [None]. *)
Definition device_label (click : Clicks.row) : string :=
  let device := if Str.truthy (Clicks.device click)
                then Str.strip (Clicks.device click) else "" in
  if Str.truthy device && negb (String.eqb device "None") then device else "Unknown".

(** [get_device_distribution]: the dictionary, as its entries in order. *)
Definition get_device_distribution (short_code : option string) : DB (list (string * nat)) :=
  let* clicks := Database.get_clicks short_code None None None in
  let device_counts := foldl (λ counter click, Py.increment (device_label click) counter)
                             [] clicks in
  ret (Py.sorted_desc snd device_counts).

End Analytics.

(** * Notions used in the statements *)

(** Every row of [urls] sits under its own [short_code]: the table is
    indexed by that column. *)
Definition keyed (db : Database) : Prop :=
  map_Forall (λ k r, Urls.short_code r = k) (urls db).

(** A code resolves to [row] at time [now]: the row exists, is active, and
    its expiration, when set, has not passed. *)
Definition resolves (db : Database) (now : Timestamp) (c : string) (row : Urls.row) : Prop :=
  urls db !! c = Some row ∧ Urls.is_active row = true ∧
  ∀ t, Urls.expires_at row = Some t → now ≤ t.

(** The click events that reference a code. *)
Definition clicks_of (c : string) (db : Database) : list Clicks.row :=
  filter (λ e, Clicks.short_code e = c) (clicks db).

(** The code drawn in round [i] of the loop that starts reading the random
    source at [pos]. *)
Definition drawn (rng : Rng) (pos i : nat) : string :=
  random.choices config.SHORT_CODE_CHARS config.SHORT_CODE_LENGTH rng
    (pos + i * config.SHORT_CODE_LENGTH).

(** The codes the generator can draw: the configured length, over the
    configured alphabet. *)
Definition in_code_space (code : string) : Prop :=
  String.length code = config.SHORT_CODE_LENGTH ∧
  Str.all_chars (λ ch, Str.contains_char ch config.SHORT_CODE_CHARS) code = true.

(** The code is present as an active ShortLink: a row holds it and the
    row is active. *)
Definition active_link (db : Database) (code : string) : Prop :=
  ∃ row, urls db !! code = Some row ∧ Urls.is_active row = true.

(** No active link of the registry has passed its expiration at [now]. *)
Definition none_expired (db : Database) (now : Timestamp) : Prop :=
  ∀ code row, urls db !! code = Some row → Urls.is_active row = true →
              Database.expired now row = false.

(** The URL passes the checks that [shorten_url] makes before it looks at
    the code. *)
Definition url_accepted (is_blacklisted check_dns_resolution check_url_active : string → bool)
    (validate : bool) (url : string) : Prop :=
  is_blacklisted url = false ∧
  (validate && config.CHECK_URL_ACTIVE = true →
   check_dns_resolution url = true ∧ check_url_active url = true).

(** A write to the store: one call of a mutating method of [Database]. *)
Inductive Mutation :=
| InsertUrl (ts : Timestamp) (short_code original_url : string) (custom : bool)
    (expires_at : option Timestamp) (notes tags : string)
| UpdateUrl (short_code : string) (original_url notes tags : option string)
    (expires_at : option Timestamp)
| DeleteUrl (short_code : string)
| HardDeleteUrl (short_code : string)
| RecordClick (ts : Timestamp) (short_code ip_address country city browser device : string)
    (response_time_ms : Q).

(** The store after the call. *)
Definition mutate (db : Database) (m : Mutation) : Database :=
  match m with
  | InsertUrl ts c u cu ex n t => (Database.insert_url ts c u cu ex n t db).2
  | UpdateUrl c ou n t e => (Database.update_url c ou n t e db).2
  | DeleteUrl c => (Database.delete_url c db).2
  | HardDeleteUrl c => (Database.hard_delete_url c db).2
  | RecordClick ts c ip co ci b d rt => (Database.record_click ts c ip co ci b d rt db).2
  end.

(** The store after a sequence of calls. *)
Definition mutate_all (db : Database) (ms : list Mutation) : Database :=
  foldl mutate db ms.

(** Row ids come from the [AUTOINCREMENT] counter: none exceeds it, and no
    two rows share one. *)
Definition ids_distinct (db : Database) : Prop :=
  map_Forall (λ _ r, (Urls.id r ≤ urls_seq db)%nat) (urls db) ∧
  ∀ k1 k2 r1 r2, urls db !! k1 = Some r1 → urls db !! k2 = Some r2 →
                 Urls.id r1 = Urls.id r2 → k1 = k2.

(** The expiration that [shorten_url] stores for [expires_days]: none when
    the argument is [None] or 0, else [now] plus that many days. *)
Definition expiration (now : Timestamp) (expires_days : option Z) : option Timestamp :=
  match expires_days with
  | Some d => if d =? 0 then None else Some (now + d * DAY)
  | None => None
  end.

(** The rows of a listing that a sweep finds expired, with the clock
    reading [now i] at the row of index [i]. *)
Fixpoint found_expired (now : nat → Timestamp) (i : nat) (rows : list Urls.row)
    : list Urls.row :=
  match rows with
  | [] => []
  | r :: rest =>
      if Database.expired (now i) r then r :: found_expired now (S i) rest
      else found_expired now (S i) rest
  end.

(** [text] contains [term], up to the case of ASCII letters. *)
Definition contains_term (term text : string) : Prop :=
  ∃ before found after,
    text = before +:+ found +:+ after ∧
    String.length found = String.length term ∧
    ∀ i, Database.like_fold <$> String.get i found
         = Database.like_fold <$> String.get i term.

(** The term has none of the wildcard characters of [LIKE]. *)
Definition plain_term (term : string) : Prop :=
  Str.contains_char "%" term = false ∧ Str.contains_char "_" term = false.

(** A call on the server manager; [Start] carries whether the address can
    be bound and whether the thread can be started. *)
Inductive ServerCall :=
| Start (bind_ok thread_ok : bool)
| Stop.

Definition server_call (s : URLServer) (call : ServerCall) : URLServer :=
  match call with
  | Start bind_ok thread_ok => (URLServer.start bind_ok thread_ok s).2
  | Stop => URLServer.stop s
  end.

(** The lines of a response head as the client reads them: the texts
    between its CR LF pairs, as [head.split('\r\n')] gives them. *)
Fixpoint lines (head : string) : list string :=
  match head with
  | EmptyString => [EmptyString]
  | String a rest =>
      match rest with
      | String b rest' =>
          if Ascii.eqb a BaseHTTPRequestHandler.CR && Ascii.eqb b BaseHTTPRequestHandler.LF
          then EmptyString :: lines rest'
          else match lines rest with
               | line :: more => String a line :: more
               | [] => [String a EmptyString]
               end
      | EmptyString => [String a EmptyString]
      end
  end.

(** The text has no CR and no LF character. *)
Definition one_line (text : string) : Prop :=
  Str.contains_char BaseHTTPRequestHandler.CR text = false ∧
  Str.contains_char BaseHTTPRequestHandler.LF text = false.

(** The code of a click event has an active row. *)
Definition has_active_link (db : Database) (e : Clicks.row) : bool :=
  match urls db !! Clicks.short_code e with
  | Some r => Urls.is_active r
  | None => false
  end.

(** The count that a [Counter], as its list of entries, holds for a key. *)
Definition counted (key : string) (counter : list (string * nat)) : nat :=
  sum_list (filter (λ kn, kn.1 = key) counter).*2.

(** * Sample states and requests *)

Definition url_page : string := "https://example.com/page".

(** URL checks that accept every URL. *)
Definition validate_ok (url : string) : Validation :=
  {| valid := true; validation_text := "URL is valid" |}.
Definition not_blacklisted (url : string) : bool := false.
Definition reachable (url : string) : bool := true.

(** External lookups that are unavailable. *)
Definition geo_unavailable (ip : string) : option GeoInfo := None.
Definition ua_unavailable (ua : string) : option UaInfo := None.

(** A random source that always draws index 0: every code is [aaaaaa]. *)
Definition rng_zero : Rng := λ _, 0%nat.

Definition create (now : Timestamp) (url : string) (custom_code : option string)
    (expires_days : option Z) : DB (option ShortenResult) :=
  URLShortener.shorten_url validate_ok not_blacklisted reachable reachable
    8 rng_zero now now url custom_code expires_days "" "" true.

(** The store after [shorten_url(url_page, custom_code="abc")] at time 0. *)
Definition db_abc : Database := (create 0 url_page (Some "abc") None Database.init).2.

Definition row_abc : Urls.row :=
  {| Urls.id := 1; Urls.short_code := "abc"; Urls.original_url := url_page;
     Urls.custom := true; Urls.created_at := 0; Urls.expires_at := None;
     Urls.is_active := true; Urls.notes := ""; Urls.tags := "";
     Urls.password := None |}.

(** The same link created with [expires_days = -1]. *)
Definition db_abc_expired : Database :=
  (create 0 url_page (Some "abc") (Some (-1)) Database.init).2.

Definition row_abc_expired : Urls.row :=
  {| Urls.id := 1; Urls.short_code := "abc"; Urls.original_url := url_page;
     Urls.custom := true; Urls.created_at := 0; Urls.expires_at := Some (- DAY);
     Urls.is_active := true; Urls.notes := ""; Urls.tags := "";
     Urls.password := None |}.

(** The link [abc] after a soft delete. *)
Definition db_abc_deleted : Database := (Database.delete_url "abc" db_abc).2.

(** The store after a generated code was stored: the code is [aaaaaa]. *)
Definition db_generated : Database := (create 0 url_page None None Database.init).2.

(** A random source that draws [aaaaaa] in the first round and [ghijkl] in
    the second. *)
Definition rng_retry : Rng := λ i, if (i <? 6)%nat then 0%nat else i.

(** The words of [n] characters over an alphabet. *)
Fixpoint prepend_each (alphabet : string) (tails : list string) : list string :=
  match alphabet with
  | EmptyString => []
  | String ch rest => (String ch <$> tails) ++ prepend_each rest tails
  end.

Fixpoint words_of_length (alphabet : string) (n : nat) : list string :=
  match n with
  | O => [""]
  | S n' => prepend_each alphabet (words_of_length alphabet n')
  end.

(** The code space of the generator, all of its codes. *)
Definition code_space : list string :=
  words_of_length config.SHORT_CODE_CHARS config.SHORT_CODE_LENGTH.

(** The saturated registry: a fresh database into which a link without
    expiration was inserted under every code of the code space. *)
Definition db_saturated : Database :=
  mutate_all Database.init ((λ c, InsertUrl 0 c url_page false None "" "") <$> code_space).

(** A URL with a CR LF pair in it, and the store after
    [shorten_url(url_split, custom_code="abc", validate=False)] at time 0. *)
Definition url_split : string :=
  "https://example.com/" +:+ BaseHTTPRequestHandler.CRLF +:+ "Set-Cookie: x=1".

Definition db_split : Database :=
  (URLShortener.shorten_url validate_ok not_blacklisted reachable reachable
     8 rng_zero 0 0 url_split (Some "abc") None "" "" false Database.init).2.

Definition req_abc : Request :=
  {| path := "/abc"; client_address := "127.0.0.1"; user_agent := Some "curl/8.0" |}.

Definition clock_1 : Clock :=
  {| datetime_now := 1; current_timestamp := 1; elapsed_ms := 2 # 1 |}.

(** The store after [GET /abc] was served once on [db_abc]. *)
Definition db_abc_clicked : Database :=
  (URLRedirectHandler.do_GET geo_unavailable ua_unavailable req_abc clock_1 db_abc).2.

(** * Properties *)

(** ** The store *)

Lemma set_urls_same db : set_urls (urls db) db = db.
Proof. by destruct db. Qed.

Lemma alter_absent {A} (f : A → A) (m : gmap string A) k :
  m !! k = None → alter f k m = m.
Proof.
  intros Hk. apply map_eq. intros j. rewrite lookup_alter.
  case_decide; subst; by rewrite ?Hk.
Qed.

Lemma expired_false now row :
  Database.expired now row = false ↔ ∀ t, Urls.expires_at row = Some t → now ≤ t.
Proof.
  unfold Database.expired. destruct (Urls.expires_at row) as [t|].
  - rewrite Z.ltb_ge. split; [intros H t' [= <-]; lia | intros H; by apply H].
  - split; [intros _ t' [=] | done].
Qed.

Lemma expired_true now row :
  Database.expired now row = true ↔ ∃ t, Urls.expires_at row = Some t ∧ t < now.
Proof.
  unfold Database.expired. destruct (Urls.expires_at row) as [t|].
  - rewrite Z.ltb_lt. split; [eauto | by intros (t' & [= <-] & ?)].
  - split; [done | by intros (t' & [=] & ?)].
Qed.

Lemma get_url_pure now c db : (Database.get_url now c db).2 = db.
Proof.
  unfold Database.get_url, try_sql. destruct (conn_ok db); [|done].
  destruct (urls db !! c) as [row|]; [|done].
  destruct (Urls.is_active row); [|done]. by destruct (Database.expired now row).
Qed.

Lemma get_url_Some now c db row :
  (Database.get_url now c db).1 = Some row ↔ conn_ok db = true ∧ resolves db now c row.
Proof.
  unfold Database.get_url, try_sql, resolves.
  destruct (conn_ok db); [|split; [done | by intros [? _]]].
  destruct (urls db !! c) as [r|] eqn:Hc; [|split; [done | by intros (_ & ? & _)]].
  destruct (Urls.is_active r) eqn:Ha.
  - destruct (Database.expired now r) eqn:He; simpl.
    + split; [done|]. intros (_ & [= <-] & _ & Hx).
      apply expired_false in Hx. congruence.
    + split.
      * intros [= <-]. by rewrite <-expired_false.
      * by intros (_ & [= <-] & _).
  - simpl. split; [done|]. intros (_ & [= <-] & ? & _). congruence.
Qed.

Lemma get_url_None now c db :
  (Database.get_url now c db).1 = None ↔
  conn_ok db = false ∨ ∀ row, ¬ resolves db now c row.
Proof.
  destruct ((Database.get_url now c db).1) as [row|] eqn:Hg.
  - apply get_url_Some in Hg as [Hok Hr]. split; [done|].
    intros [?|Hn]; [congruence | by destruct (Hn row)].
  - split; [|done]. intros _.
    destruct (conn_ok db) eqn:Hok; [right | by left].
    intros row Hr. assert ((Database.get_url now c db).1 = Some row) as Hs
      by (by apply get_url_Some). congruence.
Qed.

Lemma get_url_eq now c db :
  Database.get_url now c db = ((Database.get_url now c db).1, db).
Proof. rewrite <-(get_url_pure now c db) at 3. by destruct (Database.get_url now c db). Qed.

(** ** C2: lookup *)

(** C2. On a working connection, [get_url] returns nothing exactly when no
    row has the code, or the row is inactive, or its [expires_at] is set and
    lies before the time of the call; and the call leaves the store as it
    was, so an expired row keeps its [is_active] flag. *)
Theorem C2_lookup_none_iff (db : Database) (now : Timestamp) (c : string) :
  conn_ok db = true →
  ((Database.get_url now c db).1 = None ↔
     urls db !! c = None ∨
     ∃ row, urls db !! c = Some row ∧
            (Urls.is_active row = false ∨
             ∃ t, Urls.expires_at row = Some t ∧ t < now))
  ∧ (Database.get_url now c db).2 = db
  ∧ (∀ row t, urls db !! c = Some row → Urls.is_active row = true →
       Urls.expires_at row = Some t → t < now →
       (Database.get_url now c db).1 = None ∧
       ∃ row', urls (Database.get_url now c db).2 !! c = Some row' ∧
               Urls.is_active row' = true).
Proof.
  intros Hok. split; [|split].
  - unfold Database.get_url, try_sql. rewrite Hok.
    destruct (urls db !! c) as [r|] eqn:Hc; simpl.
    + destruct (Urls.is_active r) eqn:Ha; simpl.
      * destruct (Database.expired now r) eqn:He; simpl.
        -- split; [|done]. intros _. right. exists r. split; [done|]. right.
           by apply expired_true.
        -- split; [done|]. intros [?|(r' & [= <-] & [?|Hx])]; try congruence.
           apply expired_true in Hx. congruence.
      * split; [|done]. intros _. right. eauto.
    + split; [by left | done].
  - apply get_url_pure.
  - intros row t Hc Ha He Hlt. rewrite get_url_pure. split; [|eauto].
    apply get_url_None. right. intros r (Hr & _ & Hx).
    rewrite Hc in Hr. injection Hr as <-. specialize (Hx t He). lia.
Qed.

(** ** C3 and C10: what the boolean results report *)

Lemma update_url_result c ou n t e db :
  (Database.update_url c ou n t e db).1 =
  conn_ok db && (Database.supplied ou || Database.supplied n || Database.supplied t || Database.supplied e).
Proof.
  unfold Database.update_url, try_sql.
  destruct (conn_ok db); [|done]. simpl.
  by destruct (Database.supplied ou || Database.supplied n
               || Database.supplied t || Database.supplied e).
Qed.

Lemma update_url_absent c ou n t e db :
  urls db !! c = None → (Database.update_url c ou n t e db).2 = db.
Proof.
  intros Hc. unfold Database.update_url, try_sql.
  destruct (conn_ok db); [|done].
  destruct (negb _); [done|]. simpl. rewrite alter_absent by done.
  apply set_urls_same.
Qed.

(** C3, as the code has it. For a code with no row, [update_url] leaves the
    store unchanged, and its result is true exactly when the connection
    works and at least one field is supplied: the result does not tell
    whether the code exists. *)
Theorem C3_update_missing_code (db : Database) (c : string)
    (original_url notes tags : option string) (expires_at : option Timestamp) :
  urls db !! c = None →
  (URLShortener.update_url c original_url notes tags expires_at db).2 = db ∧
  (URLShortener.update_url c original_url notes tags expires_at db).1 =
    conn_ok db && (Database.supplied original_url || Database.supplied notes
                   || Database.supplied tags || Database.supplied expires_at).
Proof.
  intros Hc. unfold URLShortener.update_url.
  split; [by apply update_url_absent | apply update_url_result].
Qed.

(** C10. [delete_url] and [hard_delete_url] return true exactly when the
    connection works, for every code, whether or not a row has it. *)
Theorem C10_delete_reports_storage_only (db : Database) (c : string) :
  (Database.delete_url c db).1 = conn_ok db ∧
  (Database.hard_delete_url c db).1 = conn_ok db ∧
  (∀ permanent, (URLShortener.delete_url c permanent db).1 = conn_ok db).
Proof.
  assert ((Database.delete_url c db).1 = conn_ok db) as H1
    by (unfold Database.delete_url, try_sql; by destruct (conn_ok db)).
  assert ((Database.hard_delete_url c db).1 = conn_ok db) as H2
    by (unfold Database.hard_delete_url, try_sql; by destruct (conn_ok db)).
  split_and!; [done..|]. by intros [].
Qed.

(** Deleting a code that no row has, softly or for good, changes nothing
    in the table [urls]. *)
Lemma delete_absent_urls c permanent db :
  urls db !! c = None → urls (URLShortener.delete_url c permanent db).2 = urls db.
Proof.
  intros Hc. destruct permanent; simpl.
  - unfold Database.hard_delete_url, try_sql. destruct (conn_ok db); [|done].
    simpl. by apply delete_id.
  - unfold Database.delete_url, try_sql. destruct (conn_ok db); [|done].
    simpl. by apply alter_absent.
Qed.

(** ** Paths of alphanumeric codes *)

Lemma all_chars_no_char (f : ascii → bool) (ch : ascii) (s : string) :
  f ch = false → Str.all_chars f s = true → Str.contains_char ch s = false.
Proof.
  intros Hch. induction s as [|a s IH]; simpl; [done|].
  intros [Ha Hs]%andb_prop. rewrite IH by done.
  destruct (Ascii.eqb a ch) eqn:E; [|done].
  apply Ascii.eqb_eq in E. congruence.
Qed.

Lemma startswith_all_chars (f : ascii → bool) (p s : string) :
  Str.startswith p s = true → Str.all_chars f s = true → Str.all_chars f p = true.
Proof.
  revert s. induction p as [|a p IH]; intros [|b s]; simpl; try done.
  intros [E Hp]%andb_prop [Hb Hs]%andb_prop.
  apply Ascii.eqb_eq in E as ->. rewrite Hb. simpl. by apply (IH s).
Qed.

Lemma isalnum_all_chars (c : string) :
  Str.isalnum c = true → Str.all_chars Str.isalnum_char c = true.
Proof. by destruct c. Qed.

Lemma parse_path_alnum (c : string) :
  Str.isalnum c = true → URLRedirectHandler.parse_path ("/" +:+ c) = c.
Proof.
  intros Hc. unfold URLRedirectHandler.parse_path.
  change (Str.lstrip_slash ("/" +:+ c)) with (Str.lstrip_slash c).
  assert (Str.lstrip_slash c = c) as ->.
  { destruct c as [|a s]; [done|]. simpl in *.
    destruct (Ascii.eqb a "/") eqn:E; [|done].
    apply Ascii.eqb_eq in E as ->. done. }
  by rewrite (all_chars_no_char Str.isalnum_char) by auto using isalnum_all_chars.
Qed.

Lemma alnum_not_home (c : string) :
  Str.isalnum c = true → String.eqb c "" || String.eqb c "index.html" = false.
Proof.
  intros Hc. destruct (String.eqb c "") eqn:E1.
  { apply String.eqb_eq in E1 as ->. done. }
  destruct (String.eqb c "index.html") eqn:E2; [|done].
  apply String.eqb_eq in E2 as ->. done.
Qed.

Lemma alnum_not_api (c : string) :
  Str.isalnum c = true → Str.startswith "api/" c = false.
Proof.
  intros Hc%isalnum_all_chars. destruct (Str.startswith "api/" c) eqn:E; [|done].
  by apply (startswith_all_chars Str.isalnum_char) in E.
Qed.

(** ** The redirect handler *)

Section redirect.

Variable get_ip_info : string → option GeoInfo.
Variable parse_user_agent : string → option UaInfo.

Local Abbreviation handle_redirect :=
  (URLRedirectHandler.handle_redirect get_ip_info parse_user_agent).
Local Abbreviation do_GET := (URLRedirectHandler.do_GET get_ip_info parse_user_agent).

Lemma get_statistics_pure db : (Database.get_statistics db).2 = db.
Proof. unfold Database.get_statistics, try_sql. by destruct (conn_ok db). Qed.

Lemma handle_api_pure p db : (URLRedirectHandler.handle_api p db).2 = db.
Proof.
  unfold URLRedirectHandler.handle_api.
  destruct (String.eqb _ _); [|done]. unfold bind, ret.
  pose proof (get_statistics_pure db) as H.
  by destruct (Database.get_statistics db).
Qed.

Lemma handle_redirect_not_found req clk c db :
  (Database.get_url (datetime_now clk) c db).1 = None →
  handle_redirect req clk c db = (send_error 404 config.ERROR_MESSAGES.not_found, db).
Proof.
  intros Hg. unfold URLRedirectHandler.handle_redirect, bind.
  rewrite get_url_eq, Hg. done.
Qed.

Lemma handle_redirect_found req clk c db row :
  conn_ok db = true →
  resolves db (datetime_now clk) c row →
  ∃ e db',
    handle_redirect req clk c db =
      ({| status := 301; headers := [("Location", Urls.original_url row)];
          body := NoBody |}, db') ∧
    clicks db' = clicks db ++ [e] ∧ Clicks.short_code e = c ∧
    urls db' = urls db ∧ conn_ok db' = true.
Proof.
  intros Hok Hr.
  assert ((Database.get_url (datetime_now clk) c db).1 = Some row) as Hg
    by (by apply get_url_Some).
  unfold URLRedirectHandler.handle_redirect, bind.
  rewrite get_url_eq, Hg.
  destruct (if config.TRACK_LOCATION then _ else _) as [country city].
  destruct (if config.TRACK_BROWSER then _ else _) as [browser device].
  unfold Database.record_click, try_sql, ret. rewrite Hok.
  eexists _, _. split; [done|]. done.
Qed.

(** C6. When the code of the request resolves to no active, unexpired
    link, the redirect handler answers 404 and leaves the whole store,
    the ledger included, as it was. This holds for [handle_redirect] on
    every code and for [do_GET] on every path that is neither the home
    page nor under [api/]; no path whose code does not resolve changes
    the ledger. *)
Theorem C6_unresolved_404_no_click (req : Request) (clk : Clock) (db : Database)
    (c : string) :
  (∀ row, ¬ resolves db (datetime_now clk) c row) →
  handle_redirect req clk c db
    = (send_error 404 config.ERROR_MESSAGES.not_found, db) ∧
  (URLRedirectHandler.parse_path (path req) = c →
     (do_GET req clk db).2 = db ∧
     clicks (do_GET req clk db).2 = clicks db ∧
     (String.eqb c "" || String.eqb c "index.html" = false →
      Str.startswith "api/" c = false →
      status (do_GET req clk db).1 = 404%nat)).
Proof.
  intros Hn.
  assert (handle_redirect req clk c db
          = (send_error 404 config.ERROR_MESSAGES.not_found, db)) as Hh.
  { apply handle_redirect_not_found, get_url_None. by right. }
  split; [done|]. intros Hp.
  unfold URLRedirectHandler.do_GET. rewrite Hp.
  destruct (String.eqb c "" || String.eqb c "index.html") eqn:E1.
  { split_and!; [done..|]. done. }
  destruct (Str.startswith "api/" c) eqn:E2.
  { rewrite handle_api_pure. split_and!; [done..|]. done. }
  rewrite Hh. done.
Qed.

(** *** The head of the redirect on the wire *)

Lemma string_app_assoc (a b c : string) : (a +:+ b) +:+ c = a +:+ b +:+ c.
Proof.
  induction a as [|ch a IH]; [done|].
  change (String ch ((a +:+ b) +:+ c) = String ch (a +:+ b +:+ c)). by rewrite IH.
Qed.

Lemma lines_cons_other (ch : ascii) (rest : string) :
  Ascii.eqb ch BaseHTTPRequestHandler.CR = false →
  lines (String ch rest) =
  match lines rest with
  | line :: more => String ch line :: more
  | [] => [String ch EmptyString]
  end.
Proof. intros H. destruct rest; simpl; by rewrite ?H. Qed.

(** A text without CR, followed by CR LF, is one line. *)
Lemma lines_line (a b : string) :
  Str.contains_char BaseHTTPRequestHandler.CR a = false →
  lines (a +:+ BaseHTTPRequestHandler.CRLF +:+ b) = a :: lines b.
Proof.
  induction a as [|ch a IH]; intros Ha.
  - done.
  - simpl in Ha. apply orb_false_elim in Ha as [Hch Ha].
    change (String ch a +:+ BaseHTTPRequestHandler.CRLF +:+ b)
      with (String ch (a +:+ BaseHTTPRequestHandler.CRLF +:+ b)).
    rewrite lines_cons_other by done. by rewrite IH.
Qed.

Lemma lines_send_header (request_version keyword value rest : string) :
  String.eqb request_version "HTTP/0.9" = false →
  Str.contains_char BaseHTTPRequestHandler.CR (keyword +:+ ": " +:+ value) = false →
  lines (BaseHTTPRequestHandler.send_header request_version keyword value +:+ rest)
  = (keyword +:+ ": " +:+ value) :: lines rest.
Proof.
  intros Hv Hcr. unfold BaseHTTPRequestHandler.send_header. rewrite Hv.
  rewrite <-(lines_line _ rest) by done. apply (f_equal lines).
  by rewrite !string_app_assoc.
Qed.

(** X26. On a working connection, for a stored link with an alphanumeric
    code [c] that is active and unexpired, [GET /c] makes the handler store
    exactly one click event, which references [c], and call
    [send_response(301)] and [send_header('Location', u)] with the link's
    [original_url]. When the request names its HTTP version and the URL
    has no CR and no LF character, the head that reaches the client
    consists of the status line [HTTP/1.0 301 Moved Permanently], the
    library's [Server] and [Date] lines, and the line [Location: ] followed
    by the URL as it is stored. *)
Theorem redirect_served (req : Request) (clk : Clock) (db : Database)
    (c : string) (row : Urls.row)
    (request_version version_string date_time_string : string) :
  conn_ok db = true →
  urls db !! c = Some row →
  Urls.is_active row = true →
  (∀ t, Urls.expires_at row = Some t → datetime_now clk ≤ t) →
  Str.isalnum c = true →
  path req = "/" +:+ c →
  ∃ e db',
    do_GET req clk db =
      ({| status := 301; headers := [("Location", Urls.original_url row)];
          body := NoBody |}, db') ∧
    clicks db' = clicks db ++ [e] ∧ Clicks.short_code e = c ∧
    clicks_of c db' = clicks_of c db ++ [e] ∧
    (Database.get_click_count c db').1 = S (Database.get_click_count c db).1 ∧
    urls db' = urls db ∧
    (request_version ≠ "HTTP/0.9" →
     one_line version_string → one_line date_time_string →
     one_line (Urls.original_url row) →
     lines (BaseHTTPRequestHandler.response_head request_version version_string
              date_time_string (do_GET req clk db).1)
     = ["HTTP/1.0 301 Moved Permanently"; "Server: " +:+ version_string;
        "Date: " +:+ date_time_string; "Location: " +:+ Urls.original_url row;
        ""; ""]).
Proof.
  intros Hok Hc Ha He Hal Hp.
  destruct (handle_redirect_found req clk c db row Hok) as (e & db' & Hh & Hcl & Hec & Hu & Hok');
    [done|].
  exists e, db'. unfold URLRedirectHandler.do_GET.
  rewrite Hp, parse_path_alnum, alnum_not_home, alnum_not_api by done.
  rewrite Hh.
  assert (clicks_of c db' = clicks_of c db ++ [e]) as Hof.
  { unfold clicks_of. rewrite Hcl, filter_app. f_equal.
    rewrite filter_cons, decide_True by done. done. }
  split_and!; try done.
  - unfold Database.get_click_count, try_sql. rewrite Hok, Hok'. simpl.
    fold (clicks_of c db') (clicks_of c db). rewrite Hof, length_app. simpl. lia.
  - intros Hv%String.eqb_neq [Hs _] [Hd _] [Hl _].
    unfold BaseHTTPRequestHandler.response_head, BaseHTTPRequestHandler.send_response.
    cbn [fst snd status headers foldr].
    assert (BaseHTTPRequestHandler.send_response_only request_version 301
            = "HTTP/1.0 301 Moved Permanently" +:+ BaseHTTPRequestHandler.CRLF) as ->.
    { unfold BaseHTTPRequestHandler.send_response_only. rewrite Hv. vm_compute. reflexivity. }
    assert (BaseHTTPRequestHandler.end_headers request_version
            = "" +:+ BaseHTTPRequestHandler.CRLF +:+ "") as ->.
    { unfold BaseHTTPRequestHandler.end_headers. by rewrite Hv. }
    rewrite !string_app_assoc.
    rewrite lines_line by reflexivity.
    rewrite lines_send_header by first [exact Hv | exact Hs].
    rewrite lines_send_header by first [exact Hv | exact Hd].
    rewrite lines_send_header by first [exact Hv | exact Hl].
    rewrite lines_line by reflexivity. reflexivity.
Qed.

End redirect.

(** ** The index invariant *)

Lemma keyed_init : keyed Database.init.
Proof. unfold keyed. simpl. apply map_Forall_empty. Qed.

Lemma keyed_insert_url ts c u cu ex n t db :
  keyed db → keyed (Database.insert_url ts c u cu ex n t db).2.
Proof.
  intros Hk. unfold Database.insert_url, try_sql.
  destruct (conn_ok db); [|done]. destruct (urls db !! c) eqn:Hc; [done|].
  unfold keyed. simpl. by apply map_Forall_insert_2.
Qed.

Lemma keyed_alter (f : Urls.row → Urls.row) c db :
  (∀ r, Urls.short_code (f r) = Urls.short_code r) →
  keyed db → keyed (set_urls (alter f c (urls db)) db).
Proof.
  intros Hf Hk k r. simpl. rewrite lookup_alter.
  case_decide; [subst|by apply Hk].
  destruct (urls db !! k) as [r0|] eqn:Hc; [|done]. intros [= <-].
  rewrite Hf. by apply (Hk k).
Qed.

Lemma keyed_update_url c ou n t e db :
  keyed db → keyed (Database.update_url c ou n t e db).2.
Proof.
  intros Hk. unfold Database.update_url, try_sql.
  destruct (conn_ok db); [|done]. destruct (negb _); [done|].
  by apply keyed_alter.
Qed.

Lemma keyed_delete_url c db : keyed db → keyed (Database.delete_url c db).2.
Proof.
  intros Hk. unfold Database.delete_url, try_sql.
  destruct (conn_ok db); [|done]. by apply keyed_alter.
Qed.

Lemma keyed_hard_delete_url c db : keyed db → keyed (Database.hard_delete_url c db).2.
Proof.
  intros Hk. unfold Database.hard_delete_url, try_sql.
  destruct (conn_ok db); [|done]. unfold keyed. simpl. by apply map_Forall_delete.
Qed.

Lemma keyed_record_click ts c ip co ci b d rt db :
  keyed db → keyed (Database.record_click ts c ip co ci b d rt db).2.
Proof.
  intros Hk. unfold Database.record_click, try_sql. by destruct (conn_ok db).
Qed.

(** ** Listings *)

Lemma elem_of_get_all_urls include_inactive db r :
  r ∈ (Database.get_all_urls include_inactive db).1 ↔
  conn_ok db = true ∧ ∃ k, urls db !! k = Some r ∧
    (include_inactive = true ∨ Urls.is_active r = true).
Proof.
  unfold Database.get_all_urls, try_sql. destruct (conn_ok db); simpl.
  - rewrite merge_sort_Permutation. destruct include_inactive.
    + rewrite list_elem_of_fmap. split.
      * intros ([k r'] & -> & H%elem_of_map_to_list). eauto.
      * intros (_ & k & H & _). exists (k, r). by rewrite elem_of_map_to_list.
    + rewrite list_elem_of_filter, list_elem_of_fmap. split.
      * intros (Ha & [k r'] & -> & H%elem_of_map_to_list). eauto.
      * intros (_ & k & H & [?|Ha]); [done|]. split; [done|].
        exists (k, r). by rewrite elem_of_map_to_list.
  - rewrite elem_of_nil. split; [done | by intros [? _]].
Qed.

Lemma get_clicks_subset sc lim s e db x :
  x ∈ (Database.get_clicks sc lim s e db).1 → x ∈ clicks db.
Proof.
  unfold Database.get_clicks, try_sql. destruct (conn_ok db); simpl; [|by rewrite elem_of_nil].
  intros Hx.
  assert (x ∈ merge_sort Database.latest_first
            (filter (λ e0, Database.click_selected sc s e e0 = true) (clicks db))) as Hm.
  { destruct lim as [[|n]|]; try done. by eapply subseteq_take. }
  rewrite merge_sort_Permutation in Hm. by apply list_elem_of_filter in Hm as [_ ?].
Qed.

(** Without a limit and without dates, [get_clicks] for a code returns the
    events of that code, in some order. *)
Lemma get_clicks_of c db :
  conn_ok db = true → c ≠ "" →
  (Database.get_clicks (Some c) None None None db).1 ≡ₚ clicks_of c db.
Proof.
  intros Hok Hc. unfold Database.get_clicks, try_sql, clicks_of. rewrite Hok. simpl.
  rewrite merge_sort_Permutation.
  erewrite list_filter_iff; [done|]. intros x. unfold Database.click_selected.
  destruct c; [done|]. simpl. rewrite !andb_true_r. apply bool_decide_eq_true.
Qed.

(** ** C7: hard delete *)

(** C7. After a successful [hard_delete_url] of [c]: no row has code [c],
    none is listed even with the inactive rows included, no click event
    references [c], [get_click_count] is 0, and neither [get_url] nor
    [get_clicks] returns anything of [c]. *)
Theorem C7_hard_delete_cascade (db : Database) (c : string) :
  keyed db →
  (Database.hard_delete_url c db).1 = true →
  let db' := (Database.hard_delete_url c db).2 in
  urls db' !! c = None ∧
  (∀ r, r ∈ (Database.get_all_urls true db').1 → Urls.short_code r ≠ c) ∧
  (∀ e, e ∈ clicks db' → Clicks.short_code e ≠ c) ∧
  clicks_of c db' = [] ∧
  (Database.get_click_count c db').1 = 0%nat ∧
  (∀ now, (Database.get_url now c db').1 = None) ∧
  (∀ sc lim s e x, x ∈ (Database.get_clicks sc lim s e db').1 → Clicks.short_code x ≠ c).
Proof.
  intros Hk Hres db'.
  assert (conn_ok db = true) as Hok.
  { revert Hres. unfold Database.hard_delete_url, try_sql. by destruct (conn_ok db). }
  assert (urls db' = delete c (urls db)) as Hu.
  { unfold db', Database.hard_delete_url, try_sql. by rewrite Hok. }
  assert (clicks db' = filter (λ e, Clicks.short_code e ≠ c) (clicks db)) as Hcl.
  { unfold db', Database.hard_delete_url, try_sql. by rewrite Hok. }
  assert (∀ e, e ∈ clicks db' → Clicks.short_code e ≠ c) as Hno.
  { intros e. rewrite Hcl, list_elem_of_filter. by intros [? _]. }
  assert (clicks_of c db' = []) as Hof.
  { unfold clicks_of. apply elem_of_nil_inv. intros e.
    rewrite list_elem_of_filter. intros [? ?%Hno]. done. }
  split_and!.
  - rewrite Hu. apply lookup_delete_eq.
  - intros r (_ & k & Hr & _)%elem_of_get_all_urls.
    rewrite Hu in Hr. apply lookup_delete_Some in Hr as [Hne Hr].
    rewrite (Hk k r Hr). done.
  - done.
  - done.
  - unfold Database.get_click_count, try_sql. destruct (conn_ok db'); [|done].
    simpl. fold (clicks_of c db'). by rewrite Hof.
  - intros now. apply get_url_None. right. intros row (Hr & _).
    rewrite Hu, lookup_delete_eq in Hr. done.
  - intros sc lim s e x Hx%get_clicks_subset. by apply Hno.
Qed.

(** ** C8: soft delete *)

(** C8. After a successful [delete_url] of a code [c] that has a row:
    [get_url] returns nothing for [c]; the row is still stored under [c],
    with [is_active] cleared and every other column as it was, and the
    listing that includes inactive rows returns it; no other row changed;
    and the ledger is the same, so the count and every query of click
    events give what they gave. *)
Theorem C8_soft_delete_visibility (db : Database) (c : string) (row : Urls.row) :
  (Database.delete_url c db).1 = true →
  urls db !! c = Some row →
  let db' := (Database.delete_url c db).2 in
  let row' :=
    {| Urls.id := Urls.id row; Urls.short_code := Urls.short_code row;
       Urls.original_url := Urls.original_url row; Urls.custom := Urls.custom row;
       Urls.created_at := Urls.created_at row; Urls.expires_at := Urls.expires_at row;
       Urls.is_active := false;
       Urls.notes := Urls.notes row; Urls.tags := Urls.tags row;
       Urls.password := Urls.password row |} in
  (∀ now, (Database.get_url now c db').1 = None) ∧
  urls db' !! c = Some row' ∧
  row' ∈ (Database.get_all_urls true db').1 ∧
  (∀ k, k ≠ c → urls db' !! k = urls db !! k) ∧
  dom (urls db') = dom (urls db) ∧
  clicks db' = clicks db ∧
  clicks_of c db' = clicks_of c db ∧
  (Database.get_click_count c db').1 = (Database.get_click_count c db).1 ∧
  (∀ sc lim s e, (Database.get_clicks sc lim s e db').1 = (Database.get_clicks sc lim s e db).1).
Proof.
  intros Hres Hc db' row'.
  assert (conn_ok db = true) as Hok.
  { revert Hres. unfold Database.delete_url, try_sql. by destruct (conn_ok db). }
  assert (db' = set_urls (alter Database.deactivate c (urls db)) db) as Hdb.
  { unfold db', Database.delete_url, try_sql. by rewrite Hok. }
  assert (urls db' !! c = Some row') as Hc'.
  { rewrite Hdb. simpl. by rewrite lookup_alter_eq, Hc. }
  split_and!.
  - intros now. apply get_url_None. right. intros r (Hr & Ha & _).
    rewrite Hc' in Hr. by injection Hr as <-.
  - done.
  - apply elem_of_get_all_urls. split; [by rewrite Hdb|]. eauto.
  - intros k Hk. rewrite Hdb. simpl. by rewrite lookup_alter_ne.
  - rewrite Hdb. simpl. apply dom_alter_L.
  - by rewrite Hdb.
  - by rewrite Hdb.
  - rewrite Hdb. unfold Database.get_click_count, try_sql. simpl.
    by destruct (conn_ok db).
  - intros sc lim s e. rewrite Hdb. unfold Database.get_clicks, try_sql. simpl.
    by destruct (conn_ok db).
Qed.

(** ** C9: aggregate statistics *)

Lemma filter_fmap_snd (P : Urls.row → Prop) `{∀ r, Decision (P r)}
    (l : list (string * Urls.row)) :
  filter P l.*2 = (filter (λ kr, P kr.2) l).*2.
Proof.
  induction l as [|[k r] l IH]; [done|].
  rewrite fmap_cons, !filter_cons. simpl.
  destruct (decide (P r)); rewrite ?fmap_cons; simpl; by rewrite IH.
Qed.

(** The number of rows that [get_statistics] counts is the number of codes
    that have an active row. *)
Lemma active_rows_count (m : gmap string Urls.row) (codes : list string) :
  NoDup codes →
  (∀ c, c ∈ codes ↔ ∃ r, m !! c = Some r ∧ Urls.is_active r = true) →
  length (filter (λ r, Urls.is_active r = true) (map_to_list m).*2) = length codes.
Proof.
  intros Hnd Hcodes. rewrite filter_fmap_snd, length_fmap.
  rewrite <-(length_fmap fst). apply Permutation_length, NoDup_Permutation.
  - eapply NoDup_fmap_fst.
    + intros k r1 r2 [_ H1%elem_of_map_to_list]%list_elem_of_filter
                     [_ H2%elem_of_map_to_list]%list_elem_of_filter. congruence.
    + apply NoDup_filter, NoDup_map_to_list.
  - done.
  - intros k. rewrite Hcodes, list_elem_of_fmap. split.
    + intros ([k' r] & -> & [Ha Hm%elem_of_map_to_list]%list_elem_of_filter). eauto.
    + intros (r & Hm & Ha). exists (k, r). split; [done|].
      apply list_elem_of_filter. by rewrite elem_of_map_to_list.
Qed.

(** C9. On a working connection, with [N] the number of codes that have an
    active row and [M] the number of click events, [get_statistics] returns
    [total_urls = N], [total_clicks = M] and [avg_clicks_per_url] equal to
    the quotient [M / N], which is 0 when [N = 0]. *)
Theorem C9_aggregate_stats (db : Database) (codes : list string) :
  conn_ok db = true →
  NoDup codes →
  (∀ c, c ∈ codes ↔ ∃ r, urls db !! c = Some r ∧ Urls.is_active r = true) →
  let N := length codes in
  let M := length (clicks db) in
  ∃ stats,
    Database.get_statistics db = (Some stats, db) ∧
    Database.total_urls stats = N ∧
    Database.total_clicks stats = M ∧
    (N ≠ 0%nat →
       (Database.avg_clicks_per_url stats * inject_Z (Z.of_nat N) == inject_Z (Z.of_nat M))%Q) ∧
    (N = 0%nat → Database.avg_clicks_per_url stats = 0%Q).
Proof.
  intros Hok Hnd Hcodes N M.
  unfold Database.get_statistics, try_sql. rewrite Hok.
  rewrite (active_rows_count (urls db) codes Hnd Hcodes). fold N M.
  eexists. split; [done|]. simpl. split_and!; [done..| |].
  - intros HN. clearbody N M.
    destruct (Nat.ltb_spec 0 N) as [_|?]; [|exfalso; lia].
    field. intros HQ. apply HN.
    unfold Qeq in HQ. simpl in HQ. lia.
  - intros ->. done.
Qed.

(** ** C4: the code generator *)

Lemma get_contains (p : string) (i : nat) (ch : ascii) :
  String.get i p = Some ch → Str.contains_char ch p = true.
Proof.
  revert i. induction p as [|a p IH]; intros [|i]; simpl; try done.
  - intros [= ->]. by rewrite Ascii.eqb_refl.
  - intros H%IH. rewrite H. apply orb_true_r.
Qed.

Lemma get_in_range (p : string) (i : nat) :
  (i < String.length p)%nat → is_Some (String.get i p).
Proof.
  revert i. induction p as [|a p IH]; intros [|i]; simpl; try lia; eauto.
  intros ?. apply IH. lia.
Qed.

Lemma choice_contains (p : string) (r : nat) :
  p ≠ "" → Str.contains_char (random.choice p r) p = true.
Proof.
  intros Hp. unfold random.choice.
  destruct (get_in_range p (r mod String.length p)) as [ch Hch].
  { apply Nat.mod_upper_bound. by destruct p. }
  rewrite Hch. simpl. by eapply get_contains.
Qed.

Lemma choices_length p k rng pos : String.length (random.choices p k rng pos) = k.
Proof. revert pos. induction k as [|k IH]; intros pos; simpl; by rewrite ?IH. Qed.

Lemma choices_all_chars (f : ascii → bool) p k rng pos :
  (∀ ch, Str.contains_char ch p = true → f ch = true) → p ≠ "" →
  Str.all_chars f (random.choices p k rng pos) = true.
Proof.
  intros Hf Hp. revert pos. induction k as [|k IH]; intros pos; simpl; [done|].
  rewrite IH, Hf; [done|]. by apply choice_contains.
Qed.

Lemma contains_all_chars (f : ascii → bool) p ch :
  Str.all_chars f p = true → Str.contains_char ch p = true → f ch = true.
Proof.
  induction p as [|a p IH]; simpl; [done|].
  intros [Ha Hp]%andb_prop [E|H]%orb_prop; [|by apply IH].
  apply Ascii.eqb_eq in E. congruence.
Qed.

Lemma drawn_in_code_space rng pos i : in_code_space (drawn rng pos i).
Proof.
  split; [apply choices_length|]. by apply choices_all_chars.
Qed.

Lemma drawn_isalnum rng pos i : Str.isalnum (drawn rng pos i) = true.
Proof.
  assert (Str.all_chars Str.isalnum_char (drawn rng pos i) = true) as H.
  { apply choices_all_chars; [|done]. intros ch. by apply contains_all_chars. }
  unfold Str.isalnum. destruct (drawn rng pos i) eqn:E; [|done].
  pose proof (choices_length config.SHORT_CODE_CHARS config.SHORT_CODE_LENGTH rng
                (pos + i * config.SHORT_CODE_LENGTH)) as Hl.
  fold (drawn rng pos i) in Hl. by rewrite E in Hl.
Qed.

Lemma drawn_shift rng pos i :
  drawn rng (pos + config.SHORT_CODE_LENGTH) i = drawn rng pos (S i).
Proof. unfold drawn. f_equal. lia. Qed.

Lemma generate_short_code_step fuel rng pos now db :
  URLShortener.generate_short_code (S fuel) rng pos now db =
  match (Database.get_url now (drawn rng pos 0) db).1 with
  | None => (Some (drawn rng pos 0), db)
  | Some _ => URLShortener.generate_short_code fuel rng (pos + config.SHORT_CODE_LENGTH) now db
  end.
Proof.
  unfold drawn. rewrite Nat.add_0_r. simpl. unfold bind at 1.
  rewrite get_url_eq. by destruct (Database.get_url _ _ _).1.
Qed.

(** While every drawn code resolves, the loop does not return. *)
Lemma generate_all_taken rng now db :
  ∀ fuel pos,
    (∀ i, (Database.get_url now (drawn rng pos i) db).1 ≠ None) →
    URLShortener.generate_short_code fuel rng pos now db = (None, db).
Proof.
  induction fuel as [|fuel IH]; intros pos Hall; [done|].
  rewrite generate_short_code_step.
  destruct (Database.get_url now (drawn rng pos 0) db).1 eqn:E; [|by destruct (Hall 0%nat)].
  apply IH. intros i. rewrite drawn_shift. apply Hall.
Qed.

(** The loop returns the first drawn code that does not resolve. *)
Lemma generate_first_free rng now db :
  ∀ n pos fuel,
    (n < fuel)%nat →
    (Database.get_url now (drawn rng pos n) db).1 = None →
    (∀ i, (i < n)%nat → (Database.get_url now (drawn rng pos i) db).1 ≠ None) →
    URLShortener.generate_short_code fuel rng pos now db = (Some (drawn rng pos n), db).
Proof.
  induction n as [|n IH]; intros pos [|fuel] Hlt Hfree Htaken; try lia;
    rewrite generate_short_code_step.
  - by rewrite Hfree.
  - destruct (Database.get_url now (drawn rng pos 0) db).1 eqn:E;
      [|destruct (Htaken 0%nat); [lia|done]].
    rewrite <-drawn_shift. apply IH; [lia|by rewrite drawn_shift|].
    intros i Hi. rewrite drawn_shift. apply Htaken. lia.
Qed.

(** What the loop returns is a drawn code that does not resolve. *)
Lemma generate_sound rng now db :
  ∀ fuel pos code db',
    URLShortener.generate_short_code fuel rng pos now db = (Some code, db') →
    db' = db ∧ ∃ n, (n < fuel)%nat ∧ code = drawn rng pos n ∧
      (Database.get_url now code db).1 = None.
Proof.
  induction fuel as [|fuel IH]; intros pos code db'; [done|].
  rewrite generate_short_code_step.
  destruct (Database.get_url now (drawn rng pos 0) db).1 eqn:E.
  - intros (-> & n & Hn & -> & Hfree)%IH. split; [done|].
    exists (S n). rewrite <-drawn_shift. split_and!; [lia|done..].
  - intros [= <- <-]. split; [done|]. exists 0%nat. split_and!; [lia|done..].
Qed.

(** On a saturated code space the loop returns for no random source and no
    number of rounds. *)
Lemma generate_saturated rng now db fuel :
  (∀ code, in_code_space code → (Database.get_url now code db).1 ≠ None) →
  URLShortener.generate_short_code fuel rng 0 now db = (None, db).
Proof.
  intros Hsat. apply generate_all_taken. intros i. apply Hsat, drawn_in_code_space.
Qed.

(** On a working connection where no active link has expired, [get_url]
    finds a code exactly when the code is present as an active link. *)
Lemma get_url_active_link now c db :
  conn_ok db = true → none_expired db now →
  (Database.get_url now c db).1 ≠ None ↔ active_link db c.
Proof.
  intros Hok Hne. unfold Database.get_url, try_sql, active_link. rewrite Hok.
  destruct (urls db !! c) as [row|] eqn:Hc; simpl.
  - destruct (Urls.is_active row) eqn:Ha.
    + rewrite (Hne c row Hc Ha). simpl. split; [eauto|done].
    + simpl. split; [done|]. intros (r & [= <-] & ?). congruence.
  - split; [done|]. by intros (r & [=] & _).
Qed.

(** C4, as the code has it. The loop has no retry bound and no exhaustion
    report. On a working connection where no active link has expired: what
    the loop returns is a code of the configured length over the configured
    alphabet that is not present as an active link, and the store is
    unchanged; it returns the first drawn code that is not present as an
    active link, as soon as the rounds reach it; and while every drawn code
    is present as an active link, as on a saturated code space, it does not
    return. *)
Theorem C4_generate_short_code (rng : Rng) (now : Timestamp) (db : Database) :
  conn_ok db = true →
  none_expired db now →
  (∀ fuel code db',
     URLShortener.generate_short_code fuel rng 0 now db = (Some code, db') →
     db' = db ∧ in_code_space code ∧ Str.isalnum code = true ∧
     ¬ active_link db code) ∧
  (∀ n fuel,
     (n < fuel)%nat →
     ¬ active_link db (drawn rng 0 n) →
     (∀ i, (i < n)%nat → active_link db (drawn rng 0 i)) →
     URLShortener.generate_short_code fuel rng 0 now db = (Some (drawn rng 0 n), db)) ∧
  ((∀ i, active_link db (drawn rng 0 i)) →
   ∀ fuel, URLShortener.generate_short_code fuel rng 0 now db = (None, db)).
Proof.
  intros Hok Hne.
  pose proof (λ c, get_url_active_link now c db Hok Hne) as Hiff.
  split_and!.
  - intros fuel code db' (-> & n & _ & -> & Hfree)%generate_sound.
    split_and!; [done|apply drawn_in_code_space|apply drawn_isalnum|].
    intros Hheld%Hiff. done.
  - intros n fuel Hn Hfree Htaken. apply generate_first_free; [done| |].
    + destruct (Database.get_url now (drawn rng 0 n) db).1 eqn:E; [|done].
      destruct Hfree. apply Hiff. by rewrite E.
    + intros i Hi. by apply Hiff, Htaken.
  - intros Hall fuel. apply generate_all_taken. intros i. apply Hiff, Hall.
Qed.

(** *** The saturated registry *)

Lemma prepend_each_elem (alphabet : string) (tails : list string) ch t :
  Str.contains_char ch alphabet = true → t ∈ tails →
  String ch t ∈ prepend_each alphabet tails.
Proof.
  intros Hch Ht. induction alphabet as [|a alphabet IH]; simpl in *; [done|].
  apply elem_of_app. apply orb_prop in Hch as [->%Ascii.eqb_eq|Hch].
  - left. apply list_elem_of_fmap. eauto.
  - right. by apply IH.
Qed.

Lemma words_of_length_elem (alphabet : string) (w : string) :
  Str.all_chars (λ ch, Str.contains_char ch alphabet) w = true →
  w ∈ words_of_length alphabet (String.length w).
Proof.
  induction w as [|ch w IH]; simpl.
  - intros _. apply list_elem_of_here.
  - intros [Hch Hw]%andb_prop. apply prepend_each_elem; [done|by apply IH].
Qed.

Lemma in_code_space_elem code : in_code_space code → code ∈ code_space.
Proof.
  intros [Hlen Hall]. unfold code_space. rewrite <-Hlen.
  by apply words_of_length_elem.
Qed.

(** Inserting links without expiration under the codes of a list leaves
    the connection working and every row active and without expiration, and
    every code of the list then has a row. *)
Lemma insert_all_active (l : list string) :
  ∀ db,
    conn_ok db = true →
    (∀ c r, urls db !! c = Some r → Urls.is_active r = true ∧ Urls.expires_at r = None) →
    let db' := mutate_all db ((λ c, InsertUrl 0 c url_page false None "" "") <$> l) in
    conn_ok db' = true ∧
    (∀ c r, urls db' !! c = Some r → Urls.is_active r = true ∧ Urls.expires_at r = None) ∧
    (∀ c, c ∈ l ∨ is_Some (urls db !! c) → is_Some (urls db' !! c)).
Proof.
  induction l as [|k l IH]; intros db Hok Hrows; simpl.
  - split_and!; [done..|]. intros c [?%elem_of_nil|?]; done.
  - set (db1 := (Database.insert_url 0 k url_page false None "" "" db).2).
    assert (conn_ok db1 = true ∧
            (∀ c r, urls db1 !! c = Some r →
                    Urls.is_active r = true ∧ Urls.expires_at r = None) ∧
            is_Some (urls db1 !! k) ∧
            (∀ c, is_Some (urls db !! c) → is_Some (urls db1 !! c))) as (Hok1 & Hrows1 & Hk & Hkeep).
    { unfold db1, Database.insert_url, try_sql. rewrite Hok.
      destruct (urls db !! k) as [r|] eqn:Hk; simpl.
      - split_and!; [done..|by rewrite Hk|done].
      - split_and!; [done| |by rewrite lookup_insert_eq|].
        + intros c r. destruct (decide (c = k)) as [->|Hc].
          * rewrite lookup_insert_eq. by intros [= <-].
          * rewrite lookup_insert_ne by done. apply Hrows.
        + intros c Hc. destruct (decide (c = k)) as [->|Hne].
          * by rewrite lookup_insert_eq.
          * by rewrite lookup_insert_ne. }
    destruct (IH db1 Hok1 Hrows1) as (Hok' & Hrows' & Hall).
    split_and!; [done..|].
    intros c [[->|Hc]%elem_of_cons|Hc]; apply Hall; eauto.
Qed.

(** Every code of the code space is present as an active link of the
    saturated registry, none of them with an expiration. *)
Lemma db_saturated_held :
  conn_ok db_saturated = true ∧
  (∀ now, none_expired db_saturated now) ∧
  (∀ code, in_code_space code → active_link db_saturated code).
Proof.
  assert (∀ c r, urls Database.init !! c = Some r →
                 Urls.is_active r = true ∧ Urls.expires_at r = None) as Hinit.
  { intros c r H. unfold Database.init in H. cbn [urls] in H.
    rewrite lookup_empty in H. discriminate H. }
  pose proof (insert_all_active code_space Database.init eq_refl Hinit) as H.
  cbv zeta in H. unfold db_saturated. destruct H as (Hok & Hrows & Hall).
  split; [exact Hok|]. split.
  - intros now c r Hc _. unfold Database.expired.
    destruct (Hrows c r Hc) as [_ Hex]. rewrite Hex. reflexivity.
  - intros code Hcode. destruct (Hall code) as [r Hr].
    { left. apply in_code_space_elem. exact Hcode. }
    exists r. split; [exact Hr|]. destruct (Hrows code r Hr) as [Hact _]. exact Hact.
Qed.

(** ** A custom code that is already held *)

Section create.

Variable validate_url : string → Validation.
Variable is_blacklisted : string → bool.
Variable check_dns_resolution : string → bool.
Variable check_url_active : string → bool.

Local Abbreviation shorten_url :=
  (URLShortener.shorten_url validate_url is_blacklisted check_dns_resolution
     check_url_active).

Local Abbreviation accepted :=
  (url_accepted is_blacklisted check_dns_resolution check_url_active).

Lemma shorten_url_rejected_or_checked fuel rng now ts url custom exp notes tags validate db :
  (∃ msg, shorten_url fuel rng now ts url custom exp notes tags validate db
            = (Some (URLShortener.failed msg), db) ∧ ¬ accepted validate url) ∨
  (accepted validate url ∧
   shorten_url fuel rng now ts url custom exp notes tags validate db =
   URLShortener.shorten_checked fuel rng now ts url custom exp notes tags db).
Proof.
  unfold URLShortener.shorten_url, url_accepted, URLShortener.dict_truthy.
  cbn [negb]. destruct (is_blacklisted url).
  { left. eexists. split; [done|]. by intros [? _]. }
  destruct (validate && config.CHECK_URL_ACTIVE); cbn [andb].
  - destruct (check_dns_resolution url); cbn [negb].
    + destruct (check_url_active url); cbn [negb].
      * right. done.
      * left. eexists. split; [done|]. intros [_ H]. by destruct H.
    + left. eexists. split; [done|]. intros [_ H]. by destruct H.
  - right. done.
Qed.

(** With a custom code that some row has, the part after the URL checks
    fails and changes nothing. *)
Lemma shorten_checked_held fuel rng now ts url k exp notes tags db row :
  urls db !! k = Some row → k ≠ "" →
  ∃ msg,
    URLShortener.shorten_checked fuel rng now ts url (Some k) exp notes tags db
      = (Some (URLShortener.failed msg), db) ∧
    (conn_ok db = true → Urls.is_active row = true →
     (∀ t, Urls.expires_at row = Some t → now ≤ t) →
     (String.length k ≤ config.MAX_CUSTOM_LENGTH)%nat → Str.isalnum k = true →
     msg = config.ERROR_MESSAGES.custom_taken).
Proof.
  intros Hk Hne. unfold URLShortener.shorten_checked.
  destruct k as [|ch rest]; [done|]. set (k := String ch rest) in *.
  destruct (config.MAX_CUSTOM_LENGTH <? String.length k)%nat eqn:Hlen.
  { eexists. split; [done|]. intros _ _ _ Hl. apply Nat.ltb_lt in Hlen. lia. }
  destruct (Str.isalnum k) eqn:Hal; simpl.
  2:{ eexists. split; [done|]. by intros _ _ _ _ ?. }
  unfold bind at 1. rewrite get_url_eq.
  destruct (Database.get_url now k db).1 as [r|] eqn:Hg.
  { eexists. split; [done|]. done. }
  unfold bind, Database.insert_url, try_sql.
  destruct (conn_ok db) eqn:Hok.
  - rewrite Hk. eexists. split; [done|]. intros _ Ha Hx _ _.
    assert ((Database.get_url now k db).1 = Some row) as Hs
      by (by apply get_url_Some). congruence.
  - eexists. split; [done|]. done.
Qed.

(** What a successful [shorten_url] with a custom code did. *)
Lemma shorten_checked_custom_success fuel rng now ts url k exp notes tags db res db1 :
  k ≠ "" →
  URLShortener.shorten_checked fuel rng now ts url (Some k) exp notes tags db
    = (Some res, db1) →
  success res = true →
  ∃ row,
    urls db1 !! k = Some row ∧ conn_ok db1 = true ∧ Urls.is_active row = true ∧
    Urls.original_url row = url ∧
    Urls.expires_at row =
      match exp with
      | Some d => if d =? 0 then None else Some (now + d * DAY)
      | None => None
      end ∧
    (String.length k ≤ config.MAX_CUSTOM_LENGTH)%nat ∧ Str.isalnum k = true.
Proof.
  intros Hne. unfold URLShortener.shorten_checked.
  destruct k as [|ch rest]; [done|]. set (k := String ch rest) in *.
  destruct (config.MAX_CUSTOM_LENGTH <? String.length k)%nat eqn:Hlen.
  { by intros [= <- <-]. }
  destruct (Str.isalnum k) eqn:Hal; simpl; [|by intros [= <- <-]].
  unfold bind at 1. rewrite get_url_eq.
  destruct (Database.get_url now k db).1 as [r|] eqn:Hg; [by intros [= <- <-]|].
  unfold bind, Database.insert_url, try_sql.
  destruct (conn_ok db) eqn:Hok; [|by intros [= <- <-]].
  destruct (urls db !! k) eqn:Hk; [by intros [= <- <-]|].
  intros [= <- <-] _. eexists. simpl. rewrite lookup_insert_eq.
  split_and!; try done. apply Nat.ltb_ge in Hlen. exact Hlen.
Qed.

(** Twice in a row: after [shorten_url] has stored a custom code, a second
    call with the same code, made before the first link expires, fails with
    [custom_taken] and changes nothing. *)
Lemma shorten_url_custom_twice fuel rng now1 ts1 url1 k exp1 notes1 tags1 validate1
    fuel2 rng2 now2 ts2 url2 exp2 notes2 tags2 validate2 db res1 db1 :
  k ≠ "" →
  shorten_url fuel rng now1 ts1 url1 (Some k) exp1 notes1 tags1 validate1 db
    = (Some res1, db1) →
  success res1 = true →
  (∀ d, exp1 = Some d → now2 ≤ now1 + d * DAY) →
  accepted validate2 url2 →
  shorten_url fuel2 rng2 now2 ts2 url2 (Some k) exp2 notes2 tags2 validate2 db1
    = (Some (URLShortener.failed config.ERROR_MESSAGES.custom_taken), db1).
Proof.
  intros Hne H1 Hs Hexp Hacc.
  assert (∃ row, urls db1 !! k = Some row ∧ conn_ok db1 = true ∧
            Urls.is_active row = true ∧
            (∀ t, Urls.expires_at row = Some t → now2 ≤ t) ∧
            (String.length k ≤ config.MAX_CUSTOM_LENGTH)%nat ∧ Str.isalnum k = true)
    as (row & Hk & Hok & Ha & Hx & Hl & Hal).
  { destruct (shorten_url_rejected_or_checked fuel rng now1 ts1 url1 (Some k) exp1 notes1
                tags1 validate1 db) as [(m & Hm & _)|[_ Hm]]; rewrite Hm in H1.
    { injection H1 as <- <-. done. }
    apply shorten_checked_custom_success in H1
      as (row & ? & ? & ? & _ & He & ? & ?); [|done..].
    exists row. split_and!; try done. intros t. rewrite He.
    destruct exp1 as [d|]; [|done]. destruct (d =? 0); [done|].
    intros [= <-]. by apply Hexp. }
  destruct (shorten_url_rejected_or_checked fuel2 rng2 now2 ts2 url2 (Some k) exp2 notes2
              tags2 validate2 db1) as [(m & _ & Hrej)|[_ ->]]; [done|].
  destruct (shorten_checked_held fuel2 rng2 now2 ts2 url2 k exp2 notes2 tags2 db1 row Hk Hne)
    as (msg & -> & Hmsg).
  by rewrite Hmsg.
Qed.

(** Every store change of [shorten_url] is the insert of one row under a
    fresh alphanumeric code. *)
Lemma shorten_url_urls fuel rng now ts url custom exp notes tags validate db res db' :
  shorten_url fuel rng now ts url custom exp notes tags validate db = (Some res, db') →
  (db' = db ∧ success res = false) ∨
  ∃ c r, Str.isalnum c = true ∧ Urls.short_code r = c ∧ urls db !! c = None ∧
         urls db' = <[c := r]> (urls db) ∧ clicks db' = clicks db ∧
         short_code res = Some c.
Proof.
  destruct (shorten_url_rejected_or_checked fuel rng now ts url custom exp notes tags
              validate db) as [(m & -> & _)|[_ ->]].
  { intros [= <- <-]. by left. }
  assert (∀ c cu db1 res1 db2,
            Str.isalnum c = true →
            (let* ok := Database.insert_url ts c url cu
                          match exp with
                          | Some d => if d =? 0 then None else Some (now + d * DAY)
                          | None => None
                          end notes tags in
             if ok then
               ret (Some {| success := true; short_code := Some c;
                            shortened_url := Some (config.CUSTOM_DOMAIN +:+ "/" +:+ c);
                            error := None |})
             else ret (Some (URLShortener.failed config.ERROR_MESSAGES.database_error)))
              db1 = (Some res1, db2) →
            (db2 = db1 ∧ success res1 = false) ∨
            ∃ c r, Str.isalnum c = true ∧ Urls.short_code r = c ∧ urls db1 !! c = None ∧
                   urls db2 = <[c := r]> (urls db1) ∧ clicks db2 = clicks db1 ∧
                   short_code res1 = Some c) as Hins.
  { intros c cu db1 res1 db2 Hal. unfold bind, Database.insert_url, try_sql, ret.
    destruct (conn_ok db1); [|intros [= <- <-]; by left].
    destruct (urls db1 !! c) eqn:Hc; [intros [= <- <-]; by left|].
    intros [= <- <-]. right.
    refine (ex_intro _ c (ex_intro _ _
              (conj Hal (conj _ (conj Hc (conj eq_refl (conj eq_refl eq_refl))))))).
    reflexivity. }
  unfold URLShortener.shorten_checked.
  destruct custom as [[|ch rest]|].
  - unfold bind at 1.
    destruct (URLShortener.generate_short_code fuel rng 0 now db) as [[code|] db1] eqn:Hg;
      [|done].
    apply generate_sound in Hg as (-> & n & _ & -> & _).
    apply Hins, drawn_isalnum.
  - set (k := String ch rest).
    destruct (config.MAX_CUSTOM_LENGTH <? String.length k)%nat; [intros [= <- <-]; by left|].
    destruct (Str.isalnum k) eqn:Hal; simpl; [|intros [= <- <-]; by left].
    unfold bind at 1. rewrite get_url_eq.
    destruct (Database.get_url now k db).1; [intros [= <- <-]; by left|].
    by apply Hins.
  - unfold bind at 1.
    destruct (URLShortener.generate_short_code fuel rng 0 now db) as [[code|] db1] eqn:Hg;
      [|done].
    apply generate_sound in Hg as (-> & n & _ & -> & _).
    apply Hins, drawn_isalnum.
Qed.

(** [shorten_url] stores alphanumeric codes only, each under its own key. *)
Lemma shorten_url_invariants fuel rng now ts url custom exp notes tags validate db res db' :
  shorten_url fuel rng now ts url custom exp notes tags validate db = (Some res, db') →
  (keyed db → keyed db') ∧
  (map_Forall (λ k _, Str.isalnum k = true) (urls db) →
   map_Forall (λ k _, Str.isalnum k = true) (urls db')).
Proof.
  intros [[-> _]|(c & r & Hal & Hr & Hc & Hu & _)]%shorten_url_urls; [done|].
  unfold keyed. rewrite Hu. split; intros H; by apply map_Forall_insert_2.
Qed.

(** X25. When some row has the custom code [k], whatever the state of the
    row, [shorten_url] with [custom_code = k] fails, returns no code,
    inserts nothing and leaves the store as it was. The error is
    [custom_taken] when the row is active and unexpired on a working
    connection, the URL passes the URL checks, and [k] is alphanumeric and
    within the length limit. In particular, when the store is the result
    of a first [shorten_url] that stored [k], and the first link has not
    expired, the call fails with [custom_taken]. *)
Theorem shorten_url_held_code (fuel : nat) (rng : Rng) (now ts : Timestamp)
    (url k : string) (exp : option Z) (notes tags : string) (validate : bool)
    (db : Database) (row : Urls.row) :
  urls db !! k = Some row →
  k ≠ "" →
  ∃ res,
    shorten_url fuel rng now ts url (Some k) exp notes tags validate db = (Some res, db) ∧
    success res = false ∧ short_code res = None ∧
    (conn_ok db = true →
     Urls.is_active row = true →
     (∀ t, Urls.expires_at row = Some t → now ≤ t) →
     accepted validate url →
     (String.length k ≤ config.MAX_CUSTOM_LENGTH)%nat →
     Str.isalnum k = true →
     error res = Some config.ERROR_MESSAGES.custom_taken) ∧
    (∀ fuel1 rng1 now1 ts1 url1 exp1 notes1 tags1 validate1 db0 res1,
       shorten_url fuel1 rng1 now1 ts1 url1 (Some k) exp1 notes1 tags1 validate1 db0
         = (Some res1, db) →
       success res1 = true →
       (∀ d, exp1 = Some d → now ≤ now1 + d * DAY) →
       accepted validate url →
       res = URLShortener.failed config.ERROR_MESSAGES.custom_taken).
Proof.
  intros Hk Hne.
  assert (∀ res, shorten_url fuel rng now ts url (Some k) exp notes tags validate db
                   = (Some res, db) →
            ∀ fuel1 rng1 now1 ts1 url1 exp1 notes1 tags1 validate1 db0 res1,
              shorten_url fuel1 rng1 now1 ts1 url1 (Some k) exp1 notes1 tags1 validate1 db0
                = (Some res1, db) →
              success res1 = true →
              (∀ d, exp1 = Some d → now ≤ now1 + d * DAY) →
              accepted validate url →
              res = URLShortener.failed config.ERROR_MESSAGES.custom_taken) as Htwice.
  { intros res Hres fuel1 rng1 now1 ts1 url1 exp1 notes1 tags1 validate1 db0 res1 H1 Hs Hx Ha.
    pose proof (shorten_url_custom_twice fuel1 rng1 now1 ts1 url1 k exp1 notes1 tags1
                  validate1 fuel rng now ts url exp notes tags validate db0 res1 db
                  Hne H1 Hs Hx Ha) as H2.
    rewrite H2 in Hres. by injection Hres as <-. }
  destruct (shorten_checked_held fuel rng now ts url k exp notes tags db row Hk Hne)
    as (msg & Hc & Hmsg).
  destruct (shorten_url_rejected_or_checked fuel rng now ts url (Some k) exp notes tags
              validate db) as [(m & Hm & Hrej)|[Hacc Hm]]; rewrite Hm; [|rewrite Hc].
  - eexists. split; [done|]. split_and!; [done..| |].
    + by intros _ _ _ ?.
    + intros. by eapply Htwice; [rewrite Hm| |..].
  - eexists. split; [done|]. split_and!; [done..| |].
    + intros ? ? ? _ ? ?. simpl. f_equal. by apply Hmsg.
    + intros. by eapply Htwice; [rewrite Hm, Hc| |..].
Qed.

End create.

(** * The properties on the sample states *)

Lemma db_abc_urls : urls db_abc = {[ "abc" := row_abc ]}.
Proof. vm_compute. reflexivity. Qed.

Lemma db_abc_clicked_urls : urls db_abc_clicked = {[ "abc" := row_abc ]}.
Proof. vm_compute. reflexivity. Qed.

Lemma keyed_db_abc_clicked : keyed db_abc_clicked.
Proof. unfold keyed. refine (bool_decide_unpack _ _). vm_compute. exact I. Defined.

Lemma choices_rng_zero k pos :
  random.choices config.SHORT_CODE_CHARS k rng_zero pos =
  random.choices config.SHORT_CODE_CHARS k rng_zero 0.
Proof. revert pos. induction k as [|k IH]; intros pos; simpl; [done|]. by rewrite IH, (IH 1%nat). Qed.

Lemma drawn_rng_zero pos i : drawn rng_zero pos i = "aaaaaa".
Proof. unfold drawn. rewrite choices_rng_zero. reflexivity. Qed.

(** On [db_abc]: [GET /abc] stores one click event and the head on the
    wire carries the URL in its [Location] line. *)
Lemma redirect_served_witness :
  length (clicks (URLRedirectHandler.do_GET geo_unavailable ua_unavailable req_abc clock_1
                    db_abc).2) = 1%nat ∧
  lines (BaseHTTPRequestHandler.response_head "HTTP/1.1" "BaseHTTP/0.6 Python/3.11.2"
           "Thu, 01 Jan 2026 00:00:00 GMT"
           (URLRedirectHandler.do_GET geo_unavailable ua_unavailable req_abc clock_1 db_abc).1)
  = ["HTTP/1.0 301 Moved Permanently"; "Server: BaseHTTP/0.6 Python/3.11.2";
     "Date: Thu, 01 Jan 2026 00:00:00 GMT"; "Location: https://example.com/page"; ""; ""].
Proof.
  destruct (redirect_served geo_unavailable ua_unavailable req_abc clock_1 db_abc
              "abc" row_abc "HTTP/1.1" "BaseHTTP/0.6 Python/3.11.2"
              "Thu, 01 Jan 2026 00:00:00 GMT")
    as (e & db' & Hrun & Hcl & _ & _ & _ & _ & Hhead).
  - reflexivity.
  - vm_compute. reflexivity.
  - reflexivity.
  - intros t H. discriminate H.
  - reflexivity.
  - reflexivity.
  - split.
    + rewrite Hrun. simpl. rewrite Hcl. reflexivity.
    + apply Hhead; [discriminate|split; reflexivity..].
Defined.

(** C1, at the failing input. [shorten_url] accepts the URL
    [https://example.com/], CR, LF, [Set-Cookie: x=1] and stores it under
    [abc]; the link is active and has no expiration. [GET /abc] stores one
    click and the handler passes the URL to [send_header] as it is. In the
    head that reaches the client the [Location] line ends at the CR LF of
    the URL: the header is [https://example.com/], not the stored URL, and
    the rest of the URL arrives as a header line of its own. *)
Lemma C1_location_header_split :
  urls db_split !! "abc"
    = Some {| Urls.id := 1; Urls.short_code := "abc"; Urls.original_url := url_split;
              Urls.custom := true; Urls.created_at := 0; Urls.expires_at := None;
              Urls.is_active := true; Urls.notes := ""; Urls.tags := "";
              Urls.password := None |} ∧
  status (URLRedirectHandler.do_GET geo_unavailable ua_unavailable req_abc clock_1
            db_split).1 = 301%nat ∧
  length (clicks (URLRedirectHandler.do_GET geo_unavailable ua_unavailable req_abc clock_1
                    db_split).2) = 1%nat ∧
  lines (BaseHTTPRequestHandler.response_head "HTTP/1.1" "BaseHTTP/0.6 Python/3.11.2"
           "Thu, 01 Jan 2026 00:00:00 GMT"
           (URLRedirectHandler.do_GET geo_unavailable ua_unavailable req_abc clock_1
              db_split).1)
  = ["HTTP/1.0 301 Moved Permanently"; "Server: BaseHTTP/0.6 Python/3.11.2";
     "Date: Thu, 01 Jan 2026 00:00:00 GMT"; "Location: https://example.com/";
     "Set-Cookie: x=1"; ""; ""] ∧
  "Location: " +:+ url_split
    ∉ lines (BaseHTTPRequestHandler.response_head "HTTP/1.1" "BaseHTTP/0.6 Python/3.11.2"
               "Thu, 01 Jan 2026 00:00:00 GMT"
               (URLRedirectHandler.do_GET geo_unavailable ua_unavailable req_abc clock_1
                  db_split).1).
Proof.
  split_and!; try (vm_compute; reflexivity).
  assert (lines (BaseHTTPRequestHandler.response_head "HTTP/1.1" "BaseHTTP/0.6 Python/3.11.2"
                   "Thu, 01 Jan 2026 00:00:00 GMT"
                   (URLRedirectHandler.do_GET geo_unavailable ua_unavailable req_abc clock_1
                      db_split).1)
          = ["HTTP/1.0 301 Moved Permanently"; "Server: BaseHTTP/0.6 Python/3.11.2";
             "Date: Thu, 01 Jan 2026 00:00:00 GMT"; "Location: https://example.com/";
             "Set-Cookie: x=1"; ""; ""]) as -> by (vm_compute; reflexivity).
  intros H. repeat (apply elem_of_cons in H as [H|H]; [by vm_compute in H|]).
  by apply elem_of_nil in H.
Qed.

(** C2 on [db_abc_expired]: the link created with [expires_days = -1] is
    absent from [get_url] at once, and its row stays active. *)
Lemma C2_witness :
  (Database.get_url 0 "abc" db_abc_expired).1 = None ∧
  ∃ row', urls (Database.get_url 0 "abc" db_abc_expired).2 !! "abc" = Some row' ∧
          Urls.is_active row' = true.
Proof.
  refine (proj2 (proj2 (C2_lookup_none_iff db_abc_expired 0 "abc" _))
            row_abc_expired (- DAY) _ _ _ _).
  - reflexivity.
  - vm_compute. reflexivity.
  - reflexivity.
  - reflexivity.
  - reflexivity.
Defined.

(** C3, as the spec states it, fails: no row has code [ghost], one field is
    supplied, and [update_url] returns true. *)
Lemma C3_counterexample :
  urls Database.init !! "ghost" = None ∧
  URLShortener.update_url "ghost" None (Some "memo") None None Database.init
    = (true, Database.init).
Proof. split; vm_compute; reflexivity. Qed.

Lemma C3_witness :
  (URLShortener.update_url "ghost" None (Some "memo") None None db_abc).2 = db_abc ∧
  (URLShortener.update_url "ghost" None (Some "memo") None None db_abc).1 = true.
Proof.
  refine (C3_update_missing_code db_abc "ghost" None (Some "memo") None None _).
  vm_compute. reflexivity.
Defined.

(** C4, as the spec states it, fails on the saturated registry: every code
    of the code space is present as an active link, and for no random
    source, no time and no number of rounds has the loop returned; it has
    no way to report exhaustion. *)
Lemma C4_counterexample :
  (∀ code, in_code_space code → active_link db_saturated code) ∧
  ¬ ∃ (rng : Rng) (now : Timestamp) (fuel : nat),
      (URLShortener.generate_short_code fuel rng 0 now db_saturated).1 ≠ None.
Proof.
  destruct db_saturated_held as (Hok & Hne & Hall). split; [exact Hall|].
  intros (rng & now & fuel & H). apply H.
  rewrite generate_all_taken; [reflexivity|].
  intros i. apply (get_url_active_link now _ db_saturated Hok (Hne now)).
  apply Hall, drawn_in_code_space.
Qed.

(** C4 on the sample states: on the empty store the first draw is
    returned; on [db_generated], where [aaaaaa] is held, a source that
    draws [aaaaaa] first returns its second draw. *)
Lemma C4_witness :
  URLShortener.generate_short_code 8 rng_retry 0 0 Database.init
    = (Some "aaaaaa", Database.init) ∧
  URLShortener.generate_short_code 8 rng_retry 0 0 db_generated
    = (Some "ghijkl", db_generated).
Proof.
  assert (urls db_generated = {[ "aaaaaa" :=
            {| Urls.id := 1; Urls.short_code := "aaaaaa"; Urls.original_url := url_page;
               Urls.custom := false; Urls.created_at := 0; Urls.expires_at := None;
               Urls.is_active := true; Urls.notes := ""; Urls.tags := "";
               Urls.password := None |} ]}) as Hgen by (vm_compute; reflexivity).
  split.
  - refine (proj1 (proj2 (C4_generate_short_code rng_retry 0 Database.init _ _))
              0%nat 8%nat _ _ _).
    + reflexivity.
    + intros c r H. simpl in H. by rewrite lookup_empty in H.
    + lia.
    + intros (r & H & _). simpl in H. by rewrite lookup_empty in H.
    + intros i Hi. lia.
  - refine (proj1 (proj2 (C4_generate_short_code rng_retry 0 db_generated _ _))
              1%nat 8%nat _ _ _).
    + reflexivity.
    + intros c r. rewrite Hgen. by intros [_ <-]%lookup_singleton_Some.
    + lia.
    + intros (r & H & _). rewrite Hgen in H. by apply lookup_singleton_Some in H as [? _].
    + intros i Hi. assert (i = 0%nat) as -> by lia.
      eexists. rewrite Hgen. split; [apply lookup_singleton_eq|reflexivity].
Defined.

(** C5, at the failing inputs. A row holds [abc] in three stores. In
    [db_abc_expired], the store after a first [shorten_url] with
    [custom_code = abc] and [expires_days = -1], the row is active and past
    its expiration; in [db_abc_deleted] it is soft-deleted; in [db_abc] it
    is active and unexpired. The check of [shorten_url] that the custom
    code is taken asks [get_url], which finds the row only in [db_abc]:
    there the next [shorten_url] with [custom_code = abc] fails with
    [custom_taken]. In the other two stores the call goes on to
    [insert_url], whose uniqueness violation comes back as the generic
    database error. *)
Lemma C5_generic_error_for_held_code :
  urls db_abc_expired !! "abc"
    = Some {| Urls.id := 1; Urls.short_code := "abc"; Urls.original_url := url_page;
              Urls.custom := true; Urls.created_at := 0; Urls.expires_at := Some (- DAY);
              Urls.is_active := true; Urls.notes := ""; Urls.tags := "";
              Urls.password := None |} ∧
  create 0 url_page (Some "abc") (Some (-1)) db_abc_expired
    = (Some (URLShortener.failed config.ERROR_MESSAGES.database_error), db_abc_expired) ∧
  urls db_abc_deleted !! "abc"
    = Some {| Urls.id := 1; Urls.short_code := "abc"; Urls.original_url := url_page;
              Urls.custom := true; Urls.created_at := 0; Urls.expires_at := None;
              Urls.is_active := false; Urls.notes := ""; Urls.tags := "";
              Urls.password := None |} ∧
  create 1 url_page (Some "abc") None db_abc_deleted
    = (Some (URLShortener.failed config.ERROR_MESSAGES.database_error), db_abc_deleted) ∧
  create 1 url_page (Some "abc") None db_abc
    = (Some (URLShortener.failed config.ERROR_MESSAGES.custom_taken), db_abc) ∧
  config.ERROR_MESSAGES.database_error ≠ config.ERROR_MESSAGES.custom_taken.
Proof.
  split_and!; try (vm_compute; reflexivity). discriminate.
Qed.

(** On [db_abc]: a second [shorten_url] with [custom_code = abc] fails
    with [custom_taken] and leaves the store as it was. *)
Lemma shorten_url_held_code_witness :
  ∃ res,
    create 1 url_page (Some "abc") None db_abc = (Some res, db_abc) ∧
    success res = false ∧
    error res = Some config.ERROR_MESSAGES.custom_taken.
Proof.
  destruct (shorten_url_held_code validate_ok not_blacklisted reachable reachable
              8 rng_zero 1 1 url_page "abc" None "" "" true db_abc row_abc)
    as (res & H & Hs & _ & He & _).
  - vm_compute. reflexivity.
  - discriminate.
  - exists res. split; [exact H|]. split; [exact Hs|]. apply He.
    + reflexivity.
    + reflexivity.
    + intros t Ht. discriminate Ht.
    + split; [reflexivity|]. intros _. split; reflexivity.
    + vm_compute. lia.
    + reflexivity.
Defined.

(** C6 on [db_abc]: an unknown code gets 404 and the store is unchanged. *)
Lemma C6_witness :
  URLRedirectHandler.handle_redirect geo_unavailable ua_unavailable req_abc clock_1
    "doesnotexist" db_abc
  = (send_error 404 config.ERROR_MESSAGES.not_found, db_abc).
Proof.
  refine (proj1 (C6_unresolved_404_no_click geo_unavailable ua_unavailable req_abc clock_1
                   db_abc "doesnotexist" _)).
  intros row [H _]. vm_compute in H. discriminate H.
Defined.

(** C7 on [db_abc_clicked]: after the hard delete of [abc] neither the row
    nor its click event is left. *)
Lemma C7_witness :
  urls (Database.hard_delete_url "abc" db_abc_clicked).2 !! "abc" = None ∧
  clicks_of "abc" (Database.hard_delete_url "abc" db_abc_clicked).2 = [].
Proof.
  pose proof (C7_hard_delete_cascade db_abc_clicked "abc" keyed_db_abc_clicked eq_refl) as H.
  cbv zeta in H. destruct H as (H1 & _ & _ & H4 & _).
  split; [exact H1 | exact H4].
Defined.

(** C8 on [db_abc_clicked]: after the soft delete of [abc], [get_url] finds
    nothing; the row is stored and listed with its URL, dates, notes and
    tags, inactive; and the ledger is the same. *)
Lemma C8_witness :
  (∀ now, (Database.get_url now "abc" (Database.delete_url "abc" db_abc_clicked).2).1 = None) ∧
  urls (Database.delete_url "abc" db_abc_clicked).2 !! "abc"
    = Some {| Urls.id := 1; Urls.short_code := "abc"; Urls.original_url := url_page;
              Urls.custom := true; Urls.created_at := 0; Urls.expires_at := None;
              Urls.is_active := false; Urls.notes := ""; Urls.tags := "";
              Urls.password := None |} ∧
  {| Urls.id := 1; Urls.short_code := "abc"; Urls.original_url := url_page;
     Urls.custom := true; Urls.created_at := 0; Urls.expires_at := None;
     Urls.is_active := false; Urls.notes := ""; Urls.tags := "";
     Urls.password := None |}
    ∈ (Database.get_all_urls true (Database.delete_url "abc" db_abc_clicked).2).1 ∧
  clicks (Database.delete_url "abc" db_abc_clicked).2 = clicks db_abc_clicked.
Proof.
  pose proof (C8_soft_delete_visibility db_abc_clicked "abc" row_abc eq_refl) as H.
  cbv zeta in H. destruct H as (H1 & H2 & H3 & _ & _ & H6 & _).
  - vm_compute. reflexivity.
  - split; [exact H1|]. split; [exact H2|]. split; [exact H3 | exact H6].
Defined.

(** C9 on [db_abc_clicked]: one active link, one click. *)
Lemma C9_witness :
  ∃ stats,
    Database.get_statistics db_abc_clicked = (Some stats, db_abc_clicked) ∧
    Database.total_urls stats = 1%nat ∧ Database.total_clicks stats = 1%nat.
Proof.
  destruct (C9_aggregate_stats db_abc_clicked ["abc"]) as (stats & H1 & H2 & H3 & _).
  - reflexivity.
  - apply NoDup_singleton.
  - intros c. rewrite db_abc_clicked_urls, list_elem_of_singleton. split.
    + intros ->. exists row_abc. split; [apply lookup_singleton_eq | reflexivity].
    + intros (r & [-> _]%lookup_singleton_Some & _). reflexivity.
  - exists stats. split; [exact H1|]. split; [exact H2 | exact H3].
Defined.

(** ** The string methods and the routing of [do_GET] on sample inputs *)

Example parse_path_cuts_query :
  URLRedirectHandler.parse_path "//abc?x=1?y" = "abc".
Proof. reflexivity. Qed.

Example strip_both_ends : Str.strip "  Chrome 120.0 " = "Chrome 120.0".
Proof. reflexivity. Qed.

(** [LIKE] sees nothing after a NUL character. *)
Example like_stops_at_nul :
  Database.like "%needle%" ("x" +:+ String "000" "needle") = false ∧
  Database.like "%needle%" ("a needle" +:+ String "000" "x") = true.
Proof. split; reflexivity. Qed.

Example isalnum_samples :
  Str.isalnum "abc123" = true ∧ Str.isalnum "" = false ∧
  Str.isalnum "index.html" = false ∧ Str.isalnum "api/stats" = false.
Proof. repeat split. Qed.

Example custom_domain : config.CUSTOM_DOMAIN = "http://localhost:8080".
Proof. reflexivity. Qed.

(** The home page and the statistics endpoint answer 200 and write
    nothing. *)
Example get_home_and_stats :
  let get p := URLRedirectHandler.do_GET geo_unavailable ua_unavailable
                 {| path := p; client_address := "127.0.0.1"; user_agent := None |}
                 clock_1 db_abc in
  status (get "/").1 = 200%nat ∧ (get "/").2 = db_abc ∧
  status (get "/index.html").1 = 200%nat ∧
  status (get "/api/stats").1 = 200%nat ∧ (get "/api/stats").2 = db_abc ∧
  status (get "/api/other").1 = 404%nat.
Proof. vm_compute. repeat split. Qed.

(** The first [shorten_url] with [custom_code = abc] succeeds. *)
Example create_abc_succeeds :
  (create 0 url_page (Some "abc") None Database.init).1
  = Some {| success := true; short_code := Some "abc";
            shortened_url := Some "http://localhost:8080/abc"; error := None |}.
Proof. vm_compute. reflexivity. Qed.

(** * Further properties of the store *)

(** ** [insert_url] *)

(** X1. [insert_url] returns true exactly when the connection works and no row
    has the code. On false the store is unchanged. On true the store gains
    one row under the code, with the given values, [is_active = 1], no
    password and a fresh [id]; every other row and the ledger stay. *)
Theorem insert_url_outcome (ts : Timestamp) (c u : string) (cu : bool)
    (ex : option Timestamp) (n t : string) (db : Database) :
  let ok := (Database.insert_url ts c u cu ex n t db).1 in
  let db' := (Database.insert_url ts c u cu ex n t db).2 in
  (ok = true ↔ conn_ok db = true ∧ urls db !! c = None) ∧
  (ok = false → db' = db) ∧
  (ok = true →
     urls db' !! c =
       Some {| Urls.id := S (urls_seq db); Urls.short_code := c; Urls.original_url := u;
               Urls.custom := cu; Urls.created_at := ts; Urls.expires_at := ex;
               Urls.is_active := true; Urls.notes := n; Urls.tags := t;
               Urls.password := None |} ∧
     (∀ c', c' ≠ c → urls db' !! c' = urls db !! c') ∧
     clicks db' = clicks db ∧ conn_ok db' = true).
Proof.
  unfold Database.insert_url, try_sql.
  destruct (conn_ok db) eqn:Hok; simpl.
  - destruct (urls db !! c) eqn:Hc; simpl.
    + split_and!; [|done..]. split; [done|]. by intros [_ ?].
    + split_and!; [done|done|]. intros _. rewrite lookup_insert_eq.
      split_and!; [done| |done..]. intros c' Hc'. by rewrite lookup_insert_ne.
  - split_and!; [|done..]. split; [done|]. by intros [? _].
Qed.

(** X2. Insert then lookup: after a successful [insert_url], [get_url] returns
    the new row, original URL included, at every time up to its expiration,
    and answers for every other code as before. *)
Theorem insert_url_then_get_url (ts : Timestamp) (c u : string) (cu : bool)
    (ex : option Timestamp) (n t : string) (db : Database) (now : Timestamp) :
  (Database.insert_url ts c u cu ex n t db).1 = true →
  (∀ t', ex = Some t' → now ≤ t') →
  let db' := (Database.insert_url ts c u cu ex n t db).2 in
  (∃ row, (Database.get_url now c db').1 = Some row ∧
          Urls.original_url row = u ∧ Urls.short_code row = c ∧
          Urls.expires_at row = ex) ∧
  (URLShortener.get_original_url now c db').1 = Some u ∧
  (∀ c', c' ≠ c → (Database.get_url now c' db').1 = (Database.get_url now c' db).1).
Proof.
  intros Hok Hex db'.
  assert (conn_ok db = true ∧ urls db !! c = None) as [Hok0 Hfree].
  { revert Hok. unfold Database.insert_url, try_sql.
    destruct (conn_ok db); [|done]. by destruct (urls db !! c). }
  assert (conn_ok db' = true) as Hconn.
  { unfold db', Database.insert_url, try_sql. by rewrite Hok0, Hfree. }
  assert (urls db' !! c =
          Some {| Urls.id := S (urls_seq db); Urls.short_code := c; Urls.original_url := u;
                  Urls.custom := cu; Urls.created_at := ts; Urls.expires_at := ex;
                  Urls.is_active := true; Urls.notes := n; Urls.tags := t;
                  Urls.password := None |}) as Hc.
  { unfold db', Database.insert_url, try_sql. rewrite Hok0, Hfree. simpl.
    apply lookup_insert_eq. }
  assert (∀ c', c' ≠ c → urls db' !! c' = urls db !! c') as Hother.
  { intros c' Hc'. unfold db', Database.insert_url, try_sql. rewrite Hok0, Hfree. simpl.
    by rewrite lookup_insert_ne. }
  assert ((Database.get_url now c db').1 =
          Some {| Urls.id := S (urls_seq db); Urls.short_code := c; Urls.original_url := u;
                  Urls.custom := cu; Urls.created_at := ts; Urls.expires_at := ex;
                  Urls.is_active := true; Urls.notes := n; Urls.tags := t;
                  Urls.password := None |}) as Hg.
  { apply get_url_Some. split; [done|]. split; [done|]. split; [done|]. done. }
  split_and!.
  - eexists. split; [exact Hg|]. done.
  - unfold URLShortener.get_original_url, bind, ret. rewrite get_url_eq, Hg. done.
  - intros c' Hc'. unfold Database.get_url, try_sql. rewrite Hconn, Hok0.
    rewrite (Hother c' Hc').
    destruct (urls db !! c') as [r|]; [|done].
    destruct (Urls.is_active r); [|done]. by destruct (Database.expired now r).
Qed.

Lemma insert_url_then_get_url_witness :
  (URLShortener.get_original_url 5 "abc"
     (Database.insert_url 0 "abc" url_page true (Some 9) "" "" Database.init).2).1
  = Some url_page.
Proof.
  refine (proj1 (proj2 (insert_url_then_get_url 0 "abc" url_page true (Some 9) "" ""
                          Database.init 5 _ _))).
  - reflexivity.
  - intros t' [= <-]. lia.
Defined.

(** ** [record_click] *)

(** X3. [record_click] does not look at table [urls]: on a working connection
    it returns true for every code, with or without a row, and appends one
    event with the given values; the count of that code grows by one, the
    count of every other code and table [urls] stay. On a broken connection
    it returns false and changes nothing. *)
Theorem record_click_appends (ts : Timestamp) (c ip co ci b d : string) (rt : Q)
    (db : Database) :
  let ok := (Database.record_click ts c ip co ci b d rt db).1 in
  let db' := (Database.record_click ts c ip co ci b d rt db).2 in
  ok = conn_ok db ∧
  (ok = false → db' = db) ∧
  (ok = true →
     clicks db' = clicks db ++
       [{| Clicks.id := S (clicks_seq db); Clicks.short_code := c;
           Clicks.clicked_at := ts; Clicks.ip_address := ip; Clicks.country := co;
           Clicks.city := ci; Clicks.browser := b; Clicks.device := d;
           Clicks.response_time_ms := rt |}] ∧
     urls db' = urls db ∧
     (Database.get_click_count c db').1 = S (Database.get_click_count c db).1 ∧
     (∀ c', c' ≠ c →
        (Database.get_click_count c' db').1 = (Database.get_click_count c' db).1)).
Proof.
  unfold Database.record_click, Database.get_click_count, try_sql.
  destruct (conn_ok db) eqn:Hok; simpl; [|done].
  split_and!; [done..|]. intros _.
  split_and!; [done..| |]; simpl.
  - rewrite filter_app, length_app, filter_cons, decide_True by done. simpl. lia.
  - intros c' Hc'. rewrite filter_app, length_app, filter_cons, decide_False by done.
    simpl. lia.
Qed.

(** ** [hard_delete_url] and the other codes *)

(** X5. [hard_delete_url] of [c] touches nothing of another code: every other
    row stays as it is, and the click events of the other codes stay, in
    their order. *)
Theorem hard_delete_url_frame (db : Database) (c : string) :
  let db' := (Database.hard_delete_url c db).2 in
  (∀ c', c' ≠ c → urls db' !! c' = urls db !! c') ∧
  (∀ c', c' ≠ c → clicks_of c' db' = clicks_of c' db) ∧
  (∀ c' now, c' ≠ c → (Database.get_url now c' db').1 = (Database.get_url now c' db).1) ∧
  (∀ c', c' ≠ c →
     (Database.get_click_count c' db').1 = (Database.get_click_count c' db).1) ∧
  clicks db' `sublist_of` clicks db.
Proof.
  unfold Database.hard_delete_url, try_sql.
  destruct (conn_ok db) eqn:Hok; simpl; [|done].
  assert (∀ c', c' ≠ c →
            filter (λ e, Clicks.short_code e = c')
              (filter (λ e, Clicks.short_code e ≠ c) (clicks db))
            = filter (λ e, Clicks.short_code e = c') (clicks db)) as Hf.
  { intros c' Hc'. rewrite list_filter_filter. apply list_filter_iff.
    intros e. split; [by intros [? _] | intros ->; done]. }
  split_and!.
  - intros c' Hc'. apply lookup_delete_ne. congruence.
  - intros c' Hc'. unfold clicks_of. simpl. by apply Hf.
  - intros c' now Hc'. unfold Database.get_url, try_sql. simpl. rewrite Hok.
    rewrite lookup_delete_ne by congruence.
    destruct (urls db !! c') as [r|]; [|done].
    destruct (Urls.is_active r); [|done]. by destruct (Database.expired now r).
  - intros c' Hc'. unfold Database.get_click_count, try_sql. simpl. rewrite Hok. simpl.
    by rewrite Hf.
  - apply sublist_filter.
Qed.

(** ** Listings and queries *)

#[local] Instance newer_first_total : Total Database.newer_first.
Proof. intros r1 r2. unfold Database.newer_first. lia. Qed.

#[local] Instance latest_first_total : Total Database.latest_first.
Proof. intros e1 e2. unfold Database.latest_first. lia. Qed.

Lemma Sorted_take {A} (R : relation A) (n : nat) (l : list A) :
  Sorted R l → Sorted R (take n l).
Proof.
  intros Hs. revert n. induction Hs as [|x l Hs IH Hx]; intros [|n]; simpl;
    try by constructor.
  constructor; [apply IH|]. destruct Hx; destruct n; simpl; by constructor.
Qed.

Lemma keyed_codes (m : gmap string Urls.row) :
  map_Forall (λ k r, Urls.short_code r = k) m →
  Urls.short_code <$> (map_to_list m).*2 = (map_to_list m).*1.
Proof.
  intros Hk.
  assert (Forall (λ kr, Urls.short_code kr.2 = kr.1) (map_to_list m)) as Hall.
  { apply Forall_forall. intros [k r] H%elem_of_map_to_list. by apply Hk. }
  induction Hall as [|[k r] l Hkr _ IH]; [done|]. csimpl. simpl in Hkr.
  by rewrite Hkr, IH.
Qed.

(** X6. [get_all_urls] on a working connection: the rows come newest first;
    they are the rows of the table, only the active ones unless
    [include_inactive] is set; and each code is listed once. *)
Theorem get_all_urls_listing (include_inactive : bool) (db : Database) :
  conn_ok db = true →
  let rows := (Database.get_all_urls include_inactive db).1 in
  Sorted Database.newer_first rows ∧
  (∀ r, r ∈ rows ↔
        ∃ k, urls db !! k = Some r ∧ (include_inactive = true ∨ Urls.is_active r = true)) ∧
  (include_inactive = true → length rows = size (urls db)) ∧
  (keyed db → NoDup (Urls.short_code <$> rows)) ∧
  (Database.get_all_urls include_inactive db).2 = db.
Proof.
  intros Hok rows. split_and!.
  - unfold rows, Database.get_all_urls, try_sql. rewrite Hok. simpl.
    apply (Sorted_merge_sort _).
  - intros r. unfold rows. rewrite elem_of_get_all_urls.
    split; [by intros [_ ?] | by intros ?; split].
  - intros ->. unfold rows, Database.get_all_urls, try_sql. rewrite Hok. simpl.
    by rewrite merge_sort_Permutation, length_fmap, length_map_to_list.
  - intros Hk. unfold rows, Database.get_all_urls, try_sql. rewrite Hok. simpl.
    rewrite merge_sort_Permutation.
    assert (NoDup (Urls.short_code <$> (map_to_list (urls db)).*2)) as Hnd.
    { rewrite keyed_codes by done. apply NoDup_fst_map_to_list. }
    destruct include_inactive; [done|].
    eapply sublist_NoDup; [exact Hnd|]. apply fmap_sublist, sublist_filter.
  - unfold Database.get_all_urls, try_sql. by rewrite Hok.
Qed.

Lemma get_all_urls_listing_witness :
  length (Database.get_all_urls true db_abc_deleted).1 = size (urls db_abc_deleted) ∧
  Sorted Database.newer_first (Database.get_all_urls true db_abc_deleted).1.
Proof.
  destruct (get_all_urls_listing true db_abc_deleted eq_refl) as (H1 & _ & H3 & _).
  split; [exact (H3 eq_refl) | exact H1].
Defined.

(** X7. [get_clicks]: the result comes latest first and holds only events of
    the ledger, each at most as often as the ledger has it; with a
    non-empty [short_code] every event has that code; with a positive
    [limit] there are at most [limit] events. An empty [short_code] and a
    [limit] of 0 are ignored, as if they were not given. *)
Theorem get_clicks_result (short_code : option string) (limit : option nat)
    (start_date end_date : option Timestamp) (db : Database) :
  let res := (Database.get_clicks short_code limit start_date end_date db).1 in
  Sorted Database.latest_first res ∧
  res ⊆+ clicks db ∧
  (∀ c, short_code = Some c → c ≠ "" → Forall (λ e, Clicks.short_code e = c) res) ∧
  (∀ n, limit = Some n → n ≠ 0%nat → (length res ≤ n)%nat) ∧
  (short_code = Some "" →
   res = (Database.get_clicks None limit start_date end_date db).1) ∧
  (limit = Some 0%nat →
   res = (Database.get_clicks short_code None start_date end_date db).1) ∧
  (Database.get_clicks short_code limit start_date end_date db).2 = db.
Proof.
  unfold Database.get_clicks, try_sql. destruct (conn_ok db); simpl.
  2:{ split_and!; [apply Sorted_nil | apply submseteq_nil_l | intros; apply Forall_nil_2
                   | intros; simpl; lia | done..]. }
  set (sel := filter (λ e, Database.click_selected short_code start_date end_date e = true)
                     (clicks db)).
  set (sorted := merge_sort Database.latest_first sel).
  assert (Sorted Database.latest_first sorted) as Hs by apply (Sorted_merge_sort _).
  assert (sorted ⊆+ clicks db) as Hsub.
  { unfold sorted. rewrite merge_sort_Permutation.
    apply sublist_submseteq, sublist_filter. }
  assert (∀ c, short_code = Some c → c ≠ "" →
            Forall (λ e, Clicks.short_code e = c) sorted) as Hc.
  { intros c -> Hne. apply Forall_forall. intros e.
    unfold sorted. rewrite merge_sort_Permutation. unfold sel.
    rewrite list_elem_of_filter. intros [Hsel _]. revert Hsel.
    unfold Database.click_selected. destruct c; [done|]. simpl.
    intros [[H _]%andb_prop _]%andb_prop. by apply bool_decide_eq_true in H. }
  split_and!.
  - destruct limit as [[|n]|]; [done| |done]. by apply Sorted_take.
  - destruct limit as [[|n]|]; [done| |done].
    etrans; [apply submseteq_take|done].
  - intros c Hsc Hne. specialize (Hc c Hsc Hne).
    destruct limit as [[|n]|]; [done| |done]. by apply Forall_take.
  - intros n -> Hn. destruct n as [|n]; [done|].
    rewrite length_take. lia.
  - by intros ->.
  - by intros ->.
  - done.
Qed.

(** ** Sequences of writes *)

Lemma mutate_all_snoc db ms m : mutate_all db (ms ++ [m]) = mutate (mutate_all db ms) m.
Proof. unfold mutate_all. by rewrite foldl_app. Qed.

Lemma keyed_mutate db m : keyed db → keyed (mutate db m).
Proof.
  intros Hk. destruct m; simpl;
    auto using keyed_insert_url, keyed_update_url, keyed_delete_url,
      keyed_hard_delete_url, keyed_record_click.
Qed.

Lemma ids_distinct_alter (f : Urls.row → Urls.row) c db :
  (∀ r, Urls.id (f r) = Urls.id r) →
  ids_distinct db → ids_distinct (set_urls (alter f c (urls db)) db).
Proof.
  intros Hf [Hle Hinj].
  assert (∀ k r', alter f c (urls db) !! k = Some r' →
            ∃ r, urls db !! k = Some r ∧ Urls.id r' = Urls.id r) as Hback.
  { intros k r'. rewrite lookup_alter. case_decide; [subst|eauto].
    destruct (urls db !! k) as [r|]; [|done]. intros [= <-]. eauto. }
  split.
  - intros k r' (r & Hr & ->)%Hback. by apply (Hle k).
  - intros k1 k2 r1' r2' (r1 & H1 & ->)%Hback (r2 & H2 & ->)%Hback. by apply Hinj.
Qed.

Lemma ids_distinct_mutate db m : ids_distinct db → ids_distinct (mutate db m).
Proof.
  intros [Hle Hinj]. destruct m as [ts c u cu ex n t|c ou n t e|c|c|ts c ip co ci b d rt];
    simpl.
  - unfold Database.insert_url, try_sql. destruct (conn_ok db); [|done].
    destruct (urls db !! c) eqn:Hc; [done|]. split; simpl.
    + apply map_Forall_insert_2; [simpl; lia|].
      intros k r Hr. specialize (Hle k r Hr). simpl in Hle. lia.
    + intros k1 k2 r1 r2. rewrite !lookup_insert.
      repeat case_decide; subst; try done.
      * intros [= <-] H2 Hid. specialize (Hle k2 r2 H2). simpl in *. lia.
      * intros H1 [= <-] Hid. specialize (Hle k1 r1 H1). simpl in *. lia.
      * apply Hinj.
  - unfold Database.update_url, try_sql. destruct (conn_ok db); [|done].
    destruct (negb _); [done|]. by apply ids_distinct_alter.
  - unfold Database.delete_url, try_sql. destruct (conn_ok db); [|done].
    by apply ids_distinct_alter.
  - unfold Database.hard_delete_url, try_sql. destruct (conn_ok db); [|done].
    split; simpl.
    + by apply map_Forall_delete.
    + intros k1 k2 r1 r2 [_ H1]%lookup_delete_Some [_ H2]%lookup_delete_Some.
      by apply Hinj.
  - unfold Database.record_click, try_sql. by destruct (conn_ok db).
Qed.

(** X8. Whatever calls of [insert_url], [update_url], [delete_url],
    [hard_delete_url] and [record_click] are made on a fresh database, in
    any order and with any arguments: each row is stored under its own
    [short_code], no row id exceeds the counter, and no two rows share an
    id. *)
Theorem reachable_store_invariants (ms : list Mutation) :
  keyed (mutate_all Database.init ms) ∧ ids_distinct (mutate_all Database.init ms).
Proof.
  induction ms as [|m ms IH] using rev_ind.
  - split; [apply keyed_init|]. split; [apply map_Forall_empty|].
    intros k1 k2 r1 r2 H. simpl in H. by rewrite lookup_empty in H.
  - rewrite mutate_all_snoc. destruct IH.
    split; [by apply keyed_mutate | by apply ids_distinct_mutate].
Qed.

(** X9. A soft-deleted link stays deleted: as long as the code is not hard
    deleted, no sequence of calls brings the row back. It stays in the
    table, inactive and with its id, and [get_url] finds nothing; an
    [insert_url] with the code is rejected. *)
Theorem soft_deleted_stays_deleted (ms : list Mutation) (db : Database)
    (c : string) (row : Urls.row) :
  urls db !! c = Some row →
  Urls.is_active row = false →
  Forall (λ m, m ≠ HardDeleteUrl c) ms →
  ∃ row',
    urls (mutate_all db ms) !! c = Some row' ∧
    Urls.is_active row' = false ∧ Urls.id row' = Urls.id row ∧
    (∀ now, (Database.get_url now c (mutate_all db ms)).1 = None) ∧
    (∀ ts u cu ex n t,
       (Database.insert_url ts c u cu ex n t (mutate_all db ms)).1 = false).
Proof.
  intros Hc Ha Hms.
  assert (∃ row', urls (mutate_all db ms) !! c = Some row' ∧
            Urls.is_active row' = false ∧ Urls.id row' = Urls.id row)
    as (row' & Hc' & Ha' & Hid).
  { induction ms as [|m ms IH] using rev_ind; [eauto|].
    apply Forall_app in Hms as [Hms Hm%Forall_inv].
    destruct (IH Hms) as (r & Hr & Har & Hidr). rewrite mutate_all_snoc.
    set (db1 := mutate_all db ms) in *.
    destruct m as [ts c' u cu ex n t|c' ou n t e|c'|c'|ts c' ip co ci b d rt]; simpl.
    - unfold Database.insert_url, try_sql. destruct (conn_ok db1); [|eauto].
      destruct (urls db1 !! c') eqn:Hc1; [eauto|]. simpl.
      rewrite lookup_insert_ne by congruence. eauto.
    - unfold Database.update_url, try_sql. destruct (conn_ok db1); [|eauto].
      destruct (negb _); [eauto|]. simpl. rewrite lookup_alter.
      case_decide; [subst; rewrite Hr; simpl|]; eauto.
    - unfold Database.delete_url, try_sql. destruct (conn_ok db1); [|eauto].
      simpl. rewrite lookup_alter. case_decide; [subst; rewrite Hr; simpl|]; eauto.
    - unfold Database.hard_delete_url, try_sql. destruct (conn_ok db1); [|eauto].
      simpl. rewrite lookup_delete_ne by congruence. eauto.
    - unfold Database.record_click, try_sql. destruct (conn_ok db1); eauto. }
  exists row'. split_and!; [done..| |].
  - intros now. apply get_url_None. right. intros r (Hr & Har & _). congruence.
  - intros ts u cu ex n t. unfold Database.insert_url, try_sql.
    destruct (conn_ok _); [|done]. by rewrite Hc'.
Qed.

Lemma soft_deleted_stays_deleted_witness :
  (Database.get_url 7 "abc"
     (mutate_all db_abc_deleted
        [UpdateUrl "abc" (Some url_page) None None (Some 99);
         InsertUrl 3 "abc" url_page true None "" "";
         RecordClick 4 "abc" "" "" "" "" "" 0%Q])).1 = None.
Proof.
  destruct (soft_deleted_stays_deleted
              [UpdateUrl "abc" (Some url_page) None None (Some 99);
               InsertUrl 3 "abc" url_page true None "" "";
               RecordClick 4 "abc" "" "" "" "" "" 0%Q]
              db_abc_deleted "abc" (Database.deactivate row_abc))
    as (row' & _ & _ & _ & H & _).
  - vm_compute. reflexivity.
  - reflexivity.
  - repeat constructor; discriminate.
  - exact (H 7).
Defined.

(** ** [update_url] on a stored link *)

(** X10. [update_url] with at least one field, on a working connection, changes
    the row of the code and no other: the supplied columns take the new
    values, the columns not supplied and [id], [short_code], [custom],
    [created_at], [is_active] and [password] stay; the other rows and the
    ledger stay. *)
Theorem update_url_changes_supplied (c : string) (original_url notes tags : option string)
    (expires_at : option Timestamp) (db : Database) (row : Urls.row) :
  conn_ok db = true →
  urls db !! c = Some row →
  Database.supplied original_url || Database.supplied notes || Database.supplied tags
    || Database.supplied expires_at = true →
  let db' := (URLShortener.update_url c original_url notes tags expires_at db).2 in
  (URLShortener.update_url c original_url notes tags expires_at db).1 = true ∧
  (∃ row',
     urls db' !! c = Some row' ∧
     Urls.original_url row' = default (Urls.original_url row) original_url ∧
     Urls.notes row' = default (Urls.notes row) notes ∧
     Urls.tags row' = default (Urls.tags row) tags ∧
     Urls.expires_at row' = from_option Some (Urls.expires_at row) expires_at ∧
     Urls.id row' = Urls.id row ∧ Urls.short_code row' = Urls.short_code row ∧
     Urls.custom row' = Urls.custom row ∧ Urls.created_at row' = Urls.created_at row ∧
     Urls.is_active row' = Urls.is_active row ∧ Urls.password row' = Urls.password row) ∧
  (∀ c', c' ≠ c → urls db' !! c' = urls db !! c') ∧
  clicks db' = clicks db.
Proof.
  intros Hok Hc Hsup db'.
  unfold db', URLShortener.update_url, Database.update_url, try_sql.
  rewrite Hok, Hsup. simpl. split_and!; [done| |..|done].
  - rewrite lookup_alter_eq, Hc. simpl. eexists. split; [done|].
    destruct expires_at; done.
  - intros c' Hc'. by rewrite lookup_alter_ne by congruence.
Qed.

Lemma update_url_changes_supplied_witness :
  ∃ row',
    urls (URLShortener.update_url "abc" None (Some "memo") None None db_abc).2 !! "abc"
      = Some row' ∧
    Urls.notes row' = "memo" ∧ Urls.original_url row' = url_page.
Proof.
  destruct (update_url_changes_supplied "abc" None (Some "memo") None None db_abc row_abc)
    as (_ & (row' & H1 & H2 & H3 & _) & _).
  - reflexivity.
  - vm_compute. reflexivity.
  - reflexivity.
  - exists row'. split; [exact H1|]. split; [exact H3 | exact H2].
Defined.

(** * Further properties of the request path *)

Lemma lstrip_slash_app_query (p q : string) :
  Str.lstrip_slash (p +:+ String "?" q) = Str.lstrip_slash p +:+ String "?" q.
Proof.
  induction p as [|ch p IH]; [done|]. simpl.
  destruct (Ascii.eqb ch "/"); [exact IH | done].
Qed.

Lemma before_char_app (c : ascii) (a q : string) :
  Str.before_char c (a +:+ String c q) = Str.before_char c a.
Proof.
  induction a as [|ch a IH]; simpl.
  - by rewrite Ascii.eqb_refl.
  - destruct (Ascii.eqb ch c); [done|]. by rewrite IH.
Qed.

Lemma before_char_absent (c : ascii) (a : string) :
  Str.contains_char c a = false → Str.before_char c a = a.
Proof.
  induction a as [|ch a IH]; simpl; [done|].
  destruct (Ascii.eqb ch c); [done|]. simpl. intros H. by rewrite IH.
Qed.

Lemma before_char_clean (c : ascii) (a : string) :
  Str.contains_char c (Str.before_char c a) = false.
Proof.
  induction a as [|ch a IH]; simpl; [done|].
  destruct (Ascii.eqb ch c) eqn:E; [done|]. simpl. by rewrite E.
Qed.

Lemma contains_char_app (c : ascii) (a b : string) :
  Str.contains_char c (a +:+ b) = Str.contains_char c a || Str.contains_char c b.
Proof.
  induction a as [|ch a IH]; simpl; [done|]. by rewrite IH, orb_assoc.
Qed.

Lemma parse_path_before (p : string) :
  URLRedirectHandler.parse_path p = Str.before_char "?" (Str.lstrip_slash p).
Proof.
  unfold URLRedirectHandler.parse_path.
  destruct (Str.contains_char "?" (Str.lstrip_slash p)) eqn:E; [done|].
  by rewrite before_char_absent.
Qed.

Lemma lstrip_slash_head (p : string) :
  Str.startswith "/" (Str.before_char "?" (Str.lstrip_slash p)) = false.
Proof.
  induction p as [|ch p IH]; [done|]. cbn -[Ascii.eqb].
  destruct (Ascii.eqb ch "/") eqn:E; [done|]. cbn -[Ascii.eqb].
  destruct (Ascii.eqb ch "?"); [done|]. cbn -[Ascii.eqb].
  rewrite Ascii.eqb_sym, E. done.
Qed.

Section request_path.

Variable get_ip_info : string → option GeoInfo.
Variable parse_user_agent : string → option UaInfo.

Local Abbreviation do_GET := (URLRedirectHandler.do_GET get_ip_info parse_user_agent).

(** X11. The code that [do_GET] looks up has no leading slash and no question
    mark, and the answer does not depend on the query string or on extra
    leading slashes of the request path. *)
Theorem do_GET_ignores_query_and_slashes (p q client : string) (ua : option string)
    (clk : Clock) (db : Database) :
  Str.contains_char "?" (URLRedirectHandler.parse_path p) = false ∧
  Str.startswith "/" (URLRedirectHandler.parse_path p) = false ∧
  URLRedirectHandler.parse_path (String "/" p +:+ String "?" q)
    = URLRedirectHandler.parse_path p ∧
  do_GET {| path := String "/" p +:+ String "?" q; client_address := client;
            user_agent := ua |} clk db
    = do_GET {| path := p; client_address := client; user_agent := ua |} clk db.
Proof.
  assert (URLRedirectHandler.parse_path (String "/" p +:+ String "?" q)
          = URLRedirectHandler.parse_path p) as Hp.
  { rewrite !parse_path_before.
    change (Str.lstrip_slash (String "/" p +:+ String "?" q))
      with (Str.lstrip_slash (p +:+ String "?" q)).
    by rewrite lstrip_slash_app_query, before_char_app. }
  split_and!.
  - rewrite parse_path_before. apply before_char_clean.
  - rewrite parse_path_before. apply lstrip_slash_head.
  - done.
  - unfold URLRedirectHandler.do_GET. cbn [path]. rewrite Hp.
    set (c := URLRedirectHandler.parse_path p).
    destruct (String.eqb c "" || String.eqb c "index.html"); [done|].
    destruct (Str.startswith "api/" c); done.
Qed.

(** X12. What one request does to the store. Table [urls] and the state of
    the connection are never changed. The handler passes 301, 200 or 404 to
    [send_response] or [send_error]; with 200 and 404 the whole store is as
    it was. The ledger is as it was or has gained one event, for the
    looked-up code. On a working connection, 301 comes with exactly one new
    event, and the looked-up code then resolves. *)
Theorem do_GET_effect (req : Request) (clk : Clock) (db : Database) :
  let resp := (do_GET req clk db).1 in
  let db' := (do_GET req clk db).2 in
  let code := URLRedirectHandler.parse_path (path req) in
  urls db' = urls db ∧ conn_ok db' = conn_ok db ∧
  (status resp = 301%nat ∨ status resp = 200%nat ∨ status resp = 404%nat) ∧
  (status resp ≠ 301%nat → db' = db) ∧
  (clicks db' = clicks db ∨
   ∃ e, clicks db' = clicks db ++ [e] ∧ Clicks.short_code e = code) ∧
  (conn_ok db = true → status resp = 301%nat →
   ∃ e row, clicks db' = clicks db ++ [e] ∧ Clicks.short_code e = code ∧
            resolves db (datetime_now clk) code row).
Proof.
  unfold URLRedirectHandler.do_GET. set (c := URLRedirectHandler.parse_path (path req)).
  destruct (String.eqb c "" || String.eqb c "index.html").
  { simpl. split_and!; [done|done|by right; left|done|by left|done]. }
  destruct (Str.startswith "api/" c).
  { pose proof (handle_api_pure c db) as Hpure.
    destruct (URLRedirectHandler.handle_api c db) as [resp db'] eqn:E.
    simpl in *. subst db'.
    assert (status resp = 200%nat ∨ status resp = 404%nat) as Hst.
    { revert E. unfold URLRedirectHandler.handle_api, bind, ret.
      destruct (String.eqb _ _).
      - destruct (Database.get_statistics db). intros [= <- _]. by left.
      - intros [= <-]. by right. }
    split_and!; [done|done| |done|by left|].
    - destruct Hst; [right; by left | right; by right].
    - intros _ H. destruct Hst; congruence. }
  destruct (Database.get_url (datetime_now clk) c db).1 as [row|] eqn:Hg.
  - apply get_url_Some in Hg as [Hok Hr].
    destruct (handle_redirect_found get_ip_info parse_user_agent req clk c db row Hok Hr)
      as (e & db' & -> & Hcl & Hec & Hu & Hok').
    simpl. split_and!; [done|congruence|by left|done|right; eauto|eauto].
  - rewrite (handle_redirect_not_found get_ip_info parse_user_agent req clk c db Hg).
    simpl. split_and!; [done|done|by right; right|done|by left|done].
Qed.

End request_path.

(** * Further properties of [shorten_url] *)

Section service.

Variable validate_url : string → Validation.
Variable is_blacklisted : string → bool.
Variable check_dns_resolution : string → bool.
Variable check_url_active : string → bool.
Variable get_ip_info : string → option GeoInfo.
Variable parse_user_agent : string → option UaInfo.

Local Abbreviation shorten_url :=
  (URLShortener.shorten_url validate_url is_blacklisted check_dns_resolution
     check_url_active).
Local Abbreviation do_GET := (URLRedirectHandler.do_GET get_ip_info parse_user_agent).

(** The two outcomes of the part of [shorten_url] after the URL checks. *)
Lemma shorten_checked_outcome fuel rng now ts url custom exp notes tags db res db' :
  URLShortener.shorten_checked fuel rng now ts url custom exp notes tags db
    = (Some res, db') →
  (∃ msg, res = URLShortener.failed msg ∧ db' = db ∧
          msg ≠ config.ERROR_MESSAGES.invalid_url) ∨
  (∃ c, res = {| success := true; short_code := Some c;
                 shortened_url := Some (config.CUSTOM_DOMAIN +:+ "/" +:+ c);
                 error := None |} ∧
        Str.isalnum c = true ∧ conn_ok db = true ∧ urls db !! c = None ∧
        (Str.truthy (default "" custom) = true → custom = Some c) ∧
        db' = {| conn_ok := true;
                 urls := <[c := {| Urls.id := S (urls_seq db); Urls.short_code := c;
                                   Urls.original_url := url;
                                   Urls.custom := Str.truthy (default "" custom);
                                   Urls.created_at := ts;
                                   Urls.expires_at := expiration now exp;
                                   Urls.is_active := true; Urls.notes := notes;
                                   Urls.tags := tags; Urls.password := None |}]> (urls db);
                 clicks := clicks db; urls_seq := S (urls_seq db);
                 clicks_seq := clicks_seq db |}).
Proof.
  assert (∀ c cu db1 res1 db2,
            Str.isalnum c = true →
            (let* ok := Database.insert_url ts c url cu (expiration now exp) notes tags in
             if ok then
               ret (Some {| success := true; short_code := Some c;
                            shortened_url := Some (config.CUSTOM_DOMAIN +:+ "/" +:+ c);
                            error := None |})
             else ret (Some (URLShortener.failed config.ERROR_MESSAGES.database_error)))
              db1 = (Some res1, db2) →
            (∃ msg, res1 = URLShortener.failed msg ∧ db2 = db1 ∧
                    msg ≠ config.ERROR_MESSAGES.invalid_url) ∨
            (res1 = {| success := true; short_code := Some c;
                       shortened_url := Some (config.CUSTOM_DOMAIN +:+ "/" +:+ c);
                       error := None |} ∧
             conn_ok db1 = true ∧ urls db1 !! c = None ∧
             db2 = {| conn_ok := true;
                      urls := <[c := {| Urls.id := S (urls_seq db1); Urls.short_code := c;
                                        Urls.original_url := url; Urls.custom := cu;
                                        Urls.created_at := ts;
                                        Urls.expires_at := expiration now exp;
                                        Urls.is_active := true; Urls.notes := notes;
                                        Urls.tags := tags; Urls.password := None |}]>
                                (urls db1);
                      clicks := clicks db1; urls_seq := S (urls_seq db1);
                      clicks_seq := clicks_seq db1 |})) as Hins.
  { intros c cu db1 res1 db2 Hal. unfold bind, Database.insert_url, try_sql, ret.
    destruct (conn_ok db1) eqn:Hok; [|intros [= <- <-]; left; by eexists].
    destruct (urls db1 !! c) eqn:Hc; [intros [= <- <-]; left; by eexists|].
    intros [= <- <-]. right. done. }
  unfold URLShortener.shorten_checked. fold (expiration now exp).
  destruct custom as [[|ch rest]|].
  - unfold bind at 1.
    destruct (URLShortener.generate_short_code fuel rng 0 now db) as [[code|] db1] eqn:Hg;
      [|done].
    apply generate_sound in Hg as (-> & n & _ & -> & _).
    intros [(msg & ? & ? & ?)|(? & ? & ? & ?)]%Hins; [left; eauto|right|apply drawn_isalnum].
    eexists. split_and!; [done|apply drawn_isalnum|done..].
  - set (k := String ch rest).
    destruct (config.MAX_CUSTOM_LENGTH <? String.length k)%nat;
      [intros [= <- <-]; left; by eexists|].
    destruct (Str.isalnum k) eqn:Hal; simpl; [|intros [= <- <-]; left; by eexists].
    unfold bind at 1. rewrite get_url_eq.
    destruct (Database.get_url now k db).1; [intros [= <- <-]; left; by eexists|].
    intros [(msg & ? & ? & ?)|(? & ? & ? & ?)]%Hins; [left; eauto|right|done].
    exists k. split_and!; done.
  - unfold bind at 1.
    destruct (URLShortener.generate_short_code fuel rng 0 now db) as [[code|] db1] eqn:Hg;
      [|done].
    apply generate_sound in Hg as (-> & n & _ & -> & _).
    intros [(msg & ? & ? & ?)|(? & ? & ? & ?)]%Hins; [left; eauto|right|apply drawn_isalnum].
    eexists. split_and!; [done|apply drawn_isalnum|done..].
Qed.

Lemma shorten_url_rejection fuel rng now ts url custom exp notes tags validate db :
  (∃ msg, shorten_url fuel rng now ts url custom exp notes tags validate db
            = (Some (URLShortener.failed msg), db) ∧
          msg ≠ config.ERROR_MESSAGES.invalid_url) ∨
  shorten_url fuel rng now ts url custom exp notes tags validate db =
  URLShortener.shorten_checked fuel rng now ts url custom exp notes tags db.
Proof.
  unfold URLShortener.shorten_url, URLShortener.dict_truthy. cbn [negb].
  destruct (is_blacklisted url); [left; by eexists|].
  destruct (validate && config.CHECK_URL_ACTIVE && negb (check_dns_resolution url));
    [left; by eexists|].
  destruct (validate && config.CHECK_URL_ACTIVE && negb (check_url_active url));
    [left; by eexists|].
  by right.
Qed.

(** X13. [shorten_url], whenever it returns, has one of two outcomes. Either it
    fails: [success] is false, an error is set, no code is returned and the
    store is unchanged. Or it succeeds: it returns an alphanumeric code
    that no row had, with the short URL built from it, and the store gains
    exactly the row of that code, active, with the URL as given and the
    expiration computed from [expires_days]; the ledger stays. The error
    is never [invalid_url]. *)
Theorem shorten_url_outcome (fuel : nat) (rng : Rng) (now ts : Timestamp)
    (url : string) (custom : option string) (exp : option Z) (notes tags : string)
    (validate : bool) (db : Database) (res : ShortenResult) (db' : Database) :
  shorten_url fuel rng now ts url custom exp notes tags validate db = (Some res, db') →
  error res ≠ Some config.ERROR_MESSAGES.invalid_url ∧
  ((success res = false ∧ is_Some (error res) ∧ short_code res = None ∧
    shortened_url res = None ∧ db' = db) ∨
   (success res = true ∧ error res = None ∧
    ∃ c row,
      short_code res = Some c ∧
      shortened_url res = Some (config.CUSTOM_DOMAIN +:+ "/" +:+ c) ∧
      Str.isalnum c = true ∧
      urls db !! c = None ∧ urls db' = <[c := row]> (urls db) ∧
      Urls.short_code row = c ∧ Urls.original_url row = url ∧
      Urls.is_active row = true ∧ Urls.expires_at row = expiration now exp ∧
      Urls.notes row = notes ∧ Urls.tags row = tags ∧
      Urls.custom row = Str.truthy (default "" custom) ∧
      clicks db' = clicks db)).
Proof.
  destruct (shorten_url_rejection fuel rng now ts url custom exp notes tags validate db)
    as [(m & Hm & Hne)|Hm]; rewrite Hm.
  - intros [= <- <-]. split; [simpl; congruence|]. left. split_and!; by eauto.
  - intros [(msg & -> & -> & Hne)|(c & -> & Hal & Hok & Hc & _ & ->)]%shorten_checked_outcome.
    + split; [simpl; congruence|]. left. split_and!; by eauto.
    + split; [done|]. right. split_and!; [done..|].
      eexists c, _. simpl. split_and!; first [reflexivity | done].
Qed.

(** The dictionary that [validate_url] returns is never empty, so its
    verdict is not read: [shorten_url] returns the same result and the same
    store whatever [validate_url] answers. *)
Theorem shorten_url_ignores_validate_url (other_validate_url : string → Validation)
    (fuel : nat) (rng : Rng) (now ts : Timestamp) (url : string)
    (custom : option string) (exp : option Z) (notes tags : string) (validate : bool)
    (db : Database) :
  shorten_url fuel rng now ts url custom exp notes tags validate db =
  URLShortener.shorten_url other_validate_url is_blacklisted check_dns_resolution
    check_url_active fuel rng now ts url custom exp notes tags validate db.
Proof. reflexivity. Qed.

(** X14. Create, then look up. After a successful [shorten_url] that
    returned code [c], at every reading of the clock [get_url] finds the
    link exactly when its expiration, if any, has not passed, and
    [get_original_url] then returns the URL as it was given; a call with
    [expires_days] 0 stores no expiration, and one with negative
    [expires_days] stores a link that is never found. *)
Theorem shorten_url_then_get_url (fuel : nat) (rng : Rng) (now ts : Timestamp)
    (url : string) (custom : option string) (exp : option Z) (notes tags : string)
    (validate : bool) (db : Database) (res : ShortenResult) (db' : Database)
    (c : string) :
  shorten_url fuel rng now ts url custom exp notes tags validate db = (Some res, db') →
  short_code res = Some c →
  (∀ now', is_Some (Database.get_url now' c db').1 ↔
           ∀ d, exp = Some d → d ≠ 0 → now' ≤ now + d * DAY) ∧
  (∀ now', (URLShortener.get_original_url now' c db').1 =
           if bool_decide (is_Some (Database.get_url now' c db').1) then Some url else None) ∧
  (∀ d now', exp = Some d → d < 0 → now ≤ now' →
             (Database.get_url now' c db').1 = None).
Proof.
  intros Hs Hc.
  assert (∃ row, urls db' !! c = Some row ∧ conn_ok db' = true ∧ Str.isalnum c = true ∧
            Urls.is_active row = true ∧ Urls.original_url row = url ∧
            Urls.expires_at row = expiration now exp)
    as (row & Hrow & Hok & Hal & Ha & Hu & He).
  { destruct (shorten_url_rejection fuel rng now ts url custom exp notes tags validate db)
      as [(m & Hm & _)|Hm]; rewrite Hm in Hs.
    { injection Hs as <- <-. done. }
    apply shorten_checked_outcome in Hs
      as [(msg & -> & _)|(c' & -> & ? & ? & ? & _ & ->)]; [done|].
    injection Hc as <-. eexists. simpl. rewrite lookup_insert_eq. done. }
  assert (∀ now', (∀ t, Urls.expires_at row = Some t → now' ≤ t) ↔
                  (∀ d, exp = Some d → d ≠ 0 → now' ≤ now + d * DAY)) as Hexp.
  { intros now'. rewrite He. unfold expiration. destruct exp as [d|]; [|done].
    destruct (Z.eqb_spec d 0) as [->|Hd].
    - split; [intros _ ? [= <-] ?; done | done].
    - split.
      + intros H d' [= <-] _. by apply H.
      + intros H t [= <-]. by apply H. }
  assert (∀ now', (∀ d, exp = Some d → d ≠ 0 → now' ≤ now + d * DAY) →
                  (Database.get_url now' c db').1 = Some row) as Hfound.
  { intros now' H. apply get_url_Some. split; [done|]. split; [done|].
    split; [done|]. by apply Hexp. }
  split_and!.
  - intros now'. split.
    + intros [r Hr]. apply get_url_Some in Hr as (_ & Hr & _ & Hx).
      rewrite Hrow in Hr. injection Hr as <-. by apply Hexp.
    + intros H. rewrite (Hfound now' H). eauto.
  - intros now'. unfold URLShortener.get_original_url, bind, ret. rewrite get_url_eq.
    destruct (Database.get_url now' c db').1 as [r|] eqn:Hr.
    + rewrite bool_decide_true by eauto.
      apply get_url_Some in Hr as (_ & Hr & _). rewrite Hrow in Hr. injection Hr as <-.
      simpl. by rewrite Hu.
    + rewrite bool_decide_false; [done|]. by intros [? ?].
  - intros d now' -> Hd Hle. apply get_url_None. right. intros r (Hr & _ & Hx).
    rewrite Hrow in Hr. injection Hr as <-.
    assert (now' ≤ now + d * DAY) as Hbad
      by (apply (proj1 (Hexp now') Hx d); [done|lia]).
    unfold DAY in Hbad. lia.
Qed.

End service.

Lemma shorten_url_outcome_witness :
  urls db_abc = <[ "abc" := row_abc ]> (urls Database.init).
Proof.
  destruct (shorten_url_outcome validate_ok not_blacklisted reachable reachable
              8 rng_zero 0 0 url_page (Some "abc") None "" "" true Database.init
              {| success := true; short_code := Some "abc";
                 shortened_url := Some "http://localhost:8080/abc"; error := None |}
              db_abc)
    as (_ & [(H & _)|(_ & _ & c & row & _)]).
  - vm_compute. reflexivity.
  - discriminate H.
  - vm_compute. reflexivity.
Defined.


(** On [db_abc], created without expiration, the URL is found at any time;
    on [db_abc_expired], created with [expires_days = -1], the link is
    never found. *)
Lemma shorten_url_then_get_url_witness :
  (URLShortener.get_original_url 5 "abc" db_abc).1 = Some url_page ∧
  (Database.get_url 0 "abc" db_abc_expired).1 = None.
Proof.
  split.
  - rewrite (proj1 (proj2
              (shorten_url_then_get_url validate_ok not_blacklisted reachable reachable
                 8 rng_zero 0 0 url_page (Some "abc") None "" "" true Database.init
                 {| success := true; short_code := Some "abc";
                    shortened_url := Some "http://localhost:8080/abc"; error := None |}
                 db_abc "abc" eq_refl eq_refl)) 5).
    reflexivity.
  - refine (proj2 (proj2
              (shorten_url_then_get_url validate_ok not_blacklisted reachable reachable
                 8 rng_zero 0 0 url_page (Some "abc") (Some (-1)) "" "" true Database.init
                 {| success := true; short_code := Some "abc";
                    shortened_url := Some "http://localhost:8080/abc"; error := None |}
                 db_abc_expired "abc" eq_refl eq_refl)) (-1) 0 eq_refl _ _); lia.
Defined.

(** * Lookups after folds of updates *)

Lemma set_urls_set_urls m1 m2 db : set_urls m2 (set_urls m1 db) = set_urls m2 db.
Proof. done. Qed.

Lemma lookup_foldl_alter (f : Urls.row → Urls.row) (l : list Urls.row) :
  (∀ r, f (f r) = f r) →
  ∀ (m : gmap string Urls.row) c,
    foldl (λ m r, alter f (Urls.short_code r) m) m l !! c =
    (if decide (c ∈ Urls.short_code <$> l) then f else id) <$> m !! c.
Proof.
  intros Hf. induction l as [|r l IH]; intros m c.
  - simpl. destruct (decide (c ∈ [])) as [Hin|_]; [by apply elem_of_nil in Hin|].
    by destruct (m !! c).
  - rewrite fmap_cons. simpl. rewrite IH.
    destruct (decide (c ∈ Urls.short_code r :: (Urls.short_code <$> l))) as [Hin|Hin];
      destruct (decide (c ∈ Urls.short_code <$> l)) as [Hin'|Hin'].
    + rewrite lookup_alter. case_decide; [subst|done].
      destruct (m !! Urls.short_code r); simpl; by rewrite ?Hf.
    + apply elem_of_cons in Hin as [->|?]; [|done].
      rewrite lookup_alter_eq. by destruct (m !! Urls.short_code r).
    + destruct Hin. by apply list_elem_of_further.
    + rewrite lookup_alter_ne; [by destruct (m !! c)|].
      intros <-. apply Hin, list_elem_of_here.
Qed.

Lemma get_url_value now c db :
  (Database.get_url now c db).1 =
  if conn_ok db then
    match urls db !! c with
    | Some row => if Urls.is_active row && negb (Database.expired now row)
                  then Some row else None
    | None => None
    end
  else None.
Proof.
  unfold Database.get_url, try_sql. destruct (conn_ok db); [|done].
  destruct (urls db !! c) as [row|]; [|done].
  destruct (Urls.is_active row); [|done]. by destruct (Database.expired now row).
Qed.

(** * Search *)

Lemma like_percent (p t : string) :
  Database.like_match (String "%" p) t =
  Database.like_match p t
  || match t with
     | EmptyString => false
     | String _ t' => Database.like_match (String "%" p) t'
     end.
Proof. by destruct t. Qed.

Lemma like_percent_skip (p a t : string) :
  Database.like_match p t = true → Database.like_match (String "%" p) (a +:+ t) = true.
Proof.
  intros H. induction a as [|ch a IH].
  - change ("" +:+ t) with t. rewrite like_percent, H. done.
  - change (String ch a +:+ t) with (String ch (a +:+ t)).
    rewrite like_percent, IH. apply orb_true_r.
Qed.

Lemma like_percent_all (t : string) : Database.like_match "%" t = true.
Proof.
  induction t as [|ch t IH]; [done|]. rewrite like_percent, IH. apply orb_true_r.
Qed.

Lemma like_literal (term : string) :
  ∀ found p rest,
    String.length found = String.length term →
    (∀ i, Database.like_fold <$> String.get i found
          = Database.like_fold <$> String.get i term) →
    Database.like_match p rest = true →
    Database.like_match (term +:+ p) (found +:+ rest) = true.
Proof.
  induction term as [|c term IH]; intros [|d found] p rest Hlen Hfold Hp; try done.
  assert (Database.like_match (term +:+ p) (found +:+ rest) = true) as Htail.
  { apply IH; [by injection Hlen| |done]. intros i. apply (Hfold (S i)). }
  pose proof (Hfold 0%nat) as H0. simpl in H0. injection H0 as H0.
  change (String c term +:+ p) with (String c (term +:+ p)).
  change (String d found +:+ rest) with (String d (found +:+ rest)).
  destruct (Ascii.eqb c "%") eqn:Ec.
  - apply Ascii.eqb_eq in Ec as ->.
    apply (like_percent_skip _ (String d EmptyString) _ Htail).
  - cbn -[Ascii.eqb Database.like_fold]. rewrite Ec, H0, Ascii.eqb_refl, orb_true_r. done.
Qed.

Lemma like_contains (term text : string) :
  contains_term term text → Database.like_match ("%" +:+ term +:+ "%") text = true.
Proof.
  intros (before & found & after & -> & Hlen & Hfold).
  change ("%" +:+ term +:+ "%") with (String "%" (term +:+ "%")).
  apply like_percent_skip, like_literal; [done..|]. apply like_percent_all.
Qed.

Lemma utf8_length_pattern (term : string) :
  Database.utf8_length (String "%" (term +:+ "%")) = Database.utf8_length term + 2.
Proof.
  change (Database.utf8_length (String "%" (term +:+ "%")))
    with (1 + Database.utf8_length (term +:+ "%")).
  induction term as [|ch term IH]; [done|].
  change (String ch term +:+ "%") with (String ch (term +:+ "%")).
  cbn [Database.utf8_length]. lia.
Qed.

Lemma like_percent_inv (p : string) :
  ∀ t, Database.like_match (String "%" p) t = true →
       ∃ a b, t = a +:+ b ∧ Database.like_match p b = true.
Proof.
  induction t as [|ch t IH]; rewrite like_percent.
  - rewrite orb_false_r. intros H. by exists "", "".
  - intros [H|H]%orb_prop.
    + by exists "", (String ch t).
    + destruct (IH H) as (a & b & -> & Hb). by exists (String ch a), b.
Qed.

Lemma like_literal_inv (term : string) :
  plain_term term →
  ∀ t, Database.like_match (term +:+ "%") t = true →
       ∃ found after, t = found +:+ after ∧
         String.length found = String.length term ∧
         ∀ i, Database.like_fold <$> String.get i found
              = Database.like_fold <$> String.get i term.
Proof.
  induction term as [|c term IH]; intros [Hp Hu] t.
  - intros _. by exists "", t.
  - simpl in Hp, Hu. apply orb_false_elim in Hp as [Hc Hp].
    apply orb_false_elim in Hu as [Hc' Hu].
    change (String c term +:+ "%") with (String c (term +:+ "%")).
    cbn -[Ascii.eqb Database.like_fold]. rewrite Hc.
    destruct t as [|d t]; [done|]. rewrite Hc'. cbn [orb].
    intros [Hcd Ht]%andb_prop. apply Ascii.eqb_eq in Hcd.
    destruct (IH (conj Hp Hu) t Ht) as (found & after & -> & Hlen & Hfold).
    exists (String d found), after. split; [done|]. split; [simpl; by rewrite Hlen|].
    intros [|i]; simpl; [by rewrite Hcd | apply Hfold].
Qed.

Lemma like_contains_inv (term text : string) :
  plain_term term →
  Database.like_match ("%" +:+ term +:+ "%") text = true → contains_term term text.
Proof.
  intros Hplain. change ("%" +:+ term +:+ "%") with (String "%" (term +:+ "%")).
  intros (before & rest & -> & Hrest)%like_percent_inv.
  destruct (like_literal_inv term Hplain rest Hrest) as (found & after & -> & Hlen & Hfold).
  by exists before, found, after.
Qed.

Lemma like_match_any (t : string) : Database.like_match "%%" t = true.
Proof.
  change "%%"%string with (String "%" "%").
  apply (like_percent_skip "%" "" t), like_percent_all.
Qed.

Lemma c_string_pattern (term : string) :
  Str.contains_char "000" term = false →
  Database.c_string (String "%" (term +:+ "%")) = String "%" (term +:+ "%").
Proof.
  intros Hterm. apply before_char_absent.
  change (Str.contains_char "000" (String "%" (term +:+ "%")))
    with (Str.contains_char "000" (term +:+ "%")).
  rewrite contains_char_app, Hterm. reflexivity.
Qed.

(** X15. [search_urls] on a working connection: the rows come newest first and
    all are active rows of the table. [LIKE] reads a text up to its first
    NUL character: when the pattern is within SQLite's length limit and
    the search term has no NUL character, every active row whose short
    code, URL, notes or tags contain the search term before their first
    NUL character, up to the case of ASCII letters, is among the rows; and
    when the term also has none of the wildcards [%] and [_], these are all
    the rows. The empty term returns the same rows as [get_all_urls()]. *)
Theorem search_urls_result (term : string) (db : Database) :
  conn_ok db = true →
  let rows := (URLShortener.search_urls term db).1 in
  let seen (text : string) := Str.before_char "000" text in
  Sorted Database.newer_first rows ∧
  (∀ r, r ∈ rows → Urls.is_active r = true ∧ ∃ k, urls db !! k = Some r) ∧
  (Database.utf8_length term + 2 ≤ Database.SQLITE_MAX_LIKE_PATTERN_LENGTH →
   Str.contains_char "000" term = false →
   ∀ k r, urls db !! k = Some r → Urls.is_active r = true →
          contains_term term (seen (Urls.short_code r)) ∨
          contains_term term (seen (Urls.original_url r)) ∨
          contains_term term (seen (Urls.notes r)) ∨
          contains_term term (seen (Urls.tags r)) →
          r ∈ rows) ∧
  (Database.utf8_length term + 2 ≤ Database.SQLITE_MAX_LIKE_PATTERN_LENGTH →
   Str.contains_char "000" term = false →
   plain_term term →
   ∀ r, r ∈ rows →
        contains_term term (seen (Urls.short_code r)) ∨
        contains_term term (seen (Urls.original_url r)) ∨
        contains_term term (seen (Urls.notes r)) ∨
        contains_term term (seen (Urls.tags r))) ∧
  (term = "" → rows = (Database.get_all_urls false db).1) ∧
  (URLShortener.search_urls term db).2 = db.
Proof.
  intros Hok rows seen.
  unfold rows, URLShortener.search_urls, Database.search_urls, try_sql. rewrite Hok.
  change ("%" +:+ term +:+ "%") with (String "%" (term +:+ "%")).
  rewrite utf8_length_pattern.
  destruct (Z.ltb_spec Database.SQLITE_MAX_LIKE_PATTERN_LENGTH
              (Database.utf8_length term + 2)) as [Hlong|Hfits]; simpl fst; simpl snd.
  { split_and!; [apply Sorted_nil | by intros r ?%elem_of_nil | lia | lia | | done].
    intros ->. simpl in Hlong. unfold Database.SQLITE_MAX_LIKE_PATTERN_LENGTH in Hlong.
    lia. }
  split_and!.
  - apply (Sorted_merge_sort _).
  - intros r. rewrite merge_sort_Permutation, list_elem_of_filter, list_elem_of_fmap.
    intros [[_ Ha]%andb_prop ([k r'] & -> & Hr%elem_of_map_to_list)]. eauto.
  - intros _ Hterm k r Hr Ha Hc.
    rewrite merge_sort_Permutation, list_elem_of_filter, list_elem_of_fmap.
    split; [|exists (k, r); by rewrite elem_of_map_to_list].
    unfold Database.search_matches, Database.like.
    rewrite (c_string_pattern term Hterm), Ha, andb_true_r.
    destruct Hc as [H|[H|[H|H]]]; apply like_contains in H;
      change ("%" +:+ term +:+ "%") with (String "%" (term +:+ "%")) in H;
      unfold seen in H; fold (Database.c_string (Urls.short_code r)) in H;
      fold (Database.c_string (Urls.original_url r)) in H;
      fold (Database.c_string (Urls.notes r)) in H;
      fold (Database.c_string (Urls.tags r)) in H; rewrite H;
      by rewrite ?orb_true_r.
  - intros _ Hterm Hplain r.
    rewrite merge_sort_Permutation, list_elem_of_filter.
    unfold Database.search_matches, Database.like.
    rewrite (c_string_pattern term Hterm).
    change (String "%" (term +:+ "%")) with ("%" +:+ term +:+ "%").
    intros [[Hm _]%andb_prop _].
    apply orb_prop in Hm as [Hm|Hm]; [|right; right; right; by apply like_contains_inv].
    apply orb_prop in Hm as [Hm|Hm]; [|right; right; left; by apply like_contains_inv].
    apply orb_prop in Hm as [Hm|Hm]; [left|right; left]; by apply like_contains_inv.
  - intros ->. unfold Database.get_all_urls, try_sql. rewrite Hok. simpl. f_equal.
    apply list_filter_iff. intros r. unfold Database.search_matches, Database.like.
    change (Database.c_string ("%" +:+ "" +:+ "%")) with "%%"%string.
    rewrite !like_match_any. simpl. by destruct (Urls.is_active r).
  - done.
Qed.

(** On [db_abc]: the term [EXAMPLE] finds the link by its URL. *)
Lemma search_urls_result_witness :
  row_abc ∈ (URLShortener.search_urls "EXAMPLE" db_abc).1.
Proof.
  refine (proj1 (proj2 (proj2 (search_urls_result "EXAMPLE" db_abc _))) _ _
            "abc" row_abc _ _ _).
  - reflexivity.
  - vm_compute. discriminate.
  - reflexivity.
  - vm_compute. reflexivity.
  - reflexivity.
  - right. left. exists "https://", "example", ".com/page".
    split; [reflexivity|]. split; [reflexivity|].
    intros i. do 8 (destruct i as [|i]; [reflexivity|]). reflexivity.
Defined.

(** * The server manager *)

(** X16. Whatever calls of [start] and [stop] were made on a new [URLServer]:
    while [is_running] is true the listening socket is open. [start]
    succeeds exactly when the server is not running, the address can be
    bound and the thread can be started; after a success the server is
    running; a [start] on a running server changes nothing. [stop] always
    leaves the server stopped: it closes the socket of a running server,
    and changes nothing when the server was stopped. *)
Theorem server_lifecycle (calls : list ServerCall) :
  let s := foldl server_call URLServer.init calls in
  (URLServer.is_running s = true → server s = Some true) ∧
  (∀ bind_ok thread_ok,
     (URLServer.start bind_ok thread_ok s).1
       = negb (URLServer.is_running s) && bind_ok && thread_ok) ∧
  (∀ bind_ok thread_ok,
     (URLServer.start bind_ok thread_ok s).1 = true →
     URLServer.is_running (URLServer.start bind_ok thread_ok s).2 = true) ∧
  (∀ bind_ok thread_ok,
     URLServer.is_running s = true → URLServer.start bind_ok thread_ok s = (false, s)) ∧
  URLServer.is_running (URLServer.stop s) = false ∧
  (URLServer.is_running s = true → server (URLServer.stop s) = Some false) ∧
  (URLServer.is_running s = false → URLServer.stop s = s).
Proof.
  simpl.
  assert (running (foldl server_call URLServer.init calls) = true →
          server (foldl server_call URLServer.init calls) = Some true) as Hinv.
  { induction calls as [|call calls IH] using rev_ind; [done|].
    rewrite foldl_app. simpl. set (s := foldl server_call URLServer.init calls) in *.
    destruct call as [b t|]; simpl.
    - unfold URLServer.start. destruct (running s) eqn:Hr; simpl; [by rewrite Hr|].
      destruct b; simpl; [|by rewrite Hr]. by destruct t.
    - unfold URLServer.stop. destruct (running s) eqn:Hr; simpl; [|by rewrite Hr].
      destruct (server s) eqn:Hs; simpl; [done|]. by specialize (IH eq_refl). }
  set (s := foldl server_call URLServer.init calls) in *.
  unfold URLServer.is_running, URLServer.start, URLServer.stop.
  destruct (running s) eqn:Hr; simpl.
  - rewrite (Hinv eq_refl). done.
  - split_and!; try done.
    + by intros [] [].
    + by intros [] [].
Qed.

(** * [truncate_text] *)

Lemma take_length (n : nat) (s : string) :
  String.length (Str.take n s) = (n `min` String.length s)%nat.
Proof.
  revert s. induction n as [|n IH]; intros [|ch s]; simpl; try done. by rewrite IH.
Qed.

Lemma append_length (a b : string) :
  String.length (a +:+ b) = (String.length a + String.length b)%nat.
Proof. induction a as [|ch a IH]; simpl; [done|]. by rewrite IH. Qed.

(** X17. [truncate_text] with [n] the length of the text and [k] the length of
    the suffix. A text of at most [max_length] characters, and the empty
    text, come back as they are. A longer text is cut: when
    [k ≤ max_length] the result is the first [max_length - k] characters
    followed by the suffix, exactly [max_length] long. When the suffix is
    longer than [max_length], the slice index is negative and counts from
    the end: the result is the text without its last [k - max_length]
    characters followed by the suffix, [n + max_length] long, and it is the
    suffix alone when the text has fewer characters than that. Either way
    the result is then longer than [max_length]. *)
Theorem truncate_text_length (text : string) (max_length : Z) (suffix : string) :
  let n := Z.of_nat (String.length text) in
  let k := Z.of_nat (String.length suffix) in
  let result := utils.truncate_text text max_length suffix in
  (n ≤ max_length → result = text) ∧
  (n = 0 → result = text) ∧
  (max_length < n → k ≤ max_length →
     result = Str.take (Z.to_nat (max_length - k)) text +:+ suffix ∧
     Z.of_nat (String.length result) = max_length) ∧
  (max_length < n → max_length < k → k - max_length ≤ n →
     result = Str.take (Z.to_nat (n - (k - max_length))) text +:+ suffix ∧
     Z.of_nat (String.length result) = n + max_length) ∧
  (0 < n → max_length < n → n < k - max_length → result = suffix) ∧
  (0 < n → max_length < n → max_length < k →
     max_length < Z.of_nat (String.length result)).
Proof.
  intros n k result. unfold result, utils.truncate_text. fold n k.
  destruct (Z.leb_spec n max_length) as [Hle|Hgt].
  { rewrite orb_true_r. split_and!; [done|done|lia..]. }
  rewrite orb_false_r.
  destruct (Str.truthy text) eqn:Htext.
  2:{ destruct text; [|done]. subst n k. simpl. split_and!; [done|done|lia..]. }
  assert (0 < n) as Hpos by (subst n; destruct text; [done|simpl; lia]).
  simpl negb. cbv iota. unfold Str.slice_to.
  assert (max_length < k → k - max_length ≤ n →
          (if 0 <=? max_length - k
           then Str.take (Z.to_nat (max_length - k)) text
           else Str.take (String.length text - Z.to_nat (- (max_length - k))) text)
          = Str.take (Z.to_nat (n - (k - max_length))) text) as Hcut.
  { intros Hk Hn. destruct (Z.leb_spec 0 (max_length - k)) as [?|_]; [lia|].
    f_equal. subst n. lia. }
  assert (max_length < k → n < k - max_length →
          (if 0 <=? max_length - k
           then Str.take (Z.to_nat (max_length - k)) text
           else Str.take (String.length text - Z.to_nat (- (max_length - k))) text)
          = "") as Hnone.
  { intros Hk Hn. destruct (Z.leb_spec 0 (max_length - k)) as [?|_]; [lia|].
    replace (String.length text - Z.to_nat (- (max_length - k)))%nat with 0%nat
      by (subst n; lia).
    by destruct text. }
  split_and!; [lia|lia| | | |].
  - intros _ Hk. destruct (Z.leb_spec 0 (max_length - k)) as [_|?]; [|lia].
    split; [done|]. rewrite append_length, take_length. fold k. lia.
  - intros _ Hk Hn. rewrite Hcut by done. split; [done|].
    rewrite append_length, take_length. fold k. lia.
  - intros _ _ Hn. rewrite Hnone by lia. done.
  - intros _ _ Hk. destruct (Z.le_gt_cases (k - max_length) n) as [Hn|Hn].
    + rewrite Hcut by done. rewrite append_length, take_length. fold k. lia.
    + rewrite Hnone by lia. change ("" +:+ suffix) with suffix. fold k. lia.
Qed.

(** * The recorded click event *)

Lemma rstrip_cons (ch : ascii) (s : string) :
  Str.rstrip (String ch s) =
  match Str.rstrip s with
  | EmptyString => if Str.isspace_char ch then EmptyString else String ch EmptyString
  | t => String ch t
  end.
Proof. reflexivity. Qed.

Lemma rstrip_idem (s : string) : Str.rstrip (Str.rstrip s) = Str.rstrip s.
Proof.
  induction s as [|ch s IH]; [done|]. rewrite rstrip_cons.
  destruct (Str.rstrip s) as [|c t] eqn:E.
  - destruct (Str.isspace_char ch) eqn:Hs; [done|]. rewrite rstrip_cons. simpl.
    by rewrite Hs.
  - by rewrite rstrip_cons, IH.
Qed.

Lemma lstrip_rstrip_head (ch : ascii) (s : string) :
  Str.isspace_char ch = false →
  Str.lstrip (Str.rstrip (String ch s)) = Str.rstrip (String ch s).
Proof.
  intros Hch. rewrite rstrip_cons.
  destruct (Str.rstrip s); rewrite ?Hch; cbn [Str.lstrip]; by rewrite Hch.
Qed.

Lemma lstrip_head (s : string) :
  Str.lstrip s = "" ∨ ∃ ch t, Str.lstrip s = String ch t ∧ Str.isspace_char ch = false.
Proof.
  induction s as [|ch s IH]; [by left|]. cbn [Str.lstrip].
  destruct (Str.isspace_char ch) eqn:Hs; [done|]. right. eauto.
Qed.

Lemma strip_idem (s : string) : Str.strip (Str.strip s) = Str.strip s.
Proof.
  unfold Str.strip. destruct (lstrip_head s) as [->|(ch & t & -> & Hch)]; [done|].
  by rewrite lstrip_rstrip_head, rstrip_idem.
Qed.

Section click_event.

Variable get_ip_info : string → option GeoInfo.
Variable parse_user_agent : string → option UaInfo.

Local Abbreviation handle_redirect :=
  (URLRedirectHandler.handle_redirect get_ip_info parse_user_agent).

(** X18. The event that a served redirect records: the code, the time stamp of
    the insert, the client address and the measured time are stored as
    they are; country, city, browser and device are what the external
    lookups gave, with surrounding whitespace stripped, and the empty
    string when a lookup is unavailable. *)
Theorem recorded_click_event (req : Request) (clk : Clock) (c : string)
    (db : Database) (row : Urls.row) :
  conn_ok db = true →
  resolves db (datetime_now clk) c row →
  ∃ e,
    clicks (handle_redirect req clk c db).2 = clicks db ++ [e] ∧
    Clicks.short_code e = c ∧
    Clicks.id e = S (clicks_seq db) ∧
    Clicks.clicked_at e = current_timestamp clk ∧
    Clicks.ip_address e = client_address req ∧
    Clicks.response_time_ms e = elapsed_ms clk ∧
    Clicks.country e = from_option (Str.strip ∘ geo_country) "" (get_ip_info (client_address req)) ∧
    Clicks.city e = from_option (Str.strip ∘ geo_city) "" (get_ip_info (client_address req)) ∧
    Clicks.browser e =
      from_option (λ ua, Str.strip (browser_family ua +:+ " " +:+ browser_version ua)) ""
        (parse_user_agent (default "" (user_agent req))) ∧
    Clicks.device e =
      from_option (Str.strip ∘ device_family) ""
        (parse_user_agent (default "" (user_agent req))) ∧
    Forall (λ field, Str.strip field = field)
      [Clicks.country e; Clicks.city e; Clicks.browser e; Clicks.device e].
Proof.
  intros Hok Hr.
  assert ((Database.get_url (datetime_now clk) c db).1 = Some row) as Hg
    by (by apply get_url_Some).
  unfold URLRedirectHandler.handle_redirect, bind.
  rewrite get_url_eq, Hg. cbn [config.TRACK_LOCATION config.TRACK_BROWSER config.TRACK_IP].
  unfold config.TRACK_LOCATION, config.TRACK_BROWSER, config.TRACK_IP.
  destruct (get_ip_info (client_address req)) as [geo|];
    destruct (parse_user_agent (default "" (user_agent req))) as [ua|];
    unfold Database.record_click, try_sql, ret; rewrite Hok; simpl;
    (eexists; split; [reflexivity|]; simpl; split_and!; try done;
     repeat constructor; auto using strip_idem).
Qed.

End click_event.

Lemma recorded_click_event_witness :
  ∃ e,
    clicks db_abc_clicked = clicks db_abc ++ [e] ∧
    Clicks.short_code e = "abc" ∧ Clicks.country e = "" ∧ Clicks.browser e = "".
Proof.
  destruct (recorded_click_event geo_unavailable ua_unavailable req_abc clock_1 "abc"
              db_abc row_abc) as (e & H1 & H2 & _ & _ & _ & _ & H7 & _ & H9 & _).
  - reflexivity.
  - split; [vm_compute; reflexivity|]. split; [reflexivity|]. intros t H. discriminate H.
  - exists e. split; [exact H1|]. split; [exact H2|]. split; [exact H7 | exact H9].
Defined.

(** * Reports: click counts and top links *)

Lemma insert_desc_perm {A} (key : A → nat) (x : A) (l : list A) :
  Py.insert_desc key x l ≡ₚ x :: l.
Proof.
  induction l as [|y l IH]; [done|]. simpl.
  destruct (key x <? key y)%nat; [|done]. by rewrite IH, Permutation_swap.
Qed.

Lemma sorted_desc_perm {A} (key : A → nat) (l : list A) : Py.sorted_desc key l ≡ₚ l.
Proof.
  induction l as [|x l IH]; [done|]. unfold Py.sorted_desc in *. simpl.
  by rewrite insert_desc_perm, IH.
Qed.

Lemma insert_desc_sorted {A} (key : A → nat) (x : A) (l : list A) :
  StronglySorted (λ a b, (key b ≤ key a)%nat) l →
  StronglySorted (λ a b, (key b ≤ key a)%nat) (Py.insert_desc key x l).
Proof.
  induction 1 as [|y l Hs IH Hy]; simpl; [repeat constructor|].
  destruct (Nat.ltb_spec (key x) (key y)) as [Hlt|Hge].
  - constructor; [done|]. rewrite insert_desc_perm. constructor; [lia|done].
  - constructor; [by constructor|]. constructor; [done|].
    eapply Forall_impl; [exact Hy|]. simpl. intros z Hz. lia.
Qed.

Lemma sorted_desc_sorted {A} (key : A → nat) (l : list A) :
  StronglySorted (λ a b, (key b ≤ key a)%nat) (Py.sorted_desc key l).
Proof.
  induction l as [|x l IH]; [constructor|]. by apply insert_desc_sorted.
Qed.

Lemma get_click_count_eq c db :
  conn_ok db = true →
  Database.get_click_count c db = (length (clicks_of c db), db).
Proof. intros Hok. unfold Database.get_click_count, try_sql. by rewrite Hok. Qed.

Lemma count_clicks_spec rows db :
  conn_ok db = true →
  Analytics.count_clicks rows db =
  ((λ r, (r, length (clicks_of (Urls.short_code r) db))) <$> rows, db).
Proof.
  intros Hok. induction rows as [|r rows IH]; [done|]. simpl.
  unfold bind at 1. rewrite get_click_count_eq by done.
  unfold bind at 1. by rewrite IH.
Qed.

Lemma add_click_counts_spec rows db :
  conn_ok db = true →
  URLShortener.add_click_counts rows db =
  ((λ r, {| URLShortener.url_data := r;
            URLShortener.click_count := length (clicks_of (Urls.short_code r) db);
            URLShortener.details_shortened_url :=
              config.CUSTOM_DOMAIN +:+ "/" +:+ Urls.short_code r |}) <$> rows, db).
Proof.
  intros Hok. induction rows as [|r rows IH]; [done|]. simpl.
  unfold bind at 1. rewrite get_click_count_eq by done.
  unfold bind at 1. by rewrite IH.
Qed.

Lemma sum_indicator (x : string) (codes : list string) :
  NoDup codes →
  sum_list ((λ c, if decide (x = c) then 1 else 0)%nat <$> codes) =
  (if decide (x ∈ codes) then 1 else 0)%nat.
Proof.
  intros Hnd. induction Hnd as [|c codes Hc Hnd IH]; csimpl.
  - destruct (decide (x ∈ [])) as [H|_]; [by apply elem_of_nil in H|done].
  - rewrite IH.
    destruct (decide (x ∈ codes)) as [Hin|Hin];
      destruct (decide (x ∈ c :: codes)) as [Hin'|Hin'];
      destruct (decide (x = c)) as [Heq|Hne]; subst; try done;
      first [ by destruct Hin'; apply list_elem_of_here
            | by destruct Hin'; apply list_elem_of_further
            | by apply elem_of_cons in Hin' as [?|?] ].
Qed.

Lemma get_all_urls_codes_NoDup include_inactive db :
  keyed db → NoDup (Urls.short_code <$> (Database.get_all_urls include_inactive db).1).
Proof.
  intros Hk. unfold Database.get_all_urls, try_sql.
  destruct (conn_ok db); simpl; [|constructor].
  rewrite merge_sort_Permutation.
  assert (NoDup (Urls.short_code <$> (map_to_list (urls db)).*2)) as Hnd.
  { rewrite keyed_codes by done. apply NoDup_fst_map_to_list. }
  destruct include_inactive; [done|].
  eapply sublist_NoDup; [exact Hnd|]. apply fmap_sublist, sublist_filter.
Qed.

(** Counting per code and adding up counts the events of those codes, each
    once. *)
Lemma sum_counts_per_code (codes : list string) (l : list Clicks.row) :
  NoDup codes →
  sum_list ((λ c, length (filter (λ e, Clicks.short_code e = c) l)) <$> codes) =
  length (filter (λ e, Clicks.short_code e ∈ codes) l).
Proof.
  intros Hnd. induction l as [|e l IH].
  - simpl. induction codes as [|c codes IHc]; [done|]. csimpl.
    apply NoDup_cons in Hnd as [_ Hnd]. by rewrite IHc.
  - rewrite filter_cons.
    transitivity ((if decide (Clicks.short_code e ∈ codes) then 1 else 0)
                  + length (filter (λ e, Clicks.short_code e ∈ codes) l))%nat;
      [|by destruct (decide (Clicks.short_code e ∈ codes))].
    rewrite <-IH, <-(sum_indicator _ codes Hnd). clear IH Hnd.
    induction codes as [|c codes IHc]; [done|]. csimpl.
    rewrite filter_cons, IHc. destruct (decide (Clicks.short_code e = c)); simpl; lia.
Qed.

(** X19. [URLShortener.get_all_urls] on a working connection: the entries are
    the rows of [Database.get_all_urls()], in that order, each with the
    number of click events of its code and its short URL. The click counts
    add up to the number of click events whose code has an active row,
    which is at most the number of all click events. *)
Theorem get_all_urls_click_counts (db : Database) :
  conn_ok db = true →
  keyed db →
  let entries := (URLShortener.get_all_urls db).1 in
  URLShortener.url_data <$> entries = (Database.get_all_urls false db).1 ∧
  Forall (λ d,
            URLShortener.click_count d
              = length (clicks_of (Urls.short_code (URLShortener.url_data d)) db) ∧
            URLShortener.details_shortened_url d
              = config.CUSTOM_DOMAIN +:+ "/" +:+ Urls.short_code (URLShortener.url_data d))
         entries ∧
  sum_list (URLShortener.click_count <$> entries) =
    length (filter (λ e, has_active_link db e = true) (clicks db)) ∧
  (sum_list (URLShortener.click_count <$> entries) ≤ length (clicks db))%nat ∧
  (URLShortener.get_all_urls db).2 = db.
Proof.
  intros Hok Hk entries.
  assert (Database.get_all_urls false db = ((Database.get_all_urls false db).1, db)) as Hga.
  { unfold Database.get_all_urls, try_sql. by rewrite Hok. }
  unfold entries, URLShortener.get_all_urls, bind.
  rewrite Hga, add_click_counts_spec by done. simpl fst. simpl snd.
  set (rows := (Database.get_all_urls false db).1).
  assert (sum_list (URLShortener.click_count <$>
            ((λ r, {| URLShortener.url_data := r;
                      URLShortener.click_count := length (clicks_of (Urls.short_code r) db);
                      URLShortener.details_shortened_url :=
                        config.CUSTOM_DOMAIN +:+ "/" +:+ Urls.short_code r |}) <$> rows))
          = length (filter (λ e, has_active_link db e = true) (clicks db))) as Hsum.
  { rewrite <-list_fmap_compose.
    transitivity (sum_list ((λ c, length (filter (λ e, Clicks.short_code e = c) (clicks db)))
                            <$> (Urls.short_code <$> rows))).
    { by rewrite <-list_fmap_compose. }
    rewrite sum_counts_per_code.
    2:{ by apply (get_all_urls_codes_NoDup false). }
    f_equal. apply list_filter_iff. intros e. rewrite list_elem_of_fmap.
    unfold has_active_link. split.
    - intros (r & Hc & Hr). apply elem_of_get_all_urls in Hr as (_ & k & Hr & [?|Ha]);
        [done|]. by rewrite Hc, (Hk k r Hr), Hr.
    - destruct (urls db !! Clicks.short_code e) as [r|] eqn:Hr; [|done]. intros Ha.
      exists r. split; [by rewrite (Hk _ r Hr)|].
      apply elem_of_get_all_urls. eauto. }
  split_and!.
  - rewrite <-list_fmap_compose. apply list_fmap_id.
  - apply Forall_fmap, Forall_forall. done.
  - done.
  - rewrite Hsum. apply length_filter.
  - done.
Qed.

Lemma get_all_urls_click_counts_witness :
  sum_list (URLShortener.click_count <$> (URLShortener.get_all_urls db_abc_clicked).1)
  = 1%nat.
Proof.
  destruct (get_all_urls_click_counts db_abc_clicked) as (_ & _ & H & _).
  - reflexivity.
  - exact keyed_db_abc_clicked.
  - rewrite H. vm_compute. reflexivity.
Defined.

(** X20. [get_top_urls] on a working connection: each entry is an active row
    with the number of click events of its code; the entries come with the
    larger count first; with a limit of 0 or more there are at most [limit]
    entries, and no active link that is left out has more clicks than one
    that is listed. *)
Theorem get_top_urls_ranking (limit : Z) (db : Database) :
  conn_ok db = true →
  let top := (Analytics.get_top_urls limit db).1 in
  Forall (λ rn, (∃ k, urls db !! k = Some rn.1 ∧ Urls.is_active rn.1 = true) ∧
                rn.2 = length (clicks_of (Urls.short_code rn.1) db)) top ∧
  StronglySorted (λ a b, (b.2 ≤ a.2)%nat) top ∧
  (0 ≤ limit → (Z.of_nat (length top) ≤ limit) ∧
     ∀ k r, urls db !! k = Some r → Urls.is_active r = true →
            (r, length (clicks_of (Urls.short_code r) db)) ∉ top →
            Forall (λ rn, (length (clicks_of (Urls.short_code r) db) ≤ rn.2)%nat) top) ∧
  (Analytics.get_top_urls limit db).2 = db.
Proof.
  intros Hok top.
  assert (Database.get_all_urls false db = ((Database.get_all_urls false db).1, db)) as Hga.
  { unfold Database.get_all_urls, try_sql. by rewrite Hok. }
  unfold top, Analytics.get_top_urls, bind.
  rewrite Hga, count_clicks_spec by done. unfold ret. simpl fst. simpl snd.
  set (rows := (Database.get_all_urls false db).1).
  set (counted := (λ r, (r, length (clicks_of (Urls.short_code r) db))) <$> rows).
  set (sorted := Py.sorted_desc snd counted).
  assert (StronglySorted (λ a b : Urls.row * nat, (b.2 ≤ a.2)%nat) sorted) as Hs
    by apply sorted_desc_sorted.
  assert (∀ rn, rn ∈ sorted ↔
            ∃ r, rn = (r, length (clicks_of (Urls.short_code r) db)) ∧ r ∈ rows) as Hel.
  { intros rn. unfold sorted. rewrite sorted_desc_perm. apply list_elem_of_fmap. }
  assert (∀ n, Py.slice_to limit sorted = take n sorted →
            Forall (λ rn, (∃ k, urls db !! k = Some rn.1 ∧ Urls.is_active rn.1 = true) ∧
                          rn.2 = length (clicks_of (Urls.short_code rn.1) db))
              (Py.slice_to limit sorted) ∧
            StronglySorted (λ a b : Urls.row * nat, (b.2 ≤ a.2)%nat)
              (Py.slice_to limit sorted)) as Hboth.
  { intros n ->. split.
    - apply Forall_take, Forall_forall. intros rn (r & -> & Hr)%Hel. simpl.
      apply elem_of_get_all_urls in Hr as (_ & k & Hr & [?|Ha]); [done|]. eauto.
    - rewrite <-(take_drop n sorted) in Hs. by apply StronglySorted_app_1_l in Hs. }
  unfold Py.slice_to in *.
  destruct (Z.leb_spec 0 limit) as [Hpos|Hneg].
  - destruct (Hboth (Z.to_nat limit) eq_refl) as [H1 H2].
    split_and!; [done..| |done]. intros _. split.
    + rewrite length_take. lia.
    + intros k r Hr Ha Hout. apply Forall_forall. intros rn Hrn.
      assert ((r, length (clicks_of (Urls.short_code r) db)) ∈ sorted) as Hin.
      { apply Hel. exists r. split; [done|]. apply elem_of_get_all_urls. eauto. }
      rewrite <-(take_drop (Z.to_nat limit) sorted) in Hin, Hs.
      apply elem_of_app in Hin as [?|Hin]; [done|].
      apply (StronglySorted_app_1_elem_of _ _ _ _ _ Hs Hrn Hin).
  - destruct (Hboth (length sorted - Z.to_nat (- limit))%nat eq_refl) as [H1 H2].
    split_and!; [done..|lia|done].
Qed.

Lemma get_top_urls_ranking_witness :
  (Analytics.get_top_urls 10 db_abc_clicked).1 = [(row_abc, 1%nat)].
Proof.
  destruct (get_top_urls_ranking 10 db_abc_clicked eq_refl) as (H & _).
  revert H. vm_compute. intros _. reflexivity.
Defined.

(** * Reports: the device distribution *)

Lemma counted_increment (key key' : string) (counter : list (string * nat)) :
  counted key' (Py.increment key counter) =
  (counted key' counter + if decide (key' = key) then 1 else 0)%nat.
Proof.
  unfold counted. induction counter as [|[k n] counter IH]; simpl.
  - rewrite filter_cons. simpl. destruct (decide (key = key')) as [->|Hne].
    + by rewrite decide_True.
    + rewrite decide_False by congruence. done.
  - destruct (String.eqb_spec k key) as [->|Hne].
    + rewrite !filter_cons. simpl.
      destruct (decide (key = key')) as [->|Hne'].
      * rewrite decide_True by done. csimpl. lia.
      * rewrite decide_False by congruence. lia.
    + rewrite !filter_cons. simpl. destruct (decide (k = key')) as [->|Hne'].
      * csimpl. rewrite IH. lia.
      * exact IH.
Qed.

Lemma increment_keys (key : string) (counter : list (string * nat)) :
  (Py.increment key counter).*1 =
  if decide (key ∈ counter.*1) then counter.*1 else counter.*1 ++ [key].
Proof.
  induction counter as [|[k n] counter IH]; csimpl.
  - destruct (decide (key ∈ [])) as [H|_]; [by apply elem_of_nil in H|done].
  - destruct (String.eqb_spec k key) as [->|Hne]; csimpl.
    + by rewrite decide_True by apply list_elem_of_here.
    + rewrite IH. destruct (decide (key ∈ counter.*1)) as [Hin|Hin].
      * by rewrite decide_True by (by apply list_elem_of_further).
      * rewrite decide_False; [done|]. intros [?|?]%elem_of_cons; congruence.
Qed.

Lemma increment_NoDup (key : string) (counter : list (string * nat)) :
  NoDup counter.*1 → NoDup (Py.increment key counter).*1.
Proof.
  intros Hnd. rewrite increment_keys. case_decide; [done|].
  apply NoDup_app. split_and!; [done| |apply NoDup_singleton].
  intros k Hk ->%list_elem_of_singleton. done.
Qed.

Lemma increment_positive (key : string) (counter : list (string * nat)) :
  Forall (λ kn, kn.2 ≠ 0%nat) counter →
  Forall (λ kn, kn.2 ≠ 0%nat) (Py.increment key counter).
Proof.
  induction 1 as [|[k n] counter Hn Hrest IH]; simpl; [by repeat constructor|].
  destruct (String.eqb k key); constructor; done.
Qed.

Lemma counted_entry (key : string) (n : nat) (counter : list (string * nat)) :
  NoDup counter.*1 → (key, n) ∈ counter → counted key counter = n.
Proof.
  unfold counted. induction counter as [|[k m] counter IH]; csimpl.
  - by intros _ ?%elem_of_nil.
  - intros [Hk Hnd]%NoDup_cons [[= <- <-]|Hin]%elem_of_cons.
    + rewrite filter_cons, decide_True by done. csimpl.
      assert (filter (λ kn : string * nat, kn.1 = key) counter = []) as ->; [|simpl; lia].
      apply elem_of_nil_inv. intros [k' m'] [Hk' Hin]%list_elem_of_filter.
      simpl in Hk'. subst k'. apply Hk. apply list_elem_of_fmap. by exists (key, m').
    + rewrite filter_cons. simpl. destruct (decide (k = key)) as [->|Hne].
      * destruct Hk. apply list_elem_of_fmap. by exists (key, n).
      * by apply IH.
Qed.

Lemma counted_nonzero (key : string) (counter : list (string * nat)) :
  counted key counter ≠ 0%nat → ∃ n, (key, n) ∈ counter.
Proof.
  unfold counted. intros Hc.
  destruct (filter (λ kn : string * nat, kn.1 = key) counter) as [|[k n] l] eqn:E; [done|].
  assert ((k, n) ∈ filter (λ kn : string * nat, kn.1 = key) counter) as Hin
    by (rewrite E; apply list_elem_of_here).
  apply list_elem_of_filter in Hin as [Hk Hin]. simpl in Hk. subst k. eauto.
Qed.

Lemma device_counter_spec (l : list Clicks.row) :
  ∀ acc,
    let counter := foldl (λ counter click,
                            Py.increment (Analytics.device_label click) counter) acc l in
    (NoDup acc.*1 → NoDup counter.*1) ∧
    (Forall (λ kn, kn.2 ≠ 0%nat) acc → Forall (λ kn, kn.2 ≠ 0%nat) counter) ∧
    ∀ key, counted key counter =
           (counted key acc
            + length (filter (λ e, Analytics.device_label e = key) l))%nat.
Proof.
  induction l as [|e l IH]; intros acc; simpl.
  - split_and!; [done..|]. intros key. lia.
  - destruct (IH (Py.increment (Analytics.device_label e) acc)) as (H1 & H2 & H3).
    split_and!.
    + intros Hnd. by apply H1, increment_NoDup.
    + intros Hp. by apply H2, increment_positive.
    + intros key. rewrite H3, counted_increment, filter_cons.
      destruct (decide (key = Analytics.device_label e)) as [->|Hne].
      * rewrite decide_True by done. simpl. lia.
      * rewrite decide_False by congruence. lia.
Qed.

Lemma sum_counts_total (counter : list (string * nat)) :
  NoDup counter.*1 →
  sum_list counter.*2 = sum_list ((λ k, counted k counter) <$> counter.*1).
Proof.
  intros Hnd. induction counter as [|[k n] counter IH]; [done|]. csimpl.
  apply NoDup_cons in Hnd as [Hk Hnd]. rewrite IH by done.
  rewrite (counted_entry k n ((k, n) :: counter));
    [|by apply NoDup_cons|apply list_elem_of_here].
  f_equal. f_equal. apply list_fmap_ext. intros i k' Hk'.
  unfold counted. rewrite filter_cons. simpl.
  rewrite decide_False; [done|]. intros ->. apply Hk.
  by apply list_elem_of_lookup_2 in Hk'.
Qed.

(** The distribution in terms of the label that the loop computes. *)
Lemma device_distribution_by_label (short_code : option string) (db : Database) :
  let events := (Database.get_clicks short_code None None None db).1 in
  let dist := (Analytics.get_device_distribution short_code db).1 in
  NoDup dist.*1 ∧
  (∀ name n, (name, n) ∈ dist ↔
             n = length (filter (λ e, Analytics.device_label e = name) events) ∧
             n ≠ 0%nat) ∧
  sum_list dist.*2 = length events ∧
  StronglySorted (λ a b, (b.2 ≤ a.2)%nat) dist ∧
  (Analytics.get_device_distribution short_code db).2 = db.
Proof.
  intros events dist.
  assert (Database.get_clicks short_code None None None db = (events, db)) as Hgc.
  { unfold events, Database.get_clicks, try_sql. by destruct (conn_ok db). }
  unfold dist, Analytics.get_device_distribution, bind, ret. rewrite Hgc.
  simpl fst. simpl snd.
  set (counter := foldl (λ counter click,
                           Py.increment (Analytics.device_label click) counter) [] events).
  destruct (device_counter_spec events []) as (Hnd & Hpos & Hcnt). fold counter in Hnd, Hpos, Hcnt.
  specialize (Hnd (NoDup_nil_2 : NoDup ([] : list (string * nat)).*1)).
  specialize (Hpos (Forall_nil_2 _)).
  assert (∀ key, counted key counter
                 = length (filter (λ e, Analytics.device_label e = key) events)) as Hcnt'.
  { intros key. by rewrite Hcnt. }
  split_and!.
  - by rewrite sorted_desc_perm.
  - intros name n. rewrite sorted_desc_perm. split.
    + intros Hin. split.
      * by rewrite <-Hcnt', (counted_entry name n counter).
      * by apply (proj1 (Forall_forall _ _) Hpos (name, n)).
    + intros [-> Hn]. rewrite <-Hcnt' in Hn |- *.
      destruct (counted_nonzero _ _ Hn) as [m Hm].
      by rewrite (counted_entry name m counter).
  - rewrite sorted_desc_perm, sum_counts_total by done.
    erewrite list_fmap_ext; [|intros i k _; apply Hcnt'].
    clear -Hnd Hcnt'.
    assert (∀ e, e ∈ events → Analytics.device_label e ∈ counter.*1) as Hall.
    { intros e He.
      destruct (counted_nonzero (Analytics.device_label e) counter) as [m Hm].
      - rewrite Hcnt'. intros Hz%length_zero_iff_nil.
        eapply (filter_nil_not_elem_of _ _ e) in Hz; done.
      - apply list_elem_of_fmap. by exists (Analytics.device_label e, m). }
    revert Hall. generalize (counter.*1) Hnd. clear. intros names Hnd Hall.
    induction events as [|e events IH].
    + simpl. clear. induction names as [|k names IHn]; [done|]. csimpl.
      by rewrite IHn.
    + transitivity (S (sum_list ((λ k, length (filter (λ e0, Analytics.device_label e0 = k)
                                                  events)) <$> names))).
      2:{ rewrite IH; [done|]. intros e' He'. apply Hall. by apply list_elem_of_further. }
      specialize (Hall e (list_elem_of_here _ _)). clear IH.
      induction Hnd as [|k names Hk Hnd IHn]; [by apply elem_of_nil in Hall|].
      csimpl. rewrite filter_cons.
      destruct (decide (Analytics.device_label e = k)) as [Heq|Hne].
      * assert ((λ k0, length (filter (λ e0, Analytics.device_label e0 = k0) (e :: events)))
                  <$> names
                = (λ k0, length (filter (λ e0, Analytics.device_label e0 = k0) events))
                  <$> names) as ->.
        { apply list_fmap_ext. intros i k' Hk'.
          rewrite filter_cons, decide_False; [done|].
          intros Heq'. apply Hk. rewrite <-Heq, Heq'.
          by apply list_elem_of_lookup_2 in Hk'. }
        simpl. lia.
      * apply elem_of_cons in Hall as [?|Hall]; [done|]. rewrite IHn by done. lia.
  - apply sorted_desc_sorted.
  - done.
Qed.

(** The label under which the loop counts a click. *)
Lemma device_label_spec (e : Clicks.row) :
  Analytics.device_label e =
  if bool_decide (Str.strip (Clicks.device e) = "" ∨ Str.strip (Clicks.device e) = "None")
  then "Unknown" else Str.strip (Clicks.device e).
Proof.
  unfold Analytics.device_label. destruct (Clicks.device e) as [|ch dev] eqn:Hdev.
  { by rewrite bool_decide_true by (by left). }
  cbn [Str.truthy]. destruct (Str.strip (String ch dev)) as [|ch' d] eqn:Hd.
  { by rewrite bool_decide_true by (by left). }
  cbn [Str.truthy andb]. destruct (String.eqb_spec (String ch' d) "None") as [Heq|Hne].
  - rewrite bool_decide_true by (by right). done.
  - rewrite bool_decide_false; [done|]. by intros [?|?].
Qed.

(** X21. [get_device_distribution]: every click event that [get_clicks]
    returns for the code is counted once, under its device name with the
    surrounding whitespace stripped, or under [Unknown] when the stripped
    name is empty or the text [None]. Each name has one entry; its count is
    the number of those events with that name; the counts add up to the
    number of the events; and the entries come with the larger count
    first. *)
Theorem device_distribution_counts (short_code : option string) (db : Database) :
  let events := (Database.get_clicks short_code None None None db).1 in
  let dist := (Analytics.get_device_distribution short_code db).1 in
  NoDup dist.*1 ∧
  (∀ name n,
     (name, n) ∈ dist ↔
     n = length (filter (λ e, name =
                           if bool_decide (Str.strip (Clicks.device e) = "" ∨
                                           Str.strip (Clicks.device e) = "None")
                           then "Unknown" else Str.strip (Clicks.device e))
                        events) ∧
     n ≠ 0%nat) ∧
  sum_list dist.*2 = length events ∧
  StronglySorted (λ a b, (b.2 ≤ a.2)%nat) dist ∧
  (Analytics.get_device_distribution short_code db).2 = db.
Proof.
  intros events dist.
  destruct (device_distribution_by_label short_code db) as (Hnd & Hcount & Hsum & Hsort & Hdb).
  fold events dist in Hnd, Hcount, Hsum, Hsort.
  split_and!; [done| |done..].
  intros name n. rewrite Hcount.
  assert (filter (λ e, Analytics.device_label e = name) events =
          filter (λ e, name =
                       if bool_decide (Str.strip (Clicks.device e) = "" ∨
                                       Str.strip (Clicks.device e) = "None")
                       then "Unknown" else Str.strip (Clicks.device e)) events) as ->; [|done].
  apply list_filter_iff. intros e. rewrite device_label_spec. split; by intros ->.
Qed.

(** * Hard delete frees the code *)

(** X22. After a successful [hard_delete_url] of a code, [insert_url] accepts
    the code again. The new row has an id that no row had before, and the
    code starts with no click events: [get_click_count] is 0. *)
Theorem hard_delete_frees_code (db : Database) (c : string) (ts : Timestamp)
    (u : string) (cu : bool) (ex : option Timestamp) (n t : string) :
  (Database.hard_delete_url c db).1 = true →
  let db1 := (Database.hard_delete_url c db).2 in
  let db2 := (Database.insert_url ts c u cu ex n t db1).2 in
  (Database.insert_url ts c u cu ex n t db1).1 = true ∧
  (∃ row, urls db2 !! c = Some row ∧ Urls.original_url row = u ∧
          Urls.is_active row = true ∧ Urls.id row = S (urls_seq db)) ∧
  (Database.get_click_count c db2).1 = 0%nat.
Proof.
  unfold Database.hard_delete_url, try_sql.
  destruct (conn_ok db) eqn:Hok; [|done]. intros _. simpl.
  unfold Database.insert_url, try_sql. simpl. rewrite Hok, lookup_delete_eq. simpl.
  split_and!; [done| |].
  - rewrite lookup_insert_eq. eexists. split; [done|]. done.
  - unfold Database.get_click_count, try_sql. simpl.
    apply length_zero_iff_nil, elem_of_nil_inv. intros e.
    rewrite list_elem_of_filter, list_elem_of_filter. by intros [? [? _]].
Qed.

Lemma hard_delete_frees_code_witness :
  (Database.insert_url 9 "abc" url_page true None "" ""
     (Database.hard_delete_url "abc" db_abc_clicked).2).1 = true.
Proof.
  refine (proj1 (hard_delete_frees_code db_abc_clicked "abc" 9 url_page true None "" "" _)).
  reflexivity.
Defined.

(** * The expiration sweep *)

Lemma cleanup_loop_spec now :
  ∀ rows i count db,
    conn_ok db = true →
    URLShortener.cleanup_loop now i rows count db =
    ((count + length (found_expired now i rows))%nat,
     set_urls (foldl (λ m r, alter Database.deactivate (Urls.short_code r) m) (urls db)
                 (found_expired now i rows)) db).
Proof.
  induction rows as [|r rows IH]; intros i count db Hok; simpl.
  - unfold ret. by rewrite Nat.add_0_r, set_urls_same.
  - destruct (Database.expired (now i) r) eqn:He.
    + unfold bind, Database.delete_url, try_sql.
      rewrite Hok. rewrite IH by done. simpl. rewrite set_urls_set_urls.
      f_equal. lia.
    + by apply IH.
Qed.

Lemma expired_later (a b : Timestamp) (r : Urls.row) :
  a ≤ b → Database.expired a r = true → Database.expired b r = true.
Proof.
  intros Hle (t & Ht & Hlt)%expired_true. apply expired_true. exists t.
  split; [done|lia].
Qed.

Lemma found_expired_sublist now : ∀ rows i, found_expired now i rows `sublist_of` rows.
Proof.
  induction rows as [|r rows IH]; intros i; simpl; [done|].
  destruct (Database.expired (now i) r); [apply sublist_skip|apply sublist_cons]; apply IH.
Qed.

Lemma found_expired_upper now hi r :
  (∀ i, now i ≤ hi) →
  ∀ rows i, r ∈ found_expired now i rows → Database.expired hi r = true.
Proof.
  intros Hhi. induction rows as [|r' rows IH]; intros i; simpl.
  - by intros ?%elem_of_nil.
  - destruct (Database.expired (now i) r') eqn:He; [|apply IH].
    intros [->|?]%elem_of_cons; [|by eapply IH].
    by apply (expired_later (now i)).
Qed.

Lemma found_expired_lower now lo r :
  (∀ i, lo ≤ now i) → Database.expired lo r = true →
  ∀ rows i, r ∈ rows → r ∈ found_expired now i rows.
Proof.
  intros Hlo He. induction rows as [|r' rows IH]; intros i; simpl.
  - by intros ?%elem_of_nil.
  - intros [->|Hin]%elem_of_cons.
    + rewrite (expired_later lo (now i) r' (Hlo i) He). apply list_elem_of_here.
    + destruct (Database.expired (now i) r'); [apply list_elem_of_further|]; by apply IH.
Qed.

(** X23. One sweep on a working connection, with every reading of the clock
    during the sweep between [lo] and [hi]. The sweep returns the number of
    rows it changes. Each row it changes was active with an expiration
    before [hi], and is soft-deleted; every active row with an expiration
    before [lo] is among them. The ledger stays, and [get_url] answers from
    [hi] on as it would have without the sweep. *)
Theorem cleanup_expired_urls_sweep (now : nat → Timestamp) (lo hi : Timestamp)
    (db : Database) (codes : list string) :
  conn_ok db = true →
  keyed db →
  (∀ i, lo ≤ now i ≤ hi) →
  let db' := (URLShortener.cleanup_expired_urls now db).2 in
  NoDup codes →
  (∀ c, c ∈ codes ↔ urls db' !! c ≠ urls db !! c) →
  (URLShortener.cleanup_expired_urls now db).1 = length codes ∧
  (∀ c, c ∈ codes →
        ∃ r t, urls db !! c = Some r ∧ Urls.is_active r = true ∧
               Urls.expires_at r = Some t ∧ t < hi ∧
               urls db' !! c = Some (Database.deactivate r)) ∧
  (∀ c r t, urls db !! c = Some r → Urls.is_active r = true →
            Urls.expires_at r = Some t → t < lo → c ∈ codes) ∧
  clicks db' = clicks db ∧
  (∀ c now', hi ≤ now' →
     (Database.get_url now' c db').1 = (Database.get_url now' c db).1).
Proof.
  intros Hok Hk Hnow db' Hnd Hcodes.
  pose proof (elem_of_get_all_urls false db) as Hel.
  pose proof (get_all_urls_codes_NoDup false db Hk) as Hrows.
  assert (Database.get_all_urls false db =
          ((Database.get_all_urls false db).1, db)) as Hga.
  { unfold Database.get_all_urls, try_sql. by rewrite Hok. }
  set (rows := (Database.get_all_urls false db).1) in *.
  set (found := found_expired now 0 rows).
  assert (URLShortener.cleanup_expired_urls now db =
          (length found,
           set_urls (foldl (λ m r, alter Database.deactivate (Urls.short_code r) m)
                       (urls db) found) db)) as Hrun.
  { unfold URLShortener.cleanup_expired_urls, bind. rewrite Hga.
    by rewrite cleanup_loop_spec. }
  assert (∀ c, urls db' !! c =
               (if decide (c ∈ Urls.short_code <$> found) then Database.deactivate else id)
                 <$> urls db !! c) as Hu.
  { intros c. unfold db'. rewrite Hrun. simpl. by apply lookup_foldl_alter. }
  assert (∀ r, r ∈ found →
               urls db !! Urls.short_code r = Some r ∧ Urls.is_active r = true ∧
               Database.expired hi r = true) as Hfound.
  { intros r Hr.
    assert (r ∈ rows) as Hin.
    { eapply elem_of_sublist; [exact Hr|apply found_expired_sublist]. }
    apply Hel in Hin as (_ & k & Hkr & [?|Ha]); [done|]. split_and!.
    - by rewrite (Hk k r Hkr).
    - done.
    - eapply found_expired_upper; [|exact Hr]. intros i. apply Hnow. }
  assert (∀ c, c ∈ codes ↔ c ∈ Urls.short_code <$> found) as Hcodes'.
  { intros c. rewrite Hcodes, Hu. destruct (decide (c ∈ _)) as [Hin|Hin].
    - split; [done|]. intros _.
      apply list_elem_of_fmap in Hin as (r & -> & Hr).
      destruct (Hfound r Hr) as (-> & Ha & _). simpl. intros [= Heq].
      by rewrite <-Heq in Ha.
    - split; [|done]. intros []. by destruct (urls db !! c). }
  split_and!.
  - rewrite Hrun. simpl. rewrite <-(length_fmap Urls.short_code).
    apply Permutation_length, NoDup_Permutation; [|done|done].
    eapply sublist_NoDup; [exact Hrows|]. apply fmap_sublist, found_expired_sublist.
  - intros c (r & -> & Hr)%Hcodes'%list_elem_of_fmap.
    destruct (Hfound r Hr) as (Hrow & Ha & (t & Ht & Hlt)%expired_true).
    exists r, t. split_and!; [done..|].
    rewrite Hu, Hrow, decide_True; [done|]. apply list_elem_of_fmap. eauto.
  - intros c r t Hr Ha Ht Hlt. apply Hcodes', list_elem_of_fmap. exists r.
    split; [by rewrite (Hk c r Hr)|].
    apply (found_expired_lower now lo).
    + intros i. apply Hnow.
    + apply expired_true. eauto.
    + apply Hel. eauto.
  - unfold db'. by rewrite Hrun.
  - intros c now' Hle. rewrite !get_url_value.
    assert (conn_ok db' = conn_ok db) as -> by (unfold db'; by rewrite Hrun).
    rewrite Hok, Hu. destruct (decide (c ∈ _)) as [Hin|Hin].
    + apply list_elem_of_fmap in Hin as (r & -> & Hr).
      destruct (Hfound r Hr) as (-> & Ha & He). simpl.
      by rewrite Ha, (expired_later hi now' r Hle He).
    + by destruct (urls db !! c).
Qed.

Lemma cleanup_expired_urls_sweep_witness :
  (URLShortener.cleanup_expired_urls (λ _, 0) db_abc_expired).1 = 1%nat ∧
  ∃ r t, urls db_abc_expired !! "abc" = Some r ∧ Urls.is_active r = true ∧
         Urls.expires_at r = Some t ∧ t < 0 ∧
         urls (URLShortener.cleanup_expired_urls (λ _, 0) db_abc_expired).2 !! "abc"
           = Some (Database.deactivate r).
Proof.
  destruct (cleanup_expired_urls_sweep (λ _, 0) 0 0 db_abc_expired ["abc"])
    as (H1 & H2 & _).
  - reflexivity.
  - unfold keyed. refine (bool_decide_unpack _ _). vm_compute. exact I.
  - intros _. lia.
  - apply NoDup_singleton.
  - intros c. rewrite list_elem_of_singleton.
    assert (urls db_abc_expired = {[ "abc" := row_abc_expired ]}) as ->
      by (vm_compute; reflexivity).
    assert (urls (URLShortener.cleanup_expired_urls (λ _, 0) db_abc_expired).2
            = {[ "abc" := Database.deactivate row_abc_expired ]}) as ->
      by (vm_compute; reflexivity).
    split.
    + intros ->. by rewrite !lookup_singleton_eq.
    + intros Hne. destruct (decide (c = "abc")) as [|Hc]; [done|].
      destruct Hne. by rewrite !lookup_singleton_ne.
  - split; [exact H1|]. apply H2. apply list_elem_of_singleton. reflexivity.
Defined.

(** * Listing and details *)

(** X24. For each entry that [URLShortener.get_all_urls] lists,
    [get_url_details] of its code returns that entry while the link has
    not expired, and [None] once its expiration has passed: an expired
    link stays in the listing until it is soft-deleted, but has no details.
    A code that the listing does not have has no details. *)
Theorem listed_link_details (now : Timestamp) (db : Database) :
  conn_ok db = true →
  keyed db →
  let entries := (URLShortener.get_all_urls db).1 in
  (∀ d, d ∈ entries →
     (URLShortener.get_url_details now (Urls.short_code (URLShortener.url_data d)) db).1 =
       if Database.expired now (URLShortener.url_data d) then None else Some d) ∧
  (∀ c, c ∉ Urls.short_code <$> (URLShortener.url_data <$> entries) →
        (URLShortener.get_url_details now c db).1 = None).
Proof.
  intros Hok Hk entries.
  pose proof (elem_of_get_all_urls false db) as Hel.
  assert (entries =
          (λ r, {| URLShortener.url_data := r;
                   URLShortener.click_count := length (clicks_of (Urls.short_code r) db);
                   URLShortener.details_shortened_url :=
                     config.CUSTOM_DOMAIN +:+ "/" +:+ Urls.short_code r |})
            <$> (Database.get_all_urls false db).1) as Hentries.
  { unfold entries, URLShortener.get_all_urls, bind.
    assert (Database.get_all_urls false db =
            ((Database.get_all_urls false db).1, db)) as ->
      by (unfold Database.get_all_urls, try_sql; by rewrite Hok).
    by rewrite add_click_counts_spec. }
  assert (∀ c, (URLShortener.get_url_details now c db).1 =
               match (Database.get_url now c db).1 with
               | Some r =>
                   Some {| URLShortener.url_data := r;
                           URLShortener.click_count := length (clicks_of c db);
                           URLShortener.details_shortened_url :=
                             config.CUSTOM_DOMAIN +:+ "/" +:+ c |}
               | None => None
               end) as Hdetails.
  { intros c. unfold URLShortener.get_url_details, bind. rewrite get_url_eq.
    destruct (Database.get_url now c db).1; [|done].
    by rewrite get_click_count_eq. }
  split.
  - intros d. rewrite Hentries. intros (r & -> & Hr)%list_elem_of_fmap. simpl.
    apply Hel in Hr as (_ & k & Hr & [?|Ha]); [done|].
    pose proof (Hk k r Hr) as Hkr. simpl in Hkr. subst k.
    rewrite Hdetails, get_url_value, Hok, Hr, Ha. simpl.
    by destruct (Database.expired now r).
  - intros c Hc. rewrite Hdetails, get_url_value, Hok.
    destruct (urls db !! c) as [r|] eqn:Hr; [|done].
    destruct (Urls.is_active r) eqn:Ha; [|done]. destruct Hc.
    rewrite Hentries, <-!list_fmap_compose. apply list_elem_of_fmap. exists r.
    split; [simpl; by rewrite (Hk c r Hr)|]. apply Hel. eauto.
Qed.

Lemma listed_link_details_witness :
  ∃ d, d ∈ (URLShortener.get_all_urls db_abc_expired).1 ∧
       Urls.short_code (URLShortener.url_data d) = "abc" ∧
       (URLShortener.get_url_details 0 "abc" db_abc_expired).1 = None.
Proof.
  assert (conn_ok db_abc_expired = true) as Hok by reflexivity.
  assert (keyed db_abc_expired) as Hk.
  { unfold keyed. refine (bool_decide_unpack _ _). vm_compute. exact I. }
  exists {| URLShortener.url_data := row_abc_expired;
            URLShortener.click_count := 0;
            URLShortener.details_shortened_url := "http://localhost:8080/abc" |}.
  assert ({| URLShortener.url_data := row_abc_expired;
             URLShortener.click_count := 0;
             URLShortener.details_shortened_url := "http://localhost:8080/abc" |}
          ∈ (URLShortener.get_all_urls db_abc_expired).1) as Hin.
  { vm_compute. apply list_elem_of_here. }
  split; [exact Hin|]. split; [reflexivity|].
  exact (proj1 (listed_link_details 0 db_abc_expired Hok Hk) _ Hin).
Defined.
